(** * The joystick input subsystem of clubmate-snake ([input.c])

    A shallow embedding of [input.c]: the device table [joysticks], the
    counter [num_joysticks], the two udev handles, and every function of
    the file, followed by the properties of the registry, of the event
    decoder and of the key history. *)

From Stdlib Require Import ZArith Lia.
From stdpp Require Import base decidable option list strings.
From Equations Require Import Equations.

(** ** Constants of [matelight.h]

    [matelight.h] gives [MAX_JOYSTICKS], [KEY_HISTORY_SIZE], the
    [KEYPAD_*] key masks and [struct joystick].  The constants are
    parameters of the development; [DEVNODE_SIZE] is
    [sizeof(joystick->devnode)]. *)

Class matelight_h := {
  MAX_JOYSTICKS : nat;
  KEY_HISTORY_SIZE : nat;
  DEVNODE_SIZE : nat;
  KEYPAD_NONE : Z;
  KEYPAD_UP : Z;
  KEYPAD_DOWN : Z;
  KEYPAD_LEFT : Z;
  KEYPAD_RIGHT : Z;
  KEYPAD_A : Z;
  KEYPAD_B : Z;
  KEYPAD_SELECT : Z;
  KEYPAD_START : Z
}.

(** Constants of the system headers ([errno.h], [linux/joystick.h]). *)

Definition EBADF : Z := 9.
Definition ENOMEM : Z := 12.
Definition EINVAL : Z := 22.
Definition JS_EVENT_BUTTON : Z := 1.
Definition JS_EVENT_AXIS : Z := 2.
Definition JS_EVENT_INIT : Z := 128.

(** ** Data *)

(** [struct joystick], with the fields [input.c] uses.  [fd], [player],
    [key_state], [last_key_idx] and the history entries are C integers,
    here plain [Z]: the only arithmetic [input.c] does on them is
    [player++] and [cnt++], and both stay within [num_joysticks + 1]
    ([get_available_player_range], [num_joysticks_bounded]). *)

Record joystick := Joystick {
  fd : Z;
  devnode : string;
  dev : Z;
  axes : Z;
  buttons : Z;
  name : string;
  player : Z;
  key_state : Z;
  last_key_idx : Z;
  last_key_val : bool;
  key_history : list Z
}.

(** [struct js_event] (the timestamp is never read). *)

Record js_event := JsEvent {
  value : Z;
  type : Z;
  number : Z
}.

(** The answer of a system call: an error code left in [errno], or a
    value. *)

Inductive sys_reply (A : Type) :=
| SysErr (e : Z)
| SysOk (v : A).
Arguments SysErr {A} e.
Arguments SysOk {A} v.

(** What the kernel answers for one device node during [open_joystick]. *)

Record device_reply := DeviceReply {
  r_open : sys_reply Z;
  r_getfl : sys_reply Z;
  r_setfl : sys_reply unit;
  r_version : sys_reply Z;
  r_axes : sys_reply Z;
  r_buttons : sys_reply Z;
  r_name : sys_reply string
}.

(** A [struct udev_device] as [input.c] observes it: its device node,
    its [ID_INPUT_JOYSTICK] property, its action, and what [stat] and the
    kernel answer for the node. *)

Record udev_device := UdevDevice {
  ud_devnode : option string;
  ud_joystick : option string;
  ud_action : option string;
  ud_stat : sys_reply Z;
  ud_reply : device_reply
}.

(** The process state: the four static variables of [input.c], [errno],
    the descriptors the process holds open and the udev objects it holds
    a reference to. *)

Record world := World {
  joysticks : list joystick;
  num_joysticks : nat;
  udev_ctx : option Z;
  udev_monitor : option Z;
  errno : Z;
  open_fds : list Z;
  udev_refs : list Z
}.

(** A call either returns, or the process ends ([exit]), or the call
    writes past the end of [joysticks], after which C defines nothing. *)

Inductive abort :=
| ProcessExit
| OutOfBoundsWrite.

Inductive result (A : Type) :=
| Done (a : A) (w : world)
| Abort (r : abort).
Arguments Done {A} a w.
Arguments Abort {A} r.

Definition bind {A B : Type} (m : result A) (k : A → world → result B) : result B :=
  match m with
  | Done a w => k a w
  | Abort r => Abort r
  end.

Section input_c.
Context `{matelight_h}.

(** The all-zero record of [static struct joystick joysticks[...] = { 0 }]. *)

Definition zero_joystick : joystick :=
  {| fd := 0; devnode := EmptyString; dev := 0; axes := 0; buttons := 0;
     name := EmptyString;
     player := 0; key_state := 0; last_key_idx := 0; last_key_val := false;
     key_history := replicate KEY_HISTORY_SIZE 0%Z |}.

#[export] Instance joystick_inhabited : Inhabited joystick := populate zero_joystick.

Definition initial_world : world :=
  {| joysticks := replicate MAX_JOYSTICKS zero_joystick;
     num_joysticks := 0;
     udev_ctx := None;
     udev_monitor := None;
     errno := 0;
     open_fds := [];
     udev_refs := [] |}.

(** *** Field updates *)

Definition set_joysticks (js : list joystick) (w : world) : world :=
  {| joysticks := js; num_joysticks := num_joysticks w; udev_ctx := udev_ctx w;
     udev_monitor := udev_monitor w; errno := errno w; open_fds := open_fds w;
     udev_refs := udev_refs w |}.

Definition set_num_joysticks (n : nat) (w : world) : world :=
  {| joysticks := joysticks w; num_joysticks := n; udev_ctx := udev_ctx w;
     udev_monitor := udev_monitor w; errno := errno w; open_fds := open_fds w;
     udev_refs := udev_refs w |}.

Definition set_udev_ctx (c : option Z) (w : world) : world :=
  {| joysticks := joysticks w; num_joysticks := num_joysticks w; udev_ctx := c;
     udev_monitor := udev_monitor w; errno := errno w; open_fds := open_fds w;
     udev_refs := udev_refs w |}.

Definition set_udev_monitor (m : option Z) (w : world) : world :=
  {| joysticks := joysticks w; num_joysticks := num_joysticks w; udev_ctx := udev_ctx w;
     udev_monitor := m; errno := errno w; open_fds := open_fds w;
     udev_refs := udev_refs w |}.

Definition set_errno (e : Z) (w : world) : world :=
  {| joysticks := joysticks w; num_joysticks := num_joysticks w; udev_ctx := udev_ctx w;
     udev_monitor := udev_monitor w; errno := e; open_fds := open_fds w;
     udev_refs := udev_refs w |}.

Definition set_open_fds (l : list Z) (w : world) : world :=
  {| joysticks := joysticks w; num_joysticks := num_joysticks w; udev_ctx := udev_ctx w;
     udev_monitor := udev_monitor w; errno := errno w; open_fds := l;
     udev_refs := udev_refs w |}.

Definition set_udev_refs (l : list Z) (w : world) : world :=
  {| joysticks := joysticks w; num_joysticks := num_joysticks w; udev_ctx := udev_ctx w;
     udev_monitor := udev_monitor w; errno := errno w; open_fds := open_fds w;
     udev_refs := l |}.

Definition set_fd (v : Z) (j : joystick) : joystick :=
  {| fd := v; devnode := devnode j; dev := dev j; axes := axes j;
     buttons := buttons j; name := name j; player := player j;
     key_state := key_state j; last_key_idx := last_key_idx j;
     last_key_val := last_key_val j; key_history := key_history j |}.

Definition set_key_state (v : Z) (j : joystick) : joystick :=
  {| fd := fd j; devnode := devnode j; dev := dev j; axes := axes j;
     buttons := buttons j; name := name j; player := player j;
     key_state := v; last_key_idx := last_key_idx j;
     last_key_val := last_key_val j; key_history := key_history j |}.

Definition set_last_key (k : Z) (v : bool) (j : joystick) : joystick :=
  {| fd := fd j; devnode := devnode j; dev := dev j; axes := axes j;
     buttons := buttons j; name := name j; player := player j;
     key_state := key_state j; last_key_idx := k;
     last_key_val := v; key_history := key_history j |}.

Definition set_key_history (h : list Z) (j : joystick) : joystick :=
  {| fd := fd j; devnode := devnode j; dev := dev j; axes := axes j;
     buttons := buttons j; name := name j; player := player j;
     key_state := key_state j; last_key_idx := last_key_idx j;
     last_key_val := last_key_val j; key_history := h |}.

(** [joysticks[i]] and [joysticks[i] = j]. *)

Definition slot (w : world) (i : nat) : joystick := joysticks w !!! i.

Definition set_slot (i : nat) (j : joystick) (w : world) : world :=
  set_joysticks (<[i := j]> (joysticks w)) w.

(** *** System calls *)

(** [close(fd)]: the descriptor leaves the table; closing one that is not
    open fails with [EBADF]. *)

Definition sys_close (d : Z) (w : world) : world :=
  if decide (d ∈ open_fds w)
  then set_open_fds (filter (λ x, x ≠ d) (open_fds w)) w
  else set_errno EBADF w.

(** A call that returns [-1] and sets [errno] on failure. *)

Definition sys_call (r : sys_reply Z) (w : world) : Z * world :=
  match r with
  | SysErr e => ((-1)%Z, set_errno e w)
  | SysOk v => (v, w)
  end.

(** [open(devnode, O_RDONLY)]. *)

Definition sys_open (r : sys_reply Z) (w : world) : Z * world :=
  match r with
  | SysErr e => ((-1)%Z, set_errno e w)
  | SysOk d => (d, set_open_fds (d :: open_fds w) w)
  end.

(** [udev_unref] and [udev_monitor_unref]: the reference is dropped. *)

Definition udev_drop (p : Z) (w : world) : world :=
  set_udev_refs (filter (λ x, x ≠ p) (udev_refs w)) w.

(** [for (i = 0; i < n; i++) body], for a body that neither changes [i]
    nor leaves the loop. *)

Definition for_loop (n : nat) (body : nat → world → world) (w : world) : world :=
  foldl (λ w i, body i w) w (seq 0 n).

(** ** [input_reset] *)

Definition input_reset (w : world) : world :=
  let w1 := for_loop (num_joysticks w) (λ i w,
              if decide (fd (slot w i) ≠ (-1)%Z)
              then set_slot i (set_fd (-1) (slot w i)) (sys_close (fd (slot w i)) w)
              else w) w in
  let w2 := set_num_joysticks 0 w1 in
  match udev_ctx w2 with
  | Some ctx =>
      let w3 := match udev_monitor w2 with
                | Some m => udev_drop m w2
                | None => w2
                end in
      let w4 := set_udev_monitor None w3 in
      set_udev_ctx None (udev_drop ctx w4)
  | None => w2
  end.

(** ** [get_free_joystick]

    The result is the index of the slot the returned pointer designates,
    [None] for [NULL]. *)

Definition get_free_joystick (w : world) : option nat * world :=
  match list_find (λ j, fd j = (-1)%Z) (take (num_joysticks w) (joysticks w)) with
  | Some (i, _) => (Some i, w)
  | None =>
      if decide (num_joysticks w < MAX_JOYSTICKS)
      then let i := num_joysticks w in
           (Some i, set_num_joysticks (S i) (set_slot i (set_fd (-1) (slot w i)) w))
      else (None, w)
  end.

(** ** [get_available_player]

    The loop of the source, on the pair of its two variables [i] and
    [player] (here [p]).  After a match the source sets [i = 0] and the
    loop header increments it, so the scan resumes at index 1. *)

Definition held_from (js : list joystick) (n : nat) (p : Z) : list nat :=
  filter (λ k, fd (js !!! k) ≠ (-1)%Z ∧ (p ≤ player (js !!! k))%Z) (seq 0 n).

Definition scan_measure (js : list joystick) (n i : nat) (p : Z) : nat :=
  length (held_from js n p) * S n + (n - i).

Equations? get_available_player_loop (js : list joystick) (n i : nat) (p : Z) : Z
  by wf (scan_measure js n i p) lt :=
get_available_player_loop js n i p with decide (i < n) := {
  | right _ := p
  | left Hi with decide (fd (js !!! i) = (-1)%Z) := {
    | left _ := get_available_player_loop js n (S i) p
    | right Hfd with decide (player (js !!! i) = p) := {
      | left Hp := get_available_player_loop js n 1 (p + 1)
      | right _ := get_available_player_loop js n (S i) p } } }.
Proof.
  - unfold scan_measure. lia.
  - remember (player (js !!! i)) as p eqn:Hp.
    unfold scan_measure.
    assert (Hlt : length (held_from js n (p + 1)) < length (held_from js n p)).
    { unfold held_from.
      assert (Hsplit : seq 0 n = seq 0 i ++ i :: seq (S i) (n - S i)).
      { assert (Hn : n = i + S (n - S i)) by lia.
        rewrite Hn at 1. rewrite seq_app. reflexivity. }
      rewrite Hsplit, !filter_app, !filter_cons.
      rewrite decide_False by lia.
      rewrite decide_True by (split; [done | lia]).
      rewrite !length_app. simpl.
      assert (Hmono : ∀ l : list nat,
        length (filter (λ k, fd (js !!! k) ≠ (-1)%Z ∧ (p + 1 ≤ player (js !!! k))%Z) l)
        ≤ length (filter (λ k, fd (js !!! k) ≠ (-1)%Z ∧ (p ≤ player (js !!! k))%Z) l)).
      { induction l as [|a l IH]; [done|].
        rewrite !filter_cons.
        destruct (decide (fd (js !!! a) ≠ (-1)%Z ∧ (p + 1 ≤ player (js !!! a))%Z)) as [[??]|?].
        - rewrite decide_True by (split; [done | lia]). simpl. lia.
        - destruct (decide (fd (js !!! a) ≠ (-1)%Z ∧ (p ≤ player (js !!! a))%Z));
            simpl; lia. }
      pose proof (Hmono (seq 0 i)). pose proof (Hmono (seq (S i) (n - S i))). lia. }
    nia.
  - unfold scan_measure. lia.
Qed.

Definition get_available_player (w : world) : Z :=
  get_available_player_loop (joysticks w) (num_joysticks w) 0 1.

(** ** [open_joystick]

    [ioctl(fd, request, &out)], and [stat(path, &out)] likewise: [-1] and
    [errno] on failure, with [out] untouched; [0] and the answer in [out]
    on success. *)

Definition sys_ioctl {A : Type} (r : sys_reply A) (out : A) (w : world) : Z * A * world :=
  match r with
  | SysErr e => ((-1)%Z, out, set_errno e w)
  | SysOk v => (0%Z, v, w)
  end.

(** [strncpy(joystick->devnode, devnode, sizeof(joystick->devnode))]. *)

Definition strncpy (s : string) (n : nat) : string := String.substring 0 n s.

(** [memset(key_history, '\0', sizeof(key_history))]. *)

Definition zero_history : list Z := replicate KEY_HISTORY_SIZE 0%Z.

(** [st_rdev] is the only field of [*st] that is read.  The [fcntl]
    calls change the status flags of the descriptor, which are not part
    of [world]; only their effect on [errno] is kept. *)

Definition open_joystick (devnode_ : string) (st_rdev : Z) (check_joydev : bool)
    (r : device_reply) (w : world) : result bool :=
  let '(fd_, w) := sys_open (r_open r) w in
  if decide (fd_ = (-1)%Z) then Done false w else
  let '(opt, w) := sys_call (r_getfl r) w in
  let w := if decide (0 ≤ opt)%Z then (sys_ioctl (r_setfl r) tt w).2 else w in
  let '(rc, version, w) := sys_ioctl (r_version r) 0%Z w in
  if check_joydev && bool_decide (rc < 0)%Z then
    let save_errno := errno w in
    Done false (set_errno save_errno (sys_close fd_ w))
  else if check_joydev && bool_decide (version = 0%Z) then
    Done false (set_errno EINVAL w)
  else
  let '(rc, axes_, w) := sys_ioctl (r_axes r) 0%Z w in
  let axes_ := if decide (rc < 0)%Z then 0%Z else axes_ in
  let '(rc, buttons_, w) := sys_ioctl (r_buttons r) 0%Z w in
  let buttons_ := if decide (rc < 0)%Z then 0%Z else buttons_ in
  let '(rc, name_, w) := sys_ioctl (r_name r) EmptyString w in
  let name_ := if decide (rc < 0)%Z then EmptyString else name_ in
  match get_free_joystick w with
  | (None, w) => Done false (set_errno ENOMEM (sys_close fd_ w))
  | (Some i, w) =>
      let player_ := get_available_player w in
      let j := {| fd := fd_;
                  devnode := strncpy devnode_ DEVNODE_SIZE;
                  dev := st_rdev;
                  axes := axes_;
                  buttons := buttons_;
                  name := name_;
                  player := player_;
                  key_state := 0;
                  last_key_idx := KEYPAD_NONE;
                  last_key_val := false;
                  key_history := key_history (slot w i) |} in
      let w := set_slot i j w in
      let n := num_joysticks w in
      if decide (n < MAX_JOYSTICKS)
      then Done true (set_slot n (set_key_history zero_history (slot w n)) w)
      else Abort OutOfBoundsWrite
  end.

(** ** [init_joystick] *)

Definition init_joystick (devnode_ : option string) (st : sys_reply Z)
    (r : device_reply) (w : world) : result unit :=
  match devnode_ with
  | None => Done tt w
  | Some d =>
      let '(rc, st_rdev, w) := sys_ioctl st 0%Z w in
      if decide (rc ≠ 0%Z) then Abort ProcessExit else
      bind (open_joystick d st_rdev false r w) (λ ok w,
        if ok then Done tt w else Abort ProcessExit)
  end.

(** ** [add_udev_device] and [remove_udev_device] *)

Definition add_udev_device (dev_ : option udev_device) (w : world) : result unit :=
  match dev_ with
  | None => Done tt w
  | Some d =>
      match ud_devnode d with
      | None | Some EmptyString => Done tt w
      | Some devnode_ =>
          let '(rc, st_rdev, w) := sys_ioctl (ud_stat d) 0%Z w in
          if decide (rc ≠ 0%Z) then Done tt w else
          match list_find (λ j, fd j ≠ (-1)%Z ∧ dev j = st_rdev)
                          (take (num_joysticks w) (joysticks w)) with
          | Some _ => Done tt w
          | None =>
              bind (open_joystick devnode_ st_rdev true (ud_reply d) w)
                   (λ _ w, Done tt w)
          end
      end
  end.

Definition remove_udev_device (dev_ : option udev_device) (w : world) : world :=
  match dev_ with
  | None => w
  | Some d =>
      match ud_devnode d with
      | None | Some EmptyString => w
      | Some devnode_ =>
          for_loop (num_joysticks w) (λ i w,
            if decide (fd (slot w i) = (-1)%Z) then w
            else if decide (devnode (slot w i) = devnode_)
            then set_slot i (set_fd (-1) (slot w i)) (sys_close (fd (slot w i)) w)
            else w) w
      end
  end.

(** ** [init_udev_hotplug]

    [new_ctx], [new_monitor] and [scan] are what [udev_new],
    [udev_monitor_new_from_netlink] and the enumeration return; an entry
    of the scan is [None] when it has no name or no device. *)

Definition init_udev_hotplug (new_ctx new_monitor : option Z)
    (scan : option (list (option udev_device))) (w : world) : result unit :=
  let w :=
    match udev_ctx w with
    | Some ctx =>
        let w := match udev_monitor w with
                 | Some m => udev_drop m w
                 | None => w
                 end in
        let w := set_udev_monitor None w in
        set_udev_ctx None (udev_drop ctx w)
    | None => w
    end in
  match new_ctx with
  | None => Abort ProcessExit
  | Some ctx =>
      let w := set_udev_ctx (Some ctx) (set_udev_refs (ctx :: udev_refs w) w) in
      let w := match new_monitor with
               | Some m => set_udev_monitor (Some m) (set_udev_refs (m :: udev_refs w) w)
               | None => set_udev_monitor None w
               end in
      match scan with
      | None => Abort ProcessExit
      | Some devices =>
          foldl (λ acc item,
                   bind acc (λ _ w,
                     match item with
                     | Some d => add_udev_device (Some d) w
                     | None => Done tt w
                     end))
                (Done tt w) devices
      end
  end.

(** ** [udev_monitor_poll]

    [pending] is the queue of the monitor socket at the time of the call:
    the loop receives one entry per round ([None] when
    [udev_monitor_receive_device] returns [NULL]) and returns when the
    queue is empty. *)

Definition udev_dispatch (d : udev_device) (w : world) : result unit :=
  match ud_joystick d, ud_action d with
  | Some val, Some action =>
      if decide (val = "1") then
        if decide (action = "add") then add_udev_device (Some d) w
        else if decide (action = "remove") then Done tt (remove_udev_device (Some d) w)
        else if decide (action = "change")
        then add_udev_device (Some d) (remove_udev_device (Some d) w)
        else Done tt w
      else Done tt w
  | _, _ => Done tt w
  end.

Fixpoint udev_monitor_poll_loop (pending : list (option udev_device)) (w : world)
    : result unit :=
  match pending with
  | [] => Done tt w
  | None :: rest => udev_monitor_poll_loop rest w
  | Some d :: rest => bind (udev_dispatch d w) (λ _ w, udev_monitor_poll_loop rest w)
  end.

Definition udev_monitor_poll (pending : list (option udev_device)) (w : world)
    : result unit :=
  match udev_ctx w, udev_monitor w with
  | Some _, Some _ => udev_monitor_poll_loop pending w
  | _, _ => Done tt w
  end.

(** ** [read_joystick] *)

(** The [switch] on the event: what it does to the slot that was read. *)

Definition set_bits (ks k : Z) : Z := Z.lor ks k.
Definition clear_bits (ks k : Z) : Z := Z.land ks (Z.lnot k).

Definition decode_axis (neg pos : Z) (event : js_event) (j : joystick) : joystick :=
  if decide (value event ≤ -1024)%Z then
    set_key_state (clear_bits (set_bits (key_state j) neg) pos)
      (set_last_key neg true j)
  else if decide (value event >= 1024)%Z then
    set_key_state (set_bits (clear_bits (key_state j) neg) pos)
      (set_last_key pos true j)
  else
    let k := if decide (Z.land (key_state j) neg ≠ 0%Z) then neg
             else if decide (Z.land (key_state j) pos ≠ 0%Z) then pos
             else KEYPAD_NONE in
    set_key_state (clear_bits (clear_bits (key_state j) neg) pos)
      (set_last_key k false j).

Definition decode_event (event : js_event) (j : joystick) : joystick :=
  let t := Z.land (type event) (Z.lnot JS_EVENT_INIT) in
  if decide (t = JS_EVENT_BUTTON) then
    let key_idx :=
      if decide (number event = 8%Z) then KEYPAD_SELECT
      else if decide (number event = 9%Z) then KEYPAD_START
      else if decide (number event = 0%Z) then KEYPAD_B
      else if decide (number event = 1%Z) then KEYPAD_A
      else KEYPAD_NONE in
    if decide (key_idx ≠ KEYPAD_NONE) then
      let v := bool_decide (value event ≠ 0%Z) in
      let j := set_last_key key_idx v j in
      if v then set_key_state (set_bits (key_state j) key_idx) j
      else set_key_state (clear_bits (key_state j) key_idx) j
    else set_last_key KEYPAD_NONE false j
  else if decide (t = JS_EVENT_AXIS) then
    if decide (number event = 0%Z) then decode_axis KEYPAD_LEFT KEYPAD_RIGHT event j
    else if decide (number event = 1%Z) then decode_axis KEYPAD_UP KEYPAD_DOWN event j
    else set_last_key KEYPAD_NONE false j
  else set_last_key KEYPAD_NONE false j.

(** [memmove(&h[1], &h[0], sizeof(h) - sizeof(h[0]))]: entries
    [0 .. KEY_HISTORY_SIZE - 2] are copied one place up, entry 0 stays. *)

Definition memmove_up (h : list Z) : list Z :=
  take 1 h ++ take (KEY_HISTORY_SIZE - 1) h.

Definition push_history (j : joystick) : joystick :=
  if bool_decide (last_key_idx j ≠ KEYPAD_NONE) && last_key_val j
  then set_key_history (<[0 := last_key_idx j]> (memmove_up (key_history j))) j
  else j.

(** The scan for the first slot whose descriptor delivers a whole event.
    [reads d] is what [read] answers on descriptor [d] in this call:
    an error, fewer bytes than an event ([SysOk None]), or an event. *)

Fixpoint read_scan (reads : Z → sys_reply (option js_event)) (idx : list nat)
    (w : world) : option (nat * js_event) * world :=
  match idx with
  | [] => (None, w)
  | i :: rest =>
      if decide (fd (slot w i) = (-1)%Z) then read_scan reads rest w
      else match reads (fd (slot w i)) with
           | SysOk (Some event) => (Some (i, event), w)
           | SysOk None => read_scan reads rest w
           | SysErr e => read_scan reads rest (set_errno e w)
           end
  end.

(** The result is [Some i] when the call returns [true] with
    [*joystick_ptr = &joysticks[i]], and [None] when it returns [false]
    (written [NULL] in the source) and leaves [*joystick_ptr] alone. *)

Definition read_joystick (pending : list (option udev_device))
    (reads : Z → sys_reply (option js_event)) (w : world) : result (option nat) :=
  bind (udev_monitor_poll pending w) (λ _ w,
    if decide (num_joysticks w ≤ 0) then Done None w else
    match read_scan reads (seq 0 (num_joysticks w)) w with
    | (None, w) => Done None w
    | (Some (i, event), w) =>
        Done (Some i) (set_slot i (push_history (decode_event event (slot w i))) w)
    end).

(** ** [count_joysticks] *)

Definition count_joysticks (w : world) : Z :=
  foldl (λ cnt i, if decide (fd (slot w i) ≠ (-1)%Z) then (cnt + 1)%Z else cnt)
        0%Z (seq 0 (num_joysticks w)).

(** ** [joystick_is_key_seq]

    [hi] is a [size_t]: for [seq_length_ = 0] it wraps around, and the
    loop body, the only place that reads it, is not entered. *)

Equations? key_seq_loop (h seq_ : list Z) (seq_length_ hi si : nat) : bool
  by wf (seq_length_ - si) lt :=
key_seq_loop h seq_ seq_length_ hi si with decide (si < seq_length_) := {
  | right _ := true
  | left _ with decide (h !!! hi ≠ seq_ !!! si) := {
    | left _ := false
    | right _ := key_seq_loop h seq_ seq_length_ (hi - 1) (S si) } }.
Proof. lia. Qed.

Definition joystick_is_key_seq (joystick_ : option joystick) (seq_ : list Z)
    (seq_length_ : nat) : bool :=
  match joystick_ with
  | None => false
  | Some j =>
      if decide (KEY_HISTORY_SIZE < seq_length_) then false
      else key_seq_loop (key_history j) seq_ seq_length_ (seq_length_ - 1) 0
  end.

(** ** Calls from outside and reachable states *)

Inductive call :=
| Call_input_reset
| Call_get_free_joystick
| Call_open_joystick (devnode_ : string) (st_rdev : Z) (check_joydev : bool)
    (r : device_reply)
| Call_init_joystick (devnode_ : option string) (st : sys_reply Z) (r : device_reply)
| Call_init_udev_hotplug (new_ctx new_monitor : option Z)
    (scan : option (list (option udev_device)))
| Call_read_joystick (pending : list (option udev_device))
    (reads : Z → sys_reply (option js_event)).

Definition state_of {A : Type} (r : result A) : option world :=
  match r with
  | Done _ w => Some w
  | Abort _ => None
  end.

Definition run_call (c : call) (w : world) : option world :=
  match c with
  | Call_input_reset => Some (input_reset w)
  | Call_get_free_joystick => Some (get_free_joystick w).2
  | Call_open_joystick d st chk r => state_of (open_joystick d st chk r w)
  | Call_init_joystick d st r => state_of (init_joystick d st r w)
  | Call_init_udev_hotplug c m s => state_of (init_udev_hotplug c m s w)
  | Call_read_joystick p rd => state_of (read_joystick p rd w)
  end.

Fixpoint run_calls (cs : list call) (w : world) : option world :=
  match cs with
  | [] => Some w
  | c :: rest =>
      match run_call c w with
      | Some w' => run_calls rest w'
      | None => None
      end
  end.

Definition reachable (w : world) : Prop :=
  ∃ cs, run_calls cs initial_world = Some w.

(** ** Vocabulary of the statements *)

(** What [read_joystick] does to the slot it has read [event] from. *)

Definition on_event (event : js_event) (j : joystick) : joystick :=
  push_history (decode_event event j).

(** The slot after [read_joystick] has read the events [es] from it, one
    per call, in that order. *)

Definition on_events (es : list js_event) (j : joystick) : joystick :=
  foldl (λ j e, on_event e j) j es.

(** The keys whose press those reads record, oldest first. *)

Fixpoint presses (es : list js_event) (j : joystick) : list Z :=
  match es with
  | [] => []
  | e :: rest =>
      (if decide (last_key_idx (decode_event e j) ≠ KEYPAD_NONE ∧
                  last_key_val (decode_event e j) = true)
       then [last_key_idx (decode_event e j)] else [])
      ++ presses rest (on_event e j)
  end.

(** The value a query leaves in its variable when failure resets the
    variable to [d]. *)

Definition reply_or {A : Type} (r : sys_reply A) (d : A) : A :=
  match r with
  | SysOk v => v
  | SysErr _ => d
  end.

(** [w'] has the udev handles and references of [w]. *)

Definition same_udev (w w' : world) : Prop :=
  udev_ctx w' = udev_ctx w ∧ udev_monitor w' = udev_monitor w ∧
  udev_refs w' = udev_refs w.

(** A notification that [udev_monitor_poll] receives and drops: no
    device, no [ID_INPUT_JOYSTICK=1], no action, or an action other than
    add, remove and change. *)

Definition ignored_notification (n : option udev_device) : Prop :=
  match n with
  | None => True
  | Some d =>
      ud_joystick d ≠ Some "1" ∨ ud_action d = None ∨
      (ud_action d ≠ Some "add" ∧ ud_action d ≠ Some "remove" ∧
       ud_action d ≠ Some "change")
  end.

(** Slot [i] is counted and holds an open descriptor. *)

Definition active (w : world) (i : nat) : Prop :=
  i < num_joysticks w ∧ fd (slot w i) ≠ (-1)%Z.

(** Player number [p] is held by an active slot. *)

Definition held (w : world) (p : Z) : Prop :=
  ∃ i, active w i ∧ player (slot w i) = p.

(** [p] is the smallest positive integer no active slot holds. *)

Definition least_unused (w : world) (p : Z) : Prop :=
  (0 < p)%Z ∧ ¬ held w p ∧ ∀ q, (0 < q < p)%Z → held w q.

(** [p] is the smallest positive integer no active slot other than [i]
    holds. *)

Definition least_unused_by_others (w : world) (i : nat) (p : Z) : Prop :=
  (0 < p)%Z ∧
  (∀ k, k ≠ i → active w k → player (slot w k) ≠ p) ∧
  ∀ q, (0 < q < p)%Z → ∃ k, k ≠ i ∧ active w k ∧ player (slot w k) = q.

(** [w'] has the static variables of [w]: only [errno], the descriptor
    table and the udev references may differ. *)

Definition same_table (w w' : world) : Prop :=
  joysticks w' = joysticks w ∧ num_joysticks w' = num_joysticks w ∧
  udev_ctx w' = udev_ctx w ∧ udev_monitor w' = udev_monitor w.

(** [w'] is [w] up to the value of [errno]. *)

Definition errno_only (w w' : world) : Prop := w' = set_errno (errno w') w.

(** From [w] to [w'] the counter, the size of the table and the udev
    handles are kept, and every slot either is free in [w'] or has the
    descriptor and the player number it had. *)

Definition released (w w' : world) : Prop :=
  num_joysticks w' = num_joysticks w ∧
  length (joysticks w') = length (joysticks w) ∧
  udev_ctx w' = udev_ctx w ∧ udev_monitor w' = udev_monitor w ∧
  ∀ i, fd (slot w' i) = (-1)%Z ∨
       (fd (slot w' i) = fd (slot w i) ∧ player (slot w' i) = player (slot w i)).

(** [P] holds of the state a call returns in, if it returns. *)

Definition on_return {A : Type} (P : world → Prop) (r : result A) : Prop :=
  match r with
  | Done _ w => P w
  | Abort _ => True
  end.

(** The table has its declared size and the counter stays inside it. *)

Definition table_ok (w : world) : Prop :=
  length (joysticks w) = MAX_JOYSTICKS ∧ num_joysticks w ≤ MAX_JOYSTICKS.

(** Among active slots, player 1 is held by slot 0 and by no other. *)

Definition first_player_ok (w : world) : Prop :=
  ∀ i, active w i → (player (slot w i) = 1%Z ↔ i = 0).

Definition players_distinct (w : world) : Prop :=
  ∀ i k, active w i → active w k → player (slot w i) = player (slot w k) → i = k.

Definition players_positive (w : world) : Prop :=
  ∀ i, active w i → (0 < player (slot w i))%Z.

(** No slot is active or fewer than [MAX_JOYSTICKS] are, and the active
    slots hold numbers below [MAX_JOYSTICKS]. *)


(** A monitor exists only inside a udev context. *)

Definition udev_ok (w : world) : Prop :=
  udev_monitor w ≠ None → udev_ctx w ≠ None.

Record invariant (w : world) : Prop := {
  inv_table : table_ok w;
  inv_first : first_player_ok w;
  inv_distinct : players_distinct w;
  inv_positive : players_positive w;
  inv_udev : udev_ok w
}.

End input_c.

(** ** A concrete header and concrete runs

    An instance of the constants, with one bit per key, and a few runs
    of the program on it, on which the general statements are applied. *)

Definition example_h : matelight_h :=
  {| MAX_JOYSTICKS := 4; KEY_HISTORY_SIZE := 4; DEVNODE_SIZE := 128;
     KEYPAD_NONE := 0; KEYPAD_UP := 1; KEYPAD_DOWN := 2; KEYPAD_LEFT := 4;
     KEYPAD_RIGHT := 8; KEYPAD_A := 16; KEYPAD_B := 32; KEYPAD_SELECT := 64;
     KEYPAD_START := 128 |}.

Section example_runs.
#[local] Existing Instance example_h.

(** A joystick node that [open] answers with descriptor [d] and whose
    version probe answers [version]. *)

Definition pad_reply (d version : Z) : device_reply :=
  {| r_open := SysOk d; r_getfl := SysOk 0%Z; r_setfl := SysOk tt;
     r_version := SysOk version; r_axes := SysOk 2%Z; r_buttons := SysOk 10%Z;
     r_name := SysOk "pad" |}.

(** The udev notification of [action] for the joystick node [node] with
    device number [rdev]. *)

Definition notification (action node : string) (rdev d : Z) : option udev_device :=
  Some {| ud_devnode := Some node; ud_joystick := Some "1";
          ud_action := Some action; ud_stat := SysOk rdev;
          ud_reply := pad_reply d 1 |}.

(** No descriptor has data ([EAGAIN]); only descriptor [d] has event [e]. *)

Definition no_input : Z → sys_reply (option js_event) := λ _, SysErr 11%Z.

Definition input_on (d : Z) (e : js_event) : Z → sys_reply (option js_event) :=
  λ x, if decide (x = d) then SysOk (Some e) else SysErr 11%Z.

Definition press_A : js_event := {| value := 1; type := JS_EVENT_BUTTON; number := 1 |}.

Definition state_after (cs : list call) : world :=
  default initial_world (run_calls cs initial_world).

(** Hotplug initialised, then [/dev/input/js0] opened at start-up. *)

Definition one_pad_calls : list call :=
  [ Call_init_udev_hotplug (Some 100%Z) (Some 101%Z) (Some []);
    Call_init_joystick (Some "/dev/input/js0") (SysOk 1%Z) (pad_reply 3 1) ].

Definition one_pad : world := Eval vm_compute in state_after one_pad_calls.

(** Two pads opened, then the first one unplugged. *)

Definition removal_calls : list call :=
  one_pad_calls ++
  [ Call_init_joystick (Some "/dev/input/js1") (SysOk 2%Z) (pad_reply 4 1);
    Call_read_joystick [notification "remove" "/dev/input/js0" 1 3] no_input ].

Definition after_removal : world := Eval vm_compute in state_after removal_calls.

(** One pad, button A pressed on it, then the pad unplugged: slot 0 is
    free and still carries the press in its history. *)

Definition stale_calls : list call :=
  one_pad_calls ++
  [ Call_read_joystick [] (input_on 3 press_A);
    Call_read_joystick [notification "remove" "/dev/input/js0" 1 3] no_input ].

Definition stale_slot : world := Eval vm_compute in state_after stale_calls.

(** The state after the pad is plugged in again from [stale_slot]. *)

Definition returned_state {A : Type} (r : result A) (otherwise : world) : world :=
  match r with
  | Done _ w => w
  | Abort _ => otherwise
  end.

Definition replugged : world := Eval vm_compute in
  returned_state (open_joystick "/dev/input/js0" 1 true (pad_reply 5 1) stale_slot)
                 stale_slot.

(** A table that no run produces: slot 0 holds player 2, slot 1 player 1. *)

Definition swapped_players : world :=
  set_num_joysticks 2
    (set_slot 1 {| fd := 4; devnode := "/dev/input/js1"; dev := 2; axes := 2;
                   buttons := 10; name := "pad"; player := 1; key_state := 0;
                   last_key_idx := 0; last_key_val := false;
                   key_history := [0; 0; 0; 0]%Z |}
    (set_slot 0 {| fd := 3; devnode := "/dev/input/js0"; dev := 1; axes := 2;
                   buttons := 10; name := "pad"; player := 2; key_state := 0;
                   last_key_idx := 0; last_key_val := false;
                   key_history := [0; 0; 0; 0]%Z |}
       initial_world)).

(** More events and devices for the runs below. *)

Definition press_B : js_event := {| value := 1; type := JS_EVENT_BUTTON; number := 0 |}.

Definition release_A : js_event := {| value := 0; type := JS_EVENT_BUTTON; number := 1 |}.

Definition push_LEFT : js_event :=
  {| value := -1200; type := JS_EVENT_AXIS; number := 0 |}.

Definition button_5 : js_event := {| value := 1; type := JS_EVENT_BUTTON; number := 5 |}.

Definition unplug (node : string) : udev_device :=
  {| ud_devnode := Some node; ud_joystick := Some "1"; ud_action := Some "remove";
     ud_stat := SysOk 0%Z; ud_reply := pad_reply 0 1 |}.

(** A node that opens but is not a joystick: its probe answers version 0. *)

Definition not_a_joystick : udev_device :=
  {| ud_devnode := Some "/dev/input/event5"; ud_joystick := Some "1";
     ud_action := Some "add"; ud_stat := SysOk 9%Z; ud_reply := pad_reply 6 0 |}.

(** A notification for a device that is not tagged as a joystick. *)

Definition keyboard_added : udev_device :=
  {| ud_devnode := Some "/dev/input/event2"; ud_joystick := None;
     ud_action := Some "add"; ud_stat := SysOk 8%Z; ud_reply := pad_reply 7 1 |}.

(** A node that cannot be opened ([ENOENT]). *)

Definition missing_reply : device_reply :=
  {| r_open := SysErr 2%Z; r_getfl := SysOk 0%Z; r_setfl := SysOk tt;
     r_version := SysOk 1%Z; r_axes := SysOk 2%Z; r_buttons := SysOk 10%Z;
     r_name := SysOk "pad" |}.

(** A pad that answers [open] but none of the queries. *)


(** [one_pad] with a second, then a third pad opened through hotplug. *)

Definition two_pads : world := Eval vm_compute in
  returned_state (open_joystick "/dev/input/js1" 2 true (pad_reply 4 1) one_pad)
                 one_pad.

Definition two_pads_calls : list call :=
  one_pad_calls ++ [ Call_open_joystick "/dev/input/js1" 2 true (pad_reply 4 1) ].

Definition three_pads : world := Eval vm_compute in
  returned_state (open_joystick "/dev/input/js2" 3 true (pad_reply 5 1) two_pads)
                 two_pads.

(** [one_pad] reset, then a pad opened. *)

Definition reopened : world := Eval vm_compute in
  returned_state
    (open_joystick "/dev/input/js4" 4 true (pad_reply 8 1) (input_reset one_pad))
    one_pad.

End example_runs.

(** * Properties *)

Section event_decoder.
Context `{matelight_h}.

Lemma key_seq_loop_spec (h seq_ : list Z) (L hi si : nat) :
  hi = L - 1 - si →
  key_seq_loop h seq_ L hi si = true ↔
  ∀ k, si ≤ k < L → h !!! (L - 1 - k) = seq_ !!! k.
Proof.
  funelim (key_seq_loop h seq_ L hi si); intros Hhi.
  - split; [intros _ k ?; lia | done].
  - split; [done | intros Hall].
    exfalso. match goal with Hne : _ ≠ _ |- _ => apply Hne end.
    subst hi. apply Hall. lia.
  - match goal with IH : _ → _ ↔ _ |- _ => rewrite IH by lia end.
    split; intros Hall k Hk.
    + destruct (decide (k = si)) as [->|]; [|apply Hall; lia].
      subst hi. by apply dec_stable.
    + apply Hall. lia.
Qed.

Lemma slot_set_slot_eq (w : world) (i : nat) (j : joystick) :
  i < length (joysticks w) → slot (set_slot i j w) i = j.
Proof. intros Hi. unfold slot, set_slot. simpl. by apply list_lookup_total_insert_eq. Qed.

Lemma slot_set_slot_ne (w : world) (i k : nat) (j : joystick) :
  i ≠ k → slot (set_slot i j w) k = slot w k.
Proof. intros Hi. unfold slot, set_slot. simpl. by apply list_lookup_total_insert_ne. Qed.

Lemma decode_axis_key_history neg pos e j :
  key_history (decode_axis neg pos e j) = key_history j.
Proof. unfold decode_axis. repeat case_decide; reflexivity. Qed.

Lemma decode_event_key_history e j :
  key_history (decode_event e j) = key_history j.
Proof.
  unfold decode_event.
  repeat case_decide; try apply decode_axis_key_history; try reflexivity;
    destruct (bool_decide (value e ≠ 0%Z)); reflexivity.
Qed.

Lemma pushed_history (h : list Z) (k : Z) :
  length h = KEY_HISTORY_SIZE → 0 < KEY_HISTORY_SIZE →
  <[0 := k]> (memmove_up h) = k :: take (KEY_HISTORY_SIZE - 1) h.
Proof.
  intros Hlen Hpos. unfold memmove_up.
  destruct h as [|x h]; [simpl in Hlen; lia | reflexivity].
Qed.

Lemma push_history_pressed (j : joystick) :
  length (key_history j) = KEY_HISTORY_SIZE → 0 < KEY_HISTORY_SIZE →
  last_key_idx j ≠ KEYPAD_NONE → last_key_val j = true →
  key_history (push_history j)
  = last_key_idx j :: take (KEY_HISTORY_SIZE - 1) (key_history j).
Proof.
  intros Hlen Hpos Hk Hv. unfold push_history.
  rewrite bool_decide_eq_true_2, Hv by done. simpl.
  by apply pushed_history.
Qed.

Lemma push_history_last_key (j : joystick) :
  last_key_idx (push_history j) = last_key_idx j ∧
  last_key_val (push_history j) = last_key_val j ∧
  key_state (push_history j) = key_state j.
Proof. unfold push_history. by destruct (_ && _). Qed.

Lemma push_history_length (j : joystick) :
  length (key_history j) = KEY_HISTORY_SIZE →
  length (key_history (push_history j)) = KEY_HISTORY_SIZE.
Proof.
  intros Hlen. unfold push_history. destruct (_ && _); [|done]. simpl.
  rewrite length_insert. unfold memmove_up.
  rewrite length_app, !length_take. lia.
Qed.

Lemma on_event_length (e : js_event) (j : joystick) :
  length (key_history j) = KEY_HISTORY_SIZE →
  length (key_history (on_event e j)) = KEY_HISTORY_SIZE.
Proof.
  intros Hlen. unfold on_event. apply push_history_length.
  by rewrite decode_event_key_history.
Qed.

Lemma on_event_pressed (e : js_event) (j : joystick) :
  length (key_history j) = KEY_HISTORY_SIZE → 0 < KEY_HISTORY_SIZE →
  last_key_idx (decode_event e j) ≠ KEYPAD_NONE →
  last_key_val (decode_event e j) = true →
  key_history (on_event e j)
  = last_key_idx (decode_event e j) :: take (KEY_HISTORY_SIZE - 1) (key_history j).
Proof.
  intros Hlen Hpos Hk Hv. unfold on_event.
  rewrite push_history_pressed by (rewrite ?decode_event_key_history; done).
  by rewrite decode_event_key_history.
Qed.

(** The slot that [read_joystick] reports is the slot it read, after
    [on_event]. *)

Lemma read_joystick_slot pending reads (w w1 w2 : world) (i : nat) (event : js_event) :
  udev_monitor_poll pending w = Done tt w1 →
  read_scan reads (seq 0 (num_joysticks w1)) w1 = (Some (i, event), w2) →
  i < length (joysticks w2) →
  ∃ w', read_joystick pending reads w = Done (Some i) w' ∧
        slot w' i = on_event event (slot w2 i) ∧
        ∀ k, k ≠ i → slot w' k = slot w2 k.
Proof.
  intros Hpoll Hscan Hi. unfold read_joystick. rewrite Hpoll. simpl.
  destruct (decide (num_joysticks w1 ≤ 0)) as [Hz|_].
  { replace (num_joysticks w1) with 0 in Hscan by lia. discriminate. }
  rewrite Hscan. eexists. split; [reflexivity|]. split.
  - by apply slot_set_slot_eq.
  - intros k Hk. by apply slot_set_slot_ne.
Qed.

(** C6. When [read_joystick] has decoded an event on a slot: if the
    decoded last key is a press of a key other than [KEYPAD_NONE], the key
    is at history index 0, every older entry has moved one index up and
    the entry at the highest index is gone; in every other case (a release
    or [KEYPAD_NONE]) the history is exactly what it was. *)

Theorem read_joystick_history pending reads (w w1 w2 : world) (i : nat)
    (event : js_event) :
  udev_monitor_poll pending w = Done tt w1 →
  read_scan reads (seq 0 (num_joysticks w1)) w1 = (Some (i, event), w2) →
  i < length (joysticks w2) →
  length (key_history (slot w2 i)) = KEY_HISTORY_SIZE →
  0 < KEY_HISTORY_SIZE →
  ∃ w', read_joystick pending reads w = Done (Some i) w' ∧
    let old := key_history (slot w2 i) in
    let new := key_history (slot w' i) in
    let pressed := last_key_val (slot w' i) = true ∧
                   last_key_idx (slot w' i) ≠ KEYPAD_NONE in
    (pressed →
       new !! 0 = Some (last_key_idx (slot w' i)) ∧
       (∀ k, S k < KEY_HISTORY_SIZE → new !! S k = old !! k) ∧
       length new = KEY_HISTORY_SIZE) ∧
    (¬ pressed → new = old).
Proof.
  intros Hpoll Hscan Hi Hlen Hpos.
  destruct (read_joystick_slot _ _ _ _ _ _ _ Hpoll Hscan Hi) as (w' & Hrd & Hslot & _).
  exists w'. split; [done|]. simpl. rewrite Hslot. unfold on_event.
  destruct (push_history_last_key (decode_event event (slot w2 i))) as (-> & -> & _).
  pose proof (decode_event_key_history event (slot w2 i)) as Hh.
  split.
  - intros [Hv Hk]. rewrite push_history_pressed by (rewrite ?Hh; done).
    rewrite Hh. split; [done|]. split.
    + intros k Hk'. simpl. rewrite lookup_take_lt by lia. done.
    + simpl. rewrite length_take. lia.
  - intros Hnot. unfold push_history.
    destruct (bool_decide _ && _) eqn:Hb; [|done].
    apply andb_true_iff in Hb as [Hk%bool_decide_eq_true Hv].
    exfalso. apply Hnot. done.
Qed.

(** C5. [joystick_is_key_seq] on a sequence of length [L] given oldest
    first: within the capacity it answers [true] exactly when
    [history[L-1-k] = seq[k]] for every [k < L]; beyond the capacity it
    answers [false]; and after presses of A, then B, then LEFT it accepts
    [A,B,LEFT] and rejects [B,A,LEFT]. *)

Theorem joystick_is_key_seq_matches (j : joystick) (seq_ : list Z) :
  length (key_history j) = KEY_HISTORY_SIZE →
  (length seq_ ≤ KEY_HISTORY_SIZE →
     joystick_is_key_seq (Some j) seq_ (length seq_) = true ↔
     ∀ k, k < length seq_ → key_history j !! (length seq_ - 1 - k) = seq_ !! k) ∧
  (KEY_HISTORY_SIZE < length seq_ →
     joystick_is_key_seq (Some j) seq_ (length seq_) = false) ∧
  (3 ≤ KEY_HISTORY_SIZE →
   KEYPAD_A ≠ KEYPAD_NONE → KEYPAD_B ≠ KEYPAD_NONE → KEYPAD_LEFT ≠ KEYPAD_NONE →
   KEYPAD_A ≠ KEYPAD_B →
   let press_A := {| value := 1; type := JS_EVENT_BUTTON; number := 1 |} in
   let press_B := {| value := 1; type := JS_EVENT_BUTTON; number := 0 |} in
   let push_LEFT := {| value := -1200; type := JS_EVENT_AXIS; number := 0 |} in
   let j3 := on_event push_LEFT (on_event press_B (on_event press_A j)) in
   joystick_is_key_seq (Some j3) [KEYPAD_A; KEYPAD_B; KEYPAD_LEFT] 3 = true ∧
   joystick_is_key_seq (Some j3) [KEYPAD_B; KEYPAD_A; KEYPAD_LEFT] 3 = false).
Proof.
  intros Hlen.
  assert (Hspec : ∀ (j' : joystick) (s : list Z),
    length (key_history j') = KEY_HISTORY_SIZE → length s ≤ KEY_HISTORY_SIZE →
    joystick_is_key_seq (Some j') s (length s) = true ↔
    ∀ k, k < length s → key_history j' !! (length s - 1 - k) = s !! k).
  { intros j' s Hl HL. unfold joystick_is_key_seq.
    rewrite decide_False by lia.
    rewrite key_seq_loop_spec by lia.
    split; intros Hall k Hk.
    - rewrite (list_lookup_lookup_total_lt (key_history j')) by lia.
      rewrite (list_lookup_lookup_total_lt s) by lia.
      f_equal. apply Hall. lia.
    - specialize (Hall k ltac:(lia)).
      rewrite (list_lookup_lookup_total_lt (key_history j')) in Hall by lia.
      rewrite (list_lookup_lookup_total_lt s) in Hall by lia.
      congruence. }
  split; [by apply Hspec|]. split.
  - intros HL. unfold joystick_is_key_seq. by rewrite decide_True.
  - intros H3 HA HB HLEFT HAB press_A press_B push_LEFT j3.
    set (j1 := on_event press_A j). set (j2 := on_event press_B j1).
    assert (HdA : last_key_idx (decode_event press_A j) = KEYPAD_A
                  ∧ last_key_val (decode_event press_A j) = true).
    { unfold decode_event. simpl. rewrite !decide_True by done. done. }
    assert (HdB : last_key_idx (decode_event press_B j1) = KEYPAD_B
                  ∧ last_key_val (decode_event press_B j1) = true).
    { unfold decode_event. simpl. rewrite !decide_True by done. done. }
    assert (HdL : last_key_idx (decode_event push_LEFT j2) = KEYPAD_LEFT
                  ∧ last_key_val (decode_event push_LEFT j2) = true).
    { unfold decode_event. simpl. done. }
    destruct HdA as [HA1 HA2], HdB as [HB1 HB2], HdL as [HL1 HL2].
    assert (Hl1 : length (key_history j1) = KEY_HISTORY_SIZE)
      by by apply on_event_length.
    assert (Hl2 : length (key_history j2) = KEY_HISTORY_SIZE)
      by by apply on_event_length.
    assert (Hl3 : length (key_history j3) = KEY_HISTORY_SIZE)
      by by apply on_event_length.
    assert (H1 : key_history j1 = KEYPAD_A :: take (KEY_HISTORY_SIZE - 1) (key_history j)).
    { unfold j1. rewrite on_event_pressed, HA1; try done; try lia. }
    assert (H2 : key_history j2 = KEYPAD_B :: take (KEY_HISTORY_SIZE - 1) (key_history j1)).
    { unfold j2. rewrite on_event_pressed, HB1; try done; try lia. }
    assert (H3' : key_history j3
                  = KEYPAD_LEFT :: take (KEY_HISTORY_SIZE - 1) (key_history j2)).
    { unfold j3. fold j1. fold j2.
      rewrite on_event_pressed, HL1; try done; try lia. }
    assert (Hh : ∃ rest, key_history j3 = KEYPAD_LEFT :: KEYPAD_B :: KEYPAD_A :: rest).
    { rewrite H3', H2, H1.
      destruct KEY_HISTORY_SIZE as [|[|[|n]]]; try lia. simpl. eauto. }
    destruct Hh as [rest Hh].
    split.
    + apply (Hspec j3 [KEYPAD_A; KEYPAD_B; KEYPAD_LEFT]); [done | simpl; lia |].
      intros k Hk. rewrite Hh. simpl in *.
      destruct k as [|[|[|k]]]; try lia; reflexivity.
    + apply not_true_is_false. intros Htrue.
      pose proof (Hspec j3 [KEYPAD_B; KEYPAD_A; KEYPAD_LEFT] Hl3 ltac:(simpl; lia))
        as [Hall _].
      specialize (Hall Htrue 0 ltac:(simpl; lia)) as Htrue'. clear Htrue.
      rename Htrue' into Htrue. rewrite Hh in Htrue. simpl in Htrue.
      congruence.
Qed.

(** Bit-level facts about the two mask operations. *)

Ltac testbits :=
  repeat first [ rewrite Z.land_spec | rewrite Z.lor_spec
               | rewrite Z.lnot_spec by lia | rewrite Z.bits_0 ].

Lemma land_set_clear (ks a b : Z) :
  Z.land a b = 0%Z →
  Z.land (clear_bits (set_bits ks a) b) a = a ∧
  Z.land (clear_bits (set_bits ks a) b) b = 0%Z.
Proof.
  intros Hab. unfold clear_bits, set_bits.
  split; apply Z.bits_inj'; intros n Hn;
    pose proof (f_equal (λ z, Z.testbit z n) Hab) as Hbit; simpl in Hbit;
    rewrite Z.land_spec, Z.bits_0 in Hbit;
    testbits;
    destruct (Z.testbit ks n), (Z.testbit a n), (Z.testbit b n);
    simpl in *; congruence.
Qed.

Lemma land_clear_set (ks a b : Z) :
  Z.land a b = 0%Z →
  Z.land (set_bits (clear_bits ks a) b) b = b ∧
  Z.land (set_bits (clear_bits ks a) b) a = 0%Z.
Proof.
  intros Hab. unfold clear_bits, set_bits.
  split; apply Z.bits_inj'; intros n Hn;
    pose proof (f_equal (λ z, Z.testbit z n) Hab) as Hbit; simpl in Hbit;
    rewrite Z.land_spec, Z.bits_0 in Hbit;
    testbits;
    destruct (Z.testbit ks n), (Z.testbit a n), (Z.testbit b n);
    simpl in *; congruence.
Qed.

Lemma land_clear_clear (ks a b : Z) :
  Z.land (clear_bits (clear_bits ks a) b) a = 0%Z ∧
  Z.land (clear_bits (clear_bits ks a) b) b = 0%Z.
Proof.
  unfold clear_bits.
  split; apply Z.bits_inj'; intros n Hn;
    testbits;
    destruct (Z.testbit ks n), (Z.testbit a n), (Z.testbit b n);
    simpl in *; congruence.
Qed.

Lemma decode_event_axis (axis neg pos : Z) (e : js_event) (j : joystick) :
  (axis = 0%Z ∧ neg = KEYPAD_LEFT ∧ pos = KEYPAD_RIGHT) ∨
  (axis = 1%Z ∧ neg = KEYPAD_UP ∧ pos = KEYPAD_DOWN) →
  Z.land (type e) (Z.lnot JS_EVENT_INIT) = JS_EVENT_AXIS →
  number e = axis →
  decode_event e j = decode_axis neg pos e j.
Proof.
  intros Haxis Ht Hn. unfold decode_event. rewrite Ht.
  rewrite decide_False by done. rewrite decide_True by done.
  destruct Haxis as [(-> & -> & ->)|(-> & -> & ->)]; rewrite Hn.
  - by rewrite decide_True.
  - rewrite decide_False by done. by rewrite decide_True.
Qed.

(** C4. On axis 0 (LEFT/RIGHT) and in the same way on axis 1 (UP/DOWN):
    a value at or below -1024 sets the negative key, clears the positive
    one and records a press of the negative key; a value at or above
    +1024 does the converse; a value strictly between records a release
    of the key that was set, the negative one checked first, or
    [KEYPAD_NONE] if neither was, and clears both; so the dead zone right
    after a negative push reports the release of the negative key. *)

Theorem read_joystick_axis_dead_zone (axis neg pos : Z) (j : joystick) :
  (axis = 0%Z ∧ neg = KEYPAD_LEFT ∧ pos = KEYPAD_RIGHT) ∨
  (axis = 1%Z ∧ neg = KEYPAD_UP ∧ pos = KEYPAD_DOWN) →
  Z.land neg pos = 0%Z → neg ≠ 0%Z →
  ∀ e : js_event,
    Z.land (type e) (Z.lnot JS_EVENT_INIT) = JS_EVENT_AXIS → number e = axis →
    let j' := on_event e j in
    ((value e ≤ -1024)%Z →
       last_key_idx j' = neg ∧ last_key_val j' = true ∧
       Z.land (key_state j') neg = neg ∧ Z.land (key_state j') pos = 0%Z) ∧
    ((1024 ≤ value e)%Z →
       last_key_idx j' = pos ∧ last_key_val j' = true ∧
       Z.land (key_state j') pos = pos ∧ Z.land (key_state j') neg = 0%Z) ∧
    ((-1024 < value e < 1024)%Z →
       last_key_idx j' = (if decide (Z.land (key_state j) neg ≠ 0%Z) then neg
                          else if decide (Z.land (key_state j) pos ≠ 0%Z) then pos
                          else KEYPAD_NONE) ∧
       last_key_val j' = false ∧
       Z.land (key_state j') neg = 0%Z ∧ Z.land (key_state j') pos = 0%Z) ∧
    ((value e ≤ -1024)%Z →
       ∀ e2 : js_event,
         Z.land (type e2) (Z.lnot JS_EVENT_INIT) = JS_EVENT_AXIS → number e2 = axis →
         (-1024 < value e2 < 1024)%Z →
         let j'' := on_event e2 j' in
         last_key_idx j'' = neg ∧ last_key_val j'' = false ∧
         Z.land (key_state j'') neg = 0%Z ∧ Z.land (key_state j'') pos = 0%Z).
Proof.
  intros Haxis Hdisj Hneg.
  assert (Hlow : ∀ (e : js_event) (j0 : joystick),
    Z.land (type e) (Z.lnot JS_EVENT_INIT) = JS_EVENT_AXIS → number e = axis →
    (value e ≤ -1024)%Z →
    last_key_idx (on_event e j0) = neg ∧ last_key_val (on_event e j0) = true ∧
    Z.land (key_state (on_event e j0)) neg = neg ∧
    Z.land (key_state (on_event e j0)) pos = 0%Z).
  { intros e j0 Ht Hn Hv. unfold on_event.
    destruct (push_history_last_key (decode_event e j0)) as (-> & -> & ->).
    rewrite (decode_event_axis axis neg pos) by done.
    unfold decode_axis. rewrite decide_True by done. simpl.
    destruct (land_set_clear (key_state j0) neg pos Hdisj). done. }
  assert (Hdead : ∀ (e : js_event) (j0 : joystick),
    Z.land (type e) (Z.lnot JS_EVENT_INIT) = JS_EVENT_AXIS → number e = axis →
    (-1024 < value e < 1024)%Z →
    last_key_idx (on_event e j0)
    = (if decide (Z.land (key_state j0) neg ≠ 0%Z) then neg
       else if decide (Z.land (key_state j0) pos ≠ 0%Z) then pos
       else KEYPAD_NONE) ∧
    last_key_val (on_event e j0) = false ∧
    Z.land (key_state (on_event e j0)) neg = 0%Z ∧
    Z.land (key_state (on_event e j0)) pos = 0%Z).
  { intros e j0 Ht Hn Hv. unfold on_event.
    destruct (push_history_last_key (decode_event e j0)) as (-> & -> & ->).
    rewrite (decode_event_axis axis neg pos) by done.
    unfold decode_axis. rewrite decide_False by lia. rewrite decide_False by lia.
    simpl. destruct (land_clear_clear (key_state j0) neg pos). done. }
  intros e Ht Hn j'. split; [by apply Hlow|]. split; [|split; [by apply Hdead|]].
  - intros Hv. unfold j', on_event.
    destruct (push_history_last_key (decode_event e j)) as (-> & -> & ->).
    rewrite (decode_event_axis axis neg pos) by done.
    unfold decode_axis. rewrite decide_False by lia. rewrite decide_True by lia.
    simpl. destruct (land_clear_set (key_state j) neg pos Hdisj). done.
  - intros Hv e2 Ht2 Hn2 Hv2 j''.
    destruct (Hlow e j Ht Hn Hv) as (_ & _ & Hset & _).
    destruct (Hdead e2 j' Ht2 Hn2 Hv2) as (Hk & Hrest).
    split; [|done]. unfold j''. rewrite Hk. fold j' in Hset.
    rewrite decide_True; [done|]. by rewrite Hset.
Qed.

End event_decoder.

Section registry.
Context `{matelight_h}.

Lemma same_table_refl w : same_table w w.
Proof. by unfold same_table. Qed.

Lemma same_table_trans w1 w2 w3 :
  same_table w1 w2 → same_table w2 w3 → same_table w1 w3.
Proof. unfold same_table. intros (? & ? & ? & ?) (? & ? & ? & ?). split_and!; congruence. Qed.

Lemma same_table_set_errno e w : same_table w (set_errno e w).
Proof. by unfold same_table. Qed.

Lemma same_table_sys_close d w : same_table w (sys_close d w).
Proof. unfold same_table, sys_close. by case_decide. Qed.

Lemma same_table_sys_open r w d w' : sys_open r w = (d, w') → same_table w w'.
Proof. unfold same_table. destruct r; intros [= <- <-]; done. Qed.

Lemma same_table_sys_call r w v w' : sys_call r w = (v, w') → same_table w w'.
Proof. unfold same_table. destruct r; intros [= <- <-]; done. Qed.

Lemma same_table_sys_ioctl {A} (r : sys_reply A) out w rc v w' :
  sys_ioctl r out w = (rc, v, w') → same_table w w'.
Proof. unfold same_table. destruct r; intros [= <- <- <-]; done. Qed.

Lemma open_fds_sys_call r w v w' : sys_call r w = (v, w') → open_fds w' = open_fds w.
Proof. destruct r; intros [= <- <-]; done. Qed.

Lemma open_fds_sys_ioctl {A} (r : sys_reply A) out w rc v w' :
  sys_ioctl r out w = (rc, v, w') → open_fds w' = open_fds w.
Proof. destruct r; intros [= <- <- <-]; done. Qed.

Lemma sys_close_closed d w : d ∉ open_fds (sys_close d w).
Proof.
  unfold sys_close. case_decide; [|done]. simpl.
  rewrite list_elem_of_filter. intros [Hne _]. by apply Hne.
Qed.

Lemma sys_close_subseteq d w x : x ∈ open_fds (sys_close d w) → x ∈ open_fds w.
Proof.
  unfold sys_close. case_decide; [|done]. simpl.
  rewrite list_elem_of_filter. by intros [_ Hin].
Qed.

Lemma errno_only_refl w : errno_only w w.
Proof. unfold errno_only. by destruct w. Qed.

Lemma errno_only_trans w1 w2 w3 :
  errno_only w1 w2 → errno_only w2 w3 → errno_only w1 w3.
Proof. unfold errno_only. intros -> ->. done. Qed.

Lemma errno_only_set_errno e w : errno_only w (set_errno e w).
Proof. done. Qed.

Lemma errno_only_sys_call r w v w' : sys_call r w = (v, w') → errno_only w w'.
Proof.
  destruct r; intros [= _ <-]; [apply errno_only_set_errno | apply errno_only_refl].
Qed.

Lemma errno_only_sys_ioctl {A} (r : sys_reply A) out w rc v w' :
  sys_ioctl r out w = (rc, v, w') → errno_only w w'.
Proof.
  destruct r; intros [= _ _ <-]; [apply errno_only_set_errno | apply errno_only_refl].
Qed.

Lemma errno_only_same_table w w' : errno_only w w' → same_table w w'.
Proof. intros ->. done. Qed.

Lemma errno_only_open_fds w w' : errno_only w w' → open_fds w' = open_fds w.
Proof. intros ->. done. Qed.

(** [open_joystick] in stages: the [open], the version probe, and the
    allocation, with the system calls in between reduced to what they
    change. *)

Lemma open_joystick_stages (devnode_ : string) (st_rdev : Z) (check_joydev : bool)
    (r : device_reply) (w : world) :
  ∃ fd_ w1, sys_open (r_open r) w = (fd_, w1) ∧
    (fd_ = (-1)%Z → open_joystick devnode_ st_rdev check_joydev r w = Done false w1) ∧
    (fd_ ≠ (-1)%Z →
     ∃ w3 rc version w4,
       errno_only w1 w3 ∧ sys_ioctl (r_version r) 0%Z w3 = (rc, version, w4) ∧
       if check_joydev && bool_decide (rc < 0)%Z then
         open_joystick devnode_ st_rdev check_joydev r w
         = Done false (set_errno (errno w4) (sys_close fd_ w4))
       else if check_joydev && bool_decide (version = 0%Z) then
         open_joystick devnode_ st_rdev check_joydev r w
         = Done false (set_errno EINVAL w4)
       else
         ∃ axes_ buttons_ name_ w7, errno_only w4 w7 ∧
           open_joystick devnode_ st_rdev check_joydev r w =
           match get_free_joystick w7 with
           | (None, w8) => Done false (set_errno ENOMEM (sys_close fd_ w8))
           | (Some i, w8) =>
               let j := {| fd := fd_;
                           devnode := strncpy devnode_ DEVNODE_SIZE;
                           dev := st_rdev;
                           axes := axes_;
                           buttons := buttons_;
                           name := name_;
                           player := get_available_player w8;
                           key_state := 0;
                           last_key_idx := KEYPAD_NONE;
                           last_key_val := false;
                           key_history := key_history (slot w8 i) |} in
               let w9 := set_slot i j w8 in
               if decide (num_joysticks w9 < MAX_JOYSTICKS)
               then Done true (set_slot (num_joysticks w9)
                      (set_key_history zero_history (slot w9 (num_joysticks w9))) w9)
               else Abort OutOfBoundsWrite
           end).
Proof.
  unfold open_joystick.
  destruct (sys_open (r_open r) w) as [fd_ w1] eqn:Hopen.
  exists fd_, w1. split; [done|]. split.
  { intros ->. by rewrite decide_True. }
  intros Hfd. rewrite decide_False by done.
  destruct (sys_call (r_getfl r) w1) as [opt w2] eqn:Hgetfl.
  apply errno_only_sys_call in Hgetfl.
  set (w3 := if decide (0 ≤ opt)%Z then _ else w2).
  assert (H3 : errno_only w1 w3).
  { unfold w3. case_decide; [|done].
    destruct (sys_ioctl (r_setfl r) () w2) as [[rc0 u] w2'] eqn:Hsetfl.
    apply errno_only_sys_ioctl in Hsetfl. simpl.
    by eapply errno_only_trans. }
  clearbody w3.
  destruct (sys_ioctl (r_version r) 0%Z w3) as [[rc version] w4] eqn:Hver.
  exists w3, rc, version, w4. split; [done|]. split; [done|].
  destruct (check_joydev && bool_decide (rc < 0)%Z); [done|].
  destruct (check_joydev && bool_decide (version = 0%Z)); [done|].
  destruct (sys_ioctl (r_axes r) 0%Z w4) as [[rc1 axes_] w5] eqn:Haxes.
  destruct (sys_ioctl (r_buttons r) 0%Z w5) as [[rc2 buttons_] w6] eqn:Hbuttons.
  destruct (sys_ioctl (r_name r) EmptyString w6) as [[rc3 name_] w7] eqn:Hname.
  apply errno_only_sys_ioctl in Haxes, Hbuttons, Hname.
  eexists _, _, _, w7. split; [|reflexivity].
  eauto using errno_only_trans.
Qed.

(** C2. A strict [open_joystick] whose version probe succeeds with
    version 0 returns [false] with [errno = EINVAL] and leaves the table
    and the counter alone, and the descriptor it has just opened is
    still open when it returns. *)

Theorem open_joystick_strict_version_zero (devnode_ : string) (st_rdev : Z)
    (r : device_reply) (w : world) (fd_ : Z) :
  r_open r = SysOk fd_ → fd_ ≠ (-1)%Z → r_version r = SysOk 0%Z →
  ∃ w', open_joystick devnode_ st_rdev true r w = Done false w' ∧
        errno w' = EINVAL ∧
        joysticks w' = joysticks w ∧ num_joysticks w' = num_joysticks w ∧
        fd_ ∈ open_fds w'.
Proof.
  intros Hopen Hfd Hver. unfold open_joystick. rewrite Hopen. simpl.
  rewrite decide_False by done.
  destruct (sys_call (r_getfl r) _) as [opt w2] eqn:Hgetfl.
  pose proof (same_table_sys_call _ _ _ _ Hgetfl) as (Hj2 & Hn2 & _).
  pose proof (open_fds_sys_call _ _ _ _ Hgetfl) as Ho2. simpl in Hj2, Hn2, Ho2.
  set (w3 := if decide (0 ≤ opt)%Z then _ else w2).
  assert (H3 : joysticks w3 = joysticks w ∧ num_joysticks w3 = num_joysticks w
               ∧ open_fds w3 = fd_ :: open_fds w).
  { unfold w3. case_decide; [|done]. by destruct (r_setfl r). }
  destruct H3 as (Hj3 & Hn3 & Ho3).
  rewrite Hver. simpl. eexists. split; [reflexivity|]. simpl.
  rewrite Hj3, Hn3, Ho3. split_and!; try done. apply list_elem_of_here.
Qed.

(** The sibling path: when the strict probe itself fails, the descriptor
    is closed and [errno] is the probe's. *)

Lemma open_joystick_strict_probe_fails (devnode_ : string) (st_rdev : Z)
    (r : device_reply) (w : world) (fd_ e : Z) :
  r_open r = SysOk fd_ → fd_ ≠ (-1)%Z → r_version r = SysErr e →
  ∃ w', open_joystick devnode_ st_rdev true r w = Done false w' ∧
        errno w' = e ∧
        joysticks w' = joysticks w ∧ num_joysticks w' = num_joysticks w ∧
        fd_ ∉ open_fds w'.
Proof.
  intros Hopen Hfd Hver. unfold open_joystick. rewrite Hopen. simpl.
  rewrite decide_False by done.
  destruct (sys_call (r_getfl r) _) as [opt w2] eqn:Hgetfl.
  pose proof (same_table_sys_call _ _ _ _ Hgetfl) as (Hj2 & Hn2 & _).
  simpl in Hj2, Hn2.
  set (w3 := if decide (0 ≤ opt)%Z then _ else w2).
  assert (H3 : joysticks w3 = joysticks w ∧ num_joysticks w3 = num_joysticks w).
  { unfold w3. case_decide; [|done]. by destruct (r_setfl r). }
  destruct H3 as (Hj3 & Hn3).
  rewrite Hver. simpl. eexists. split; [reflexivity|]. simpl.
  pose proof (same_table_sys_close fd_ (set_errno e w3)) as (Hj4 & Hn4 & _).
  rewrite Hj4, Hn4. simpl. split_and!; try done. apply sys_close_closed.
Qed.

(** [get_free_joystick], case by case. *)

Lemma take_lookup_slot (w : world) (k : nat) :
  num_joysticks w ≤ length (joysticks w) → k < num_joysticks w →
  take (num_joysticks w) (joysticks w) !! k = Some (slot w k).
Proof.
  intros Hn Hk. rewrite lookup_take_lt by done.
  apply list_lookup_lookup_total_lt. lia.
Qed.

Lemma get_free_joystick_reuse (w : world) (i : nat) :
  num_joysticks w ≤ length (joysticks w) →
  i < num_joysticks w → fd (slot w i) = (-1)%Z →
  (∀ k, k < i → fd (slot w k) ≠ (-1)%Z) →
  get_free_joystick w = (Some i, w).
Proof.
  intros Hn Hi Hfree Hlow. unfold get_free_joystick.
  assert (Hfind : list_find (λ j, fd j = (-1)%Z)
                    (take (num_joysticks w) (joysticks w)) = Some (i, slot w i)).
  { apply list_find_Some. split; [by apply take_lookup_slot|]. split; [done|].
    intros k y Hy Hk.
    rewrite take_lookup_slot in Hy by lia. injection Hy as <-. by apply Hlow. }
  by rewrite Hfind.
Qed.

Lemma get_free_joystick_no_free (w : world) :
  num_joysticks w ≤ length (joysticks w) →
  (∀ k, k < num_joysticks w → fd (slot w k) ≠ (-1)%Z) →
  list_find (λ j, fd j = (-1)%Z) (take (num_joysticks w) (joysticks w)) = None.
Proof.
  intros Hn Hall. apply list_find_None, Forall_lookup. intros k y Hy.
  assert (k < num_joysticks w).
  { apply lookup_lt_Some in Hy. rewrite length_take in Hy. lia. }
  rewrite take_lookup_slot in Hy by done. injection Hy as <-. by apply Hall.
Qed.

Lemma get_free_joystick_grow (w : world) :
  num_joysticks w ≤ length (joysticks w) →
  (∀ k, k < num_joysticks w → fd (slot w k) ≠ (-1)%Z) →
  num_joysticks w < MAX_JOYSTICKS →
  get_free_joystick w
  = (Some (num_joysticks w),
     set_num_joysticks (S (num_joysticks w))
       (set_slot (num_joysticks w) (set_fd (-1) (slot w (num_joysticks w))) w)).
Proof.
  intros Hn Hall Hlt. unfold get_free_joystick.
  rewrite get_free_joystick_no_free by done. by rewrite decide_True.
Qed.

Lemma get_free_joystick_full (w : world) :
  num_joysticks w ≤ length (joysticks w) →
  (∀ k, k < num_joysticks w → fd (slot w k) ≠ (-1)%Z) →
  MAX_JOYSTICKS ≤ num_joysticks w →
  get_free_joystick w = (None, w).
Proof.
  intros Hn Hall Hge. unfold get_free_joystick.
  rewrite get_free_joystick_no_free by done. rewrite decide_False by lia. done.
Qed.

(** Every result of [get_free_joystick] is one of the three cases. *)

Lemma get_free_joystick_cases (w : world) :
  num_joysticks w ≤ length (joysticks w) →
  (∃ i, i < num_joysticks w ∧ fd (slot w i) = (-1)%Z ∧
        (∀ k, k < i → fd (slot w k) ≠ (-1)%Z) ∧
        get_free_joystick w = (Some i, w)) ∨
  ((∀ k, k < num_joysticks w → fd (slot w k) ≠ (-1)%Z) ∧
   num_joysticks w < MAX_JOYSTICKS ∧
   get_free_joystick w
   = (Some (num_joysticks w),
      set_num_joysticks (S (num_joysticks w))
        (set_slot (num_joysticks w) (set_fd (-1) (slot w (num_joysticks w))) w))) ∨
  ((∀ k, k < num_joysticks w → fd (slot w k) ≠ (-1)%Z) ∧
   MAX_JOYSTICKS ≤ num_joysticks w ∧
   get_free_joystick w = (None, w)).
Proof.
  intros Hn.
  destruct (list_find (λ j, fd j = (-1)%Z) (take (num_joysticks w) (joysticks w)))
    as [[i x]|] eqn:Hfind.
  - left. apply list_find_Some in Hfind as (Hx & Hfree & Hlow).
    assert (Hi : i < num_joysticks w).
    { apply lookup_lt_Some in Hx. rewrite length_take in Hx. lia. }
    rewrite take_lookup_slot in Hx by done. injection Hx as <-.
    exists i. split; [done|]. split; [done|].
    assert (Hlow' : ∀ k, k < i → fd (slot w k) ≠ (-1)%Z).
    { intros k Hk. apply (Hlow k); [|done]. apply take_lookup_slot; [done | lia]. }
    split; [done|]. by apply get_free_joystick_reuse.
  - right.
    assert (Hall : ∀ k, k < num_joysticks w → fd (slot w k) ≠ (-1)%Z).
    { intros k Hk. rewrite list_find_None, Forall_lookup in Hfind.
      apply (Hfind k). by apply take_lookup_slot. }
    destruct (decide (num_joysticks w < MAX_JOYSTICKS)).
    + left. split; [done|]. split; [done|]. by apply get_free_joystick_grow.
    + right. split; [done|]. split; [lia|]. apply get_free_joystick_full; [done..|lia].
Qed.

(** C7. [get_free_joystick] returns the lowest-indexed free slot when
    there is one; otherwise, below [MAX_JOYSTICKS], it counts one more
    slot and returns it, marked free; otherwise it returns [NULL], and
    then [open_joystick] closes the descriptor it opened, sets [errno] to
    [ENOMEM] and returns [false] with the table and the counter as they
    were. *)

Theorem get_free_joystick_allocation (w : world) :
  num_joysticks w ≤ length (joysticks w) →
  (∀ i, i < num_joysticks w → fd (slot w i) = (-1)%Z →
        (∀ k, k < i → fd (slot w k) ≠ (-1)%Z) →
        get_free_joystick w = (Some i, w)) ∧
  ((∀ k, k < num_joysticks w → fd (slot w k) ≠ (-1)%Z) →
   num_joysticks w < MAX_JOYSTICKS →
   ∃ w', get_free_joystick w = (Some (num_joysticks w), w') ∧
         num_joysticks w' = S (num_joysticks w) ∧
         (num_joysticks w < length (joysticks w) →
          fd (slot w' (num_joysticks w)) = (-1)%Z) ∧
         (∀ k, k ≠ num_joysticks w → slot w' k = slot w k)) ∧
  ((∀ k, k < num_joysticks w → fd (slot w k) ≠ (-1)%Z) →
   MAX_JOYSTICKS ≤ num_joysticks w →
   get_free_joystick w = (None, w) ∧
   ∀ devnode_ st_rdev check_joydev r fd_,
     r_open r = SysOk fd_ → fd_ ≠ (-1)%Z →
     (check_joydev = true → ∃ v, r_version r = SysOk v ∧ v ≠ 0%Z) →
     ∃ w', open_joystick devnode_ st_rdev check_joydev r w = Done false w' ∧
           errno w' = ENOMEM ∧ (fd_ ∉ open_fds w') ∧
           joysticks w' = joysticks w ∧ num_joysticks w' = num_joysticks w).
Proof.
  intros Hn. split; [intros; by apply get_free_joystick_reuse|]. split.
  - intros Hall Hlt. eexists. split; [by apply get_free_joystick_grow|].
    split; [done|]. split.
    + intros Hlen. simpl. unfold slot at 1. simpl.
      by rewrite list_lookup_total_insert_eq.
    + intros k Hk. unfold slot at 1. simpl.
      by rewrite list_lookup_total_insert_ne.
  - intros Hall Hge. split; [by apply get_free_joystick_full|].
    intros devnode_ st_rdev check_joydev r fd_ Hopen Hfd Hver.
    destruct (open_joystick_stages devnode_ st_rdev check_joydev r w)
      as (fd' & w1 & Hopen' & _ & Hrest).
    rewrite Hopen in Hopen'. injection Hopen' as <- <-.
    destruct (Hrest Hfd) as (w3 & rc & version & w4 & H3 & Hprobe & Hcont).
    assert (Hchk : (check_joydev && bool_decide (rc < 0)%Z) = false
                   ∧ (check_joydev && bool_decide (version = 0%Z)) = false).
    { destruct check_joydev; [|done].
      destruct (Hver eq_refl) as (v & Hv & Hv0). rewrite Hv in Hprobe.
      injection Hprobe as <- <- _. simpl.
      rewrite bool_decide_eq_false_2 by done. done. }
    destruct Hchk as [Hc1 Hc2]. rewrite Hc1, Hc2 in Hcont.
    destruct Hcont as (axes_ & buttons_ & name_ & w7 & H7 & ->).
    assert (Hw7 : errno_only (set_open_fds (fd_ :: open_fds w) w) w7).
    { apply errno_only_sys_ioctl in Hprobe. eauto using errno_only_trans. }
    pose proof (errno_only_same_table _ _ Hw7) as (Hj7 & Hn7 & _).
    simpl in Hj7, Hn7.
    rewrite get_free_joystick_full; cycle 1.
    { by rewrite Hj7, Hn7. }
    { intros k Hk. unfold slot. rewrite Hj7. apply Hall. by rewrite <- Hn7. }
    { by rewrite Hn7. }
    eexists. split; [reflexivity|]. simpl.
    pose proof (same_table_sys_close fd_ w7) as (Hj8 & Hn8 & _).
    rewrite Hj8, Hn8. split_and!; try done. apply sys_close_closed.
Qed.

(** C8. [add_udev_device] for a device whose [st_rdev] is that of an
    active slot returns at the duplicate check: the whole state, table,
    counter and descriptors, is what it was, so nothing was opened. *)

Theorem add_udev_device_duplicate (d : udev_device) (devnode_ : string)
    (st_rdev : Z) (i : nat) (w : world) :
  num_joysticks w ≤ length (joysticks w) →
  ud_devnode d = Some devnode_ → devnode_ ≠ EmptyString → ud_stat d = SysOk st_rdev →
  active w i → dev (slot w i) = st_rdev →
  add_udev_device (Some d) w = Done tt w.
Proof.
  intros Hn Hnode Hne Hstat [Hi Hfd] Hdev. unfold add_udev_device.
  rewrite Hnode, Hstat. simpl.
  destruct devnode_ as [|c s]; [done|].
  destruct (list_find _ _) as [[k x]|] eqn:Hfind; [done|].
  exfalso. rewrite list_find_None, Forall_lookup in Hfind.
  apply (Hfind i (slot w i)); [by apply take_lookup_slot | done].
Qed.

(** ** The player numbers *)

(** The loop of [get_available_player], from any point of the scan:
    when slot 0 is free or holds player 1, the numbers below [p] are all
    held, and no slot already passed holds [p], the result is the least
    number no active slot holds. *)

Lemma get_available_player_loop_least (js : list joystick) (n i : nat) (p : Z) :
  (0 < n → fd (js !!! 0) ≠ (-1)%Z → player (js !!! 0) = 1%Z) →
  (1 ≤ p)%Z →
  (∀ q, (1 ≤ q < p)%Z →
        ∃ k, k < n ∧ fd (js !!! k) ≠ (-1)%Z ∧ player (js !!! k) = q) →
  (∀ k, k < i → k < n → fd (js !!! k) ≠ (-1)%Z → player (js !!! k) ≠ p) →
  (1 ≤ get_available_player_loop js n i p)%Z ∧
  (∀ k, k < n → fd (js !!! k) ≠ (-1)%Z →
        player (js !!! k) ≠ get_available_player_loop js n i p) ∧
  (∀ q, (1 ≤ q < get_available_player_loop js n i p)%Z →
        ∃ k, k < n ∧ fd (js !!! k) ≠ (-1)%Z ∧ player (js !!! k) = q).
Proof.
  funelim (get_available_player_loop js n i p); intros Hzero Hone Hbelow Hseen.
  - split; [done|]. split; [|done].
    intros k Hk. apply Hseen; lia.
  - match goal with IH : _ → _ → _ → _ → _ ∧ _ |- _ => apply IH end; try done.
    intros k Hk Hkn Hact. destruct (decide (k = i)) as [->|]; [done|].
    apply Hseen; [lia | done..].
  - match goal with IH : _ → _ → _ → _ → _ ∧ _ |- _ => apply IH end; try done.
    + lia.
    + intros q Hq. destruct (decide (q = player (js !!! i))) as [->|].
      * exists i. done.
      * apply Hbelow. lia.
    + intros k Hk Hkn Hact. replace k with 0 in * by lia.
      rewrite Hzero by done. lia.
  - match goal with IH : _ → _ → _ → _ → _ ∧ _ |- _ => apply IH end; try done.
    intros k Hk Hkn Hact. destruct (decide (k = i)) as [->|]; [done|].
    apply Hseen; [lia | done..].
Qed.

(** The result is at most one more than the number of slots scanned, so
    [player++] stays far from the end of [int]. *)

Lemma held_from_match (js : list joystick) (n i : nat) (p : Z) :
  i < n → fd (js !!! i) ≠ (-1)%Z → player (js !!! i) = p →
  length (held_from js n (p + 1)) < length (held_from js n p).
Proof.
  intros Hi Hfd Hp. unfold held_from.
  assert (Hsplit : seq 0 n = seq 0 i ++ i :: seq (S i) (n - S i)).
  { assert (Hn : n = i + S (n - S i)) by lia.
    rewrite Hn at 1. rewrite seq_app. reflexivity. }
  assert (Hmono : ∀ l : list nat,
    length (filter (λ k, fd (js !!! k) ≠ (-1)%Z ∧ (p + 1 ≤ player (js !!! k))%Z) l)
    ≤ length (filter (λ k, fd (js !!! k) ≠ (-1)%Z ∧ (p ≤ player (js !!! k))%Z) l)).
  { induction l as [|a l IH]; [done|].
    rewrite !filter_cons. repeat case_decide; simpl; try lia. }
  rewrite Hsplit, !filter_app, !filter_cons.
  rewrite decide_False by lia.
  rewrite decide_True by (split; [done | lia]).
  rewrite !length_app. simpl.
  pose proof (Hmono (seq 0 i)). pose proof (Hmono (seq (S i) (n - S i))). lia.
Qed.

Lemma get_available_player_loop_bound (js : list joystick) (n i : nat) (p : Z) :
  (p ≤ get_available_player_loop js n i p
     ≤ p + Z.of_nat (length (held_from js n p)))%Z.
Proof.
  funelim (get_available_player_loop js n i p); try lia.
  pose proof (held_from_match js n i p) as Hlt. lia.
Qed.

Lemma get_available_player_range (w : world) :
  (1 ≤ get_available_player w ≤ Z.of_nat (num_joysticks w) + 1)%Z.
Proof.
  unfold get_available_player.
  pose proof (get_available_player_loop_bound (joysticks w) (num_joysticks w) 0 1)
    as Hb.
  pose proof (length_filter
    (λ k, fd (joysticks w !!! k) ≠ (-1)%Z ∧ (1 ≤ player (joysticks w !!! k))%Z)
    (seq 0 (num_joysticks w))) as Hle.
  rewrite length_seq in Hle. unfold held_from in Hb. lia.
Qed.

Lemma get_available_player_least (w : world) :
  (active w 0 → player (slot w 0) = 1%Z) →
  least_unused w (get_available_player w).
Proof.
  intros H0. unfold get_available_player.
  destruct (get_available_player_loop_least (joysticks w) (num_joysticks w) 0 1)
    as (Hpos & Hfree & Hbelow).
  - intros Hn Hfd. apply H0. by split.
  - done.
  - intros q Hq. lia.
  - intros k Hk. lia.
  - unfold least_unused, held, active. split; [lia|]. split.
    + intros (k & [Hk Hfd] & Hpl). by apply (Hfree k).
    + intros q Hq. destruct (Hbelow q ltac:(lia)) as (k & Hk & Hfd & Hpl).
      exists k. done.
Qed.

(** There is one least unused number. *)

Lemma least_unused_unique (w : world) (p q : Z) :
  least_unused w p → least_unused w q → p = q.
Proof.
  intros (Hp & Hnp & Hbp) (Hq & Hnq & Hbq).
  destruct (Z.lt_trichotomy p q) as [Hlt|[Heq|Hgt]]; [|done|].
  - exfalso. apply Hnp, Hbq. lia.
  - exfalso. apply Hnq, Hbp. lia.
Qed.

End registry.

Section invariants.
Context `{matelight_h}.

Lemma on_return_bind {A B : Type} (P Q : world → Prop) (m : result A)
    (k : A → world → result B) :
  on_return P m → (∀ a w, P w → on_return Q (k a w)) → on_return Q (bind m k).
Proof. destruct m; simpl; [eauto | done]. Qed.

(** *** Slots that are released or kept *)

Lemma released_refl w : released w w.
Proof. unfold released. split_and!; try done. intros i. by right. Qed.

Lemma released_trans w1 w2 w3 : released w1 w2 → released w2 w3 → released w1 w3.
Proof.
  intros (Hn1 & Hl1 & Hc1 & Hm1 & Hs1) (Hn2 & Hl2 & Hc2 & Hm2 & Hs2).
  unfold released. split_and!; try congruence.
  intros i. destruct (Hs2 i) as [?|[Hf Hp]]; [by left|].
  destruct (Hs1 i) as [?|[Hf' Hp']]; [left; congruence | right; split; congruence].
Qed.

Lemma same_table_released w w' : same_table w w' → released w w'.
Proof.
  intros (Hj & Hn & Hc & Hm). unfold released, slot. rewrite Hj.
  split_and!; try done. intros i. by right.
Qed.

Lemma released_set_slot (w : world) (i : nat) (j : joystick) :
  fd j = (-1)%Z ∨ (fd j = fd (slot w i) ∧ player j = player (slot w i)) →
  released w (set_slot i j w).
Proof.
  intros Hj. unfold released. simpl. rewrite length_insert. split_and!; try done.
  intros k. destruct (decide (i = k)) as [<-|Hne].
  - destruct (decide (i < length (joysticks w))).
    + by rewrite slot_set_slot_eq.
    + right. unfold slot, set_slot. simpl. by rewrite list_insert_ge by lia.
  - right. by rewrite slot_set_slot_ne.
Qed.

Lemma released_for_loop (n : nat) (body : nat → world → world) (w : world) :
  (∀ i w, released w (body i w)) → released w (for_loop n body w).
Proof.
  intros Hbody. unfold for_loop. generalize (seq 0 n). intros l.
  revert w. induction l as [|i l IH]; intros w; simpl.
  - apply released_refl.
  - eapply released_trans; [apply Hbody | apply IH].
Qed.

Lemma released_active w w' i : released w w' → active w' i → active w i.
Proof.
  intros (Hn & _ & _ & _ & Hs) [Hi Hfd]. unfold active.
  destruct (Hs i) as [?|[Hf _]]; [done|]. split; congruence.
Qed.

Lemma released_player w w' i :
  released w w' → active w' i → player (slot w' i) = player (slot w i).
Proof.
  intros (_ & _ & _ & _ & Hs) [_ Hfd]. by destruct (Hs i) as [?|[_ ?]].
Qed.

Lemma invariant_released w w' : invariant w → released w w' → invariant w'.
Proof.
  intros [Ht Hf Hd Hp Hu] Hrel.
  pose proof Hrel as (Hn & Hl & Hc & Hm & Hs).
  split.
  - unfold table_ok in *. rewrite Hn, Hl. done.
  - intros i Hi. rewrite (released_player w w') by done.
    apply Hf. by eapply released_active.
  - intros i k Hi Hk. rewrite !(released_player w w') by done.
    apply Hd; by eapply released_active.
  - intros i Hi. rewrite (released_player w w') by done.
    apply Hp. by eapply released_active.
  - unfold udev_ok. rewrite Hc, Hm. done.
Qed.

Lemma invariant_same_table w w' : invariant w → same_table w w' → invariant w'.
Proof. intros Hinv Hst. eapply invariant_released; [done | by apply same_table_released]. Qed.

(** *** [input_reset] *)

Lemma input_reset_loop_released (w : world) :
  released w (for_loop (num_joysticks w) (λ i w,
    if decide (fd (slot w i) ≠ (-1)%Z)
    then set_slot i (set_fd (-1) (slot w i)) (sys_close (fd (slot w i)) w)
    else w) w).
Proof.
  apply released_for_loop. intros i w0. case_decide; [|apply released_refl].
  eapply released_trans.
  - apply same_table_released, (same_table_sys_close (fd (slot w0 i))).
  - apply released_set_slot. by left.
Qed.

Lemma input_reset_num (w : world) : num_joysticks (input_reset w) = 0.
Proof.
  unfold input_reset. set (w1 := for_loop _ _ w). simpl.
  destruct (udev_ctx w1), (udev_monitor w1); reflexivity.
Qed.

Lemma input_reset_length (w : world) :
  length (joysticks (input_reset w)) = length (joysticks w).
Proof.
  pose proof (input_reset_loop_released w) as (_ & Hl & _).
  unfold input_reset. set (w1 := for_loop _ _ w) in *. simpl.
  destruct (udev_ctx w1), (udev_monitor w1); exact Hl.
Qed.

Lemma input_reset_udev (w : world) :
  udev_ok w →
  udev_ctx (input_reset w) = None ∧ udev_monitor (input_reset w) = None.
Proof.
  intros Hu. pose proof (input_reset_loop_released w) as (_ & _ & Hc & Hm & _).
  unfold input_reset. set (w1 := for_loop _ _ w) in *. simpl. rewrite Hc, Hm.
  destruct (udev_ctx w) eqn:Hctx.
  - by destruct (udev_monitor w).
  - simpl. rewrite Hm. split; [done|].
    destruct (udev_monitor w) eqn:Hmon; [|done].
    exfalso. apply Hu; congruence.
Qed.

Lemma invariant_input_reset (w : world) : invariant w → invariant (input_reset w).
Proof.
  intros Hinv. pose proof (inv_table w Hinv) as [Hl Hn].
  assert (Hnone : ∀ i, ¬ active (input_reset w) i).
  { intros i [Hi _]. rewrite input_reset_num in Hi. lia. }
  destruct (input_reset_udev w (inv_udev w Hinv)) as [Hc Hm].
  split.
  - unfold table_ok. rewrite input_reset_num, input_reset_length. split; [done | lia].
  - intros i Hi. by destruct (Hnone i).
  - intros i k Hi. by destruct (Hnone i).
  - intros i Hi. by destruct (Hnone i).
  - unfold udev_ok. by rewrite Hm.
Qed.

(** *** [get_free_joystick] *)

Lemma invariant_grow (w : world) :
  invariant w → num_joysticks w < MAX_JOYSTICKS →
  invariant (set_num_joysticks (S (num_joysticks w))
               (set_slot (num_joysticks w) (set_fd (-1) (slot w (num_joysticks w))) w)).
Proof.
  intros [[Hl Hn] Hf Hd Hp Hu] Hlt.
  set (n := num_joysticks w).
  set (w' := set_num_joysticks (S n) (set_slot n (set_fd (-1) (slot w n)) w)).
  assert (Hslot : ∀ k, k ≠ n → slot w' k = slot w k).
  { intros k Hk. unfold w', slot. simpl. by rewrite list_lookup_total_insert_ne. }
  assert (Hnew : fd (slot w' n) = (-1)%Z).
  { unfold w', slot. simpl. rewrite list_lookup_total_insert_eq; [done | lia]. }
  assert (Hact : ∀ k, active w' k → active w k ∧ slot w' k = slot w k).
  { intros k [Hk Hfd]. simpl in Hk.
    destruct (decide (k = n)) as [->|Hne]; [done|].
    rewrite Hslot in Hfd by done. split; [split; [fold n; lia | done] | by apply Hslot]. }
  split.
  - split; simpl; [by rewrite length_insert | lia].
  - intros k Hk. destruct (Hact k Hk) as [Hk' ->]. by apply Hf.
  - intros k1 k2 Hk1 Hk2.
    destruct (Hact k1 Hk1) as [Hk1' ->], (Hact k2 Hk2) as [Hk2' ->]. by apply Hd.
  - intros k Hk. destruct (Hact k Hk) as [Hk' ->]. by apply Hp.
  - done.
Qed.

Lemma invariant_get_free_joystick (w : world) :
  invariant w → invariant (get_free_joystick w).2.
Proof.
  intros Hinv. pose proof (inv_table w Hinv) as [Hl Hn].
  destruct (get_free_joystick_cases w) as
    [(i & _ & _ & _ & ->)|[(_ & Hlt & ->)|(_ & _ & ->)]]; [lia | done | | done].
  by apply invariant_grow.
Qed.

(** *** [open_joystick] *)

Lemma invariant_populate (w : world) (i : nat) (j : joystick) :
  invariant w →
  i < num_joysticks w → fd (slot w i) = (-1)%Z →
  (∀ k, k < i → fd (slot w k) ≠ (-1)%Z) →
  fd j ≠ (-1)%Z → player j = get_available_player w →
  invariant (set_slot i j w).
Proof.
  intros Hinv Hi Hfree Hlow Hfd Hpl.
  pose proof Hinv as [[Hl Hn] Hf Hd Hp Hu].
  assert (Hleast : least_unused w (player j)).
  { rewrite Hpl. apply get_available_player_least.
    intros H0. by apply Hf. }
  destruct Hleast as (Hpos & Hnot & Hbelow).
  set (w' := set_slot i j w).
  assert (Hnew : slot w' i = j) by (apply slot_set_slot_eq; lia).
  assert (Hold : ∀ k, k ≠ i → slot w' k = slot w k).
  { intros k Hk. by apply slot_set_slot_ne. }
  assert (Hact : ∀ k, active w' k → k ≠ i → active w k).
  { intros k [Hk Hfdk] Hne. rewrite Hold in Hfdk by done. by split. }
  split.
  - split; simpl; [by rewrite length_insert | done].
  - intros k Hk. destruct (decide (k = i)) as [->|Hne].
    + rewrite Hnew. split.
      * intros Hone. destruct (decide (i = 0)) as [|Hi0]; [done|].
        exfalso. apply Hnot. exists 0.
        assert (Ha0 : active w 0) by (split; [lia | apply Hlow; lia]).
        split; [done|]. rewrite Hone. by apply Hf.
      * intros ->. destruct (decide (player j = 1%Z)) as [|Hne1]; [done|].
        exfalso. destruct (Hbelow 1%Z ltac:(lia)) as (k & Hk' & Hk1).
        apply Hf in Hk1; [|done]. subst k. by destruct Hk'.
    + rewrite Hold by done. apply Hf. by apply Hact.
  - intros k1 k2 Hk1 Hk2 Heq.
    destruct (decide (k1 = i)) as [->|Hne1], (decide (k2 = i)) as [->|Hne2]; [done|..].
    + rewrite Hnew, Hold in Heq by done.
      exfalso. apply Hnot. exists k2. split; [by apply Hact | done].
    + rewrite Hnew, Hold in Heq by done.
      exfalso. apply Hnot. exists k1. split; [by apply Hact | done].
    + rewrite !Hold in Heq by done. apply Hd; [by apply Hact..|done].
  - intros k Hk. destruct (decide (k = i)) as [->|Hne].
    + by rewrite Hnew.
    + rewrite Hold by done. apply Hp. by apply Hact.
  - done.
Qed.

(** A successful [open_joystick], as the allocation and the two writes
    to the table. *)

Lemma open_joystick_true (devnode_ : string) (st_rdev : Z) (check_joydev : bool)
    (r : device_reply) (w w' : world) :
  open_joystick devnode_ st_rdev check_joydev r w = Done true w' →
  ∃ fd_ axes_ buttons_ name_ w7 i w8,
    fd_ ≠ (-1)%Z ∧ same_table w w7 ∧
    get_free_joystick w7 = (Some i, w8) ∧
    num_joysticks w8 < MAX_JOYSTICKS ∧
    let j := {| fd := fd_;
                devnode := strncpy devnode_ DEVNODE_SIZE;
                dev := st_rdev;
                axes := axes_;
                buttons := buttons_;
                name := name_;
                player := get_available_player w8;
                key_state := 0;
                last_key_idx := KEYPAD_NONE;
                last_key_val := false;
                key_history := key_history (slot w8 i) |} in
    let w9 := set_slot i j w8 in
    w' = set_slot (num_joysticks w8)
           (set_key_history zero_history (slot w9 (num_joysticks w8))) w9.
Proof.
  intros Hopen.
  destruct (open_joystick_stages devnode_ st_rdev check_joydev r w)
    as (fd_ & w1 & Hsys & Hfail & Hrest).
  destruct (decide (fd_ = (-1)%Z)) as [Hfd|Hfd].
  { rewrite Hfail in Hopen by done. discriminate. }
  destruct (Hrest Hfd) as (w3 & rc & version & w4 & H3 & Hprobe & Hcont).
  destruct (check_joydev && bool_decide (rc < 0)%Z).
  { rewrite Hcont in Hopen. discriminate. }
  destruct (check_joydev && bool_decide (version = 0%Z)).
  { rewrite Hcont in Hopen. discriminate. }
  destruct Hcont as (axes_ & buttons_ & name_ & w7 & H7 & Heq).
  rewrite Heq in Hopen.
  destruct (get_free_joystick w7) as [[i|] w8] eqn:Hfree; [|discriminate].
  simpl in Hopen. case_decide as Hlt; [|discriminate].
  injection Hopen as <-.
  exists fd_, axes_, buttons_, name_, w7, i, w8.
  split; [done|]. split; [|done].
  apply same_table_sys_open in Hsys.
  apply errno_only_sys_ioctl in Hprobe.
  eapply same_table_trans; [exact Hsys|].
  apply errno_only_same_table. eauto using errno_only_trans.
Qed.

Lemma invariant_open_joystick (devnode_ : string) (st_rdev : Z) (check_joydev : bool)
    (r : device_reply) (w : world) :
  invariant w → on_return invariant (open_joystick devnode_ st_rdev check_joydev r w).
Proof.
  intros Hinv.
  destruct (open_joystick devnode_ st_rdev check_joydev r w) as [[|] w'|] eqn:Hopen;
    simpl; [| |done].
  - apply open_joystick_true in Hopen
      as (fd_ & axes_ & buttons_ & name_ & w7 & i & w8 & Hfd & H7 & Hfree & Hlt & ->).
    assert (Hinv7 : invariant w7) by by eapply invariant_same_table.
    pose proof (inv_table w7 Hinv7) as [Hl7 Hn7].
    eapply invariant_released; [|apply released_set_slot; by right].
    destruct (get_free_joystick_cases w7) as
      [(i' & Hi & Hfr & Hlow & Heq)|[(Hall & Hlt7 & Heq)|(_ & _ & Heq)]]; [lia | | |];
      rewrite Heq in Hfree; [| |discriminate].
    + injection Hfree as <- <-. by apply invariant_populate.
    + injection Hfree as <- <-.
      apply invariant_populate; simpl; try done.
      * by apply invariant_grow.
      * lia.
      * unfold slot. simpl. rewrite list_lookup_total_insert_eq; [done | lia].
      * intros k Hk. unfold slot. simpl.
        rewrite list_lookup_total_insert_ne by lia. by apply Hall.
  - destruct (open_joystick_stages devnode_ st_rdev check_joydev r w)
      as (fd_ & w1 & Hsys & Hfail & Hrest).
    pose proof (same_table_sys_open _ _ _ _ Hsys) as H1.
    destruct (decide (fd_ = (-1)%Z)) as [Hfd|Hfd].
    { rewrite Hfail in Hopen by done. injection Hopen as <-.
      by eapply invariant_same_table. }
    destruct (Hrest Hfd) as (w3 & rc & version & w4 & H3 & Hprobe & Hcont).
    assert (H4 : same_table w w4).
    { apply errno_only_sys_ioctl in Hprobe.
      eapply same_table_trans; [exact H1|].
      apply errno_only_same_table. eauto using errno_only_trans. }
    destruct (check_joydev && bool_decide (rc < 0)%Z).
    { rewrite Hcont in Hopen. injection Hopen as <-.
      eapply invariant_same_table; [done|].
      eapply same_table_trans; [exact H4|].
      eapply same_table_trans; [apply (same_table_sys_close fd_)|].
      apply same_table_set_errno. }
    destruct (check_joydev && bool_decide (version = 0%Z)).
    { rewrite Hcont in Hopen. injection Hopen as <-.
      eapply invariant_same_table; [done|].
      eapply same_table_trans; [exact H4 | apply same_table_set_errno]. }
    destruct Hcont as (axes_ & buttons_ & name_ & w7 & H7 & Heq).
    rewrite Heq in Hopen.
    destruct (get_free_joystick w7) as [[i|] w8] eqn:Hfree.
    { simpl in Hopen. case_decide; discriminate. }
    injection Hopen as <-.
    assert (H7' : same_table w w7).
    { eapply same_table_trans; [exact H4 | by apply errno_only_same_table]. }
    assert (Hinv7 : invariant w7) by by eapply invariant_same_table.
    pose proof (invariant_get_free_joystick w7 Hinv7) as Hinv8.
    rewrite Hfree in Hinv8. simpl in Hinv8.
    eapply invariant_same_table; [exact Hinv8|].
    eapply same_table_trans; [apply (same_table_sys_close fd_)|].
    apply same_table_set_errno.
Qed.

(** *** Hotplug *)

Lemma invariant_add_udev_device (dev_ : option udev_device) (w : world) :
  invariant w → on_return invariant (add_udev_device dev_ w).
Proof.
  intros Hinv. unfold add_udev_device.
  destruct dev_ as [d|]; [|done].
  destruct (ud_devnode d) as [[|c s]|]; [done| |done].
  destruct (sys_ioctl (ud_stat d) 0%Z w) as [[rc st_rdev] w1] eqn:Hstat.
  apply same_table_sys_ioctl in Hstat.
  assert (Hinv1 : invariant w1) by by eapply invariant_same_table.
  case_decide; [done|].
  destruct (list_find _ _); [done|].
  eapply on_return_bind; [by apply invariant_open_joystick|].
  intros _ w2 Hinv2. done.
Qed.

Lemma released_remove_udev_device (dev_ : option udev_device) (w : world) :
  released w (remove_udev_device dev_ w).
Proof.
  unfold remove_udev_device.
  destruct dev_ as [d|]; [|apply released_refl].
  destruct (ud_devnode d) as [[|c s]|]; try apply released_refl.
  apply released_for_loop. intros i w0.
  case_decide; [apply released_refl|].
  case_decide; [|apply released_refl].
  eapply released_trans.
  - apply same_table_released, (same_table_sys_close (fd (slot w0 i))).
  - apply released_set_slot. by left.
Qed.

Lemma invariant_udev_dispatch (d : udev_device) (w : world) :
  invariant w → on_return invariant (udev_dispatch d w).
Proof.
  intros Hinv. unfold udev_dispatch.
  destruct (ud_joystick d) as [val|], (ud_action d) as [action|]; try done.
  case_decide; [|done].
  case_decide; [by apply invariant_add_udev_device|].
  case_decide.
  { unfold on_return.
    eapply invariant_released; [done | apply released_remove_udev_device]. }
  case_decide; [|done].
  apply invariant_add_udev_device.
  eapply invariant_released; [done | apply released_remove_udev_device].
Qed.

Lemma invariant_udev_monitor_poll_loop (pending : list (option udev_device))
    (w : world) :
  invariant w → on_return invariant (udev_monitor_poll_loop pending w).
Proof.
  revert w. induction pending as [|[d|] rest IH]; intros w Hinv; simpl; [done| |eauto].
  eapply on_return_bind; [by apply invariant_udev_dispatch|].
  intros _ w1 Hinv1. by apply IH.
Qed.

Lemma invariant_udev_monitor_poll (pending : list (option udev_device)) (w : world) :
  invariant w → on_return invariant (udev_monitor_poll pending w).
Proof.
  intros Hinv. unfold udev_monitor_poll.
  destruct (udev_ctx w), (udev_monitor w); try done.
  by apply invariant_udev_monitor_poll_loop.
Qed.

(** Replacing the udev handles by a context and, possibly, a monitor. *)

Lemma invariant_udev_handles (w w' : world) :
  invariant w →
  joysticks w' = joysticks w → num_joysticks w' = num_joysticks w →
  udev_ctx w' ≠ None →
  invariant w'.
Proof.
  intros [[Hl Hn] Hf Hd Hp Hu] Hj Hnum Hctx.
  assert (Hslot : ∀ k, slot w' k = slot w k) by (intros k; unfold slot; by rewrite Hj).
  assert (Hact : ∀ k, active w' k → active w k).
  { intros k [Hk Hfd]. rewrite Hslot in Hfd. split; [lia | done]. }
  split.
  - unfold table_ok. by rewrite Hj, Hnum.
  - intros k Hk. rewrite Hslot. by apply Hf, Hact.
  - intros k1 k2 Hk1 Hk2. rewrite !Hslot. by apply Hd; apply Hact.
  - intros k Hk. rewrite Hslot. by apply Hp, Hact.
  - intros _. done.
Qed.

Lemma invariant_scan (devices : list (option udev_device)) (acc : result unit) :
  on_return invariant acc →
  on_return invariant
    (foldl (λ acc item,
              bind acc (λ _ w,
                match item with
                | Some d => add_udev_device (Some d) w
                | None => Done tt w
                end))
           acc devices).
Proof.
  revert acc. induction devices as [|item rest IH]; intros acc Hacc; [done|].
  cbn [foldl]. apply IH. eapply on_return_bind; [exact Hacc|].
  intros _ w Hinv. destruct item; [by apply invariant_add_udev_device | done].
Qed.

Lemma invariant_init_udev_hotplug (new_ctx new_monitor : option Z)
    (scan : option (list (option udev_device))) (w : world) :
  invariant w → on_return invariant (init_udev_hotplug new_ctx new_monitor scan w).
Proof.
  intros Hinv. unfold init_udev_hotplug.
  set (w1 := match udev_ctx w with Some _ => _ | None => w end).
  assert (H1 : joysticks w1 = joysticks w ∧ num_joysticks w1 = num_joysticks w).
  { unfold w1. destruct (udev_ctx w); [|done]. by destruct (udev_monitor w). }
  destruct H1 as [Hj1 Hn1]. clearbody w1.
  destruct new_ctx as [ctx|]; [|done].
  destruct scan as [devices|]; [|done].
  apply invariant_scan. simpl.
  destruct new_monitor as [m|];
    (eapply invariant_udev_handles; [exact Hinv | simpl; done..]).
Qed.

(** *** [init_joystick] and [read_joystick] *)

Lemma invariant_init_joystick (devnode_ : option string) (st : sys_reply Z)
    (r : device_reply) (w : world) :
  invariant w → on_return invariant (init_joystick devnode_ st r w).
Proof.
  intros Hinv. unfold init_joystick. destruct devnode_ as [d|]; [|done].
  destruct (sys_ioctl st 0%Z w) as [[rc st_rdev] w1] eqn:Hstat.
  apply same_table_sys_ioctl in Hstat.
  case_decide; [done|].
  eapply on_return_bind.
  - apply invariant_open_joystick. by eapply invariant_same_table.
  - intros [|] w2 Hinv2; done.
Qed.

Lemma errno_only_read_scan reads (idx : list nat) (w : world) r w' :
  read_scan reads idx w = (r, w') → errno_only w w'.
Proof.
  revert w. induction idx as [|i rest IH]; intros w; simpl.
  - intros [= _ <-]. apply errno_only_refl.
  - case_decide; [by apply IH|].
    destruct (reads _) as [e|[event|]].
    + intros Hscan. apply IH in Hscan.
      eapply errno_only_trans; [apply errno_only_set_errno | exact Hscan].
    + intros [= _ <-]. apply errno_only_refl.
    + by apply IH.
Qed.

Lemma on_event_registry (event : js_event) (j : joystick) :
  fd (on_event event j) = fd j ∧ player (on_event event j) = player j ∧
  dev (on_event event j) = dev j ∧ devnode (on_event event j) = devnode j.
Proof.
  unfold on_event, push_history, decode_event, decode_axis.
  repeat first [ case_decide | destruct (bool_decide _) | destruct (last_key_val _)
               | progress simpl | done ].
Qed.

Lemma invariant_read_joystick (pending : list (option udev_device))
    (reads : Z → sys_reply (option js_event)) (w : world) :
  invariant w → on_return invariant (read_joystick pending reads w).
Proof.
  intros Hinv. unfold read_joystick.
  eapply on_return_bind; [by apply invariant_udev_monitor_poll|].
  intros _ w1 Hinv1. case_decide; [done|].
  destruct (read_scan reads _ w1) as [[[i event]|] w2] eqn:Hscan.
  - apply errno_only_read_scan, errno_only_same_table in Hscan.
    simpl. eapply invariant_released.
    + by eapply invariant_same_table.
    + apply released_set_slot. right.
      destruct (on_event_registry event (slot w2 i)) as (Hfd & Hpl & _).
      exact (conj Hfd Hpl).
  - apply errno_only_read_scan, errno_only_same_table in Hscan.
    simpl. by eapply invariant_same_table.
Qed.

(** *** Reachable states *)

Lemma invariant_initial_world : invariant initial_world.
Proof.
  split.
  - split; simpl; [by rewrite length_replicate | lia].
  - intros i [Hi _]. simpl in Hi. lia.
  - intros i k [Hi _]. simpl in Hi. lia.
  - intros i [Hi _]. simpl in Hi. lia.
  - intros Hm. by destruct Hm.
Qed.

Lemma invariant_run_call (c : call) (w w' : world) :
  invariant w → run_call c w = Some w' → invariant w'.
Proof.
  intros Hinv. destruct c; simpl.
  - intros [= <-]. by apply invariant_input_reset.
  - intros [= <-]. by apply invariant_get_free_joystick.
  - pose proof (invariant_open_joystick devnode_ st_rdev check_joydev r w Hinv) as Hr.
    destruct (open_joystick _ _ _ _ _); simpl; [by intros [= <-] | done].
  - pose proof (invariant_init_joystick devnode_ st r w Hinv) as Hr.
    destruct (init_joystick _ _ _ _); simpl; [by intros [= <-] | done].
  - pose proof (invariant_init_udev_hotplug new_ctx new_monitor scan w Hinv) as Hr.
    destruct (init_udev_hotplug _ _ _ _); simpl; [by intros [= <-] | done].
  - pose proof (invariant_read_joystick pending reads w Hinv) as Hr.
    destruct (read_joystick _ _ _); simpl; [by intros [= <-] | done].
Qed.

Lemma invariant_run_calls (cs : list call) (w w' : world) :
  invariant w → run_calls cs w = Some w' → invariant w'.
Proof.
  revert w. induction cs as [|c rest IH]; intros w Hinv; simpl.
  - by intros [= <-].
  - destruct (run_call c w) as [w1|] eqn:Hc; [|done].
    apply IH. by eapply invariant_run_call.
Qed.

Lemma reachable_invariant (w : world) : reachable w → invariant w.
Proof.
  intros [cs Hcs]. eapply invariant_run_calls; [apply invariant_initial_world | done].
Qed.

(** ** What a successful [open_joystick] leaves in the table *)

Lemma get_available_player_same_table (w w' : world) :
  same_table w w' → get_available_player w' = get_available_player w.
Proof. intros (Hj & Hn & _). unfold get_available_player. by rewrite Hj, Hn. Qed.

Lemma open_joystick_populated (devnode_ : string) (st_rdev : Z) (check_joydev : bool)
    (r : device_reply) (w w' : world) :
  invariant w →
  open_joystick devnode_ st_rdev check_joydev r w = Done true w' →
  ∃ i, i < num_joysticks w' ∧ num_joysticks w' < MAX_JOYSTICKS ∧
    ((i < num_joysticks w ∧ fd (slot w i) = (-1)%Z ∧
      num_joysticks w' = num_joysticks w) ∨
     (i = num_joysticks w ∧ num_joysticks w' = S (num_joysticks w))) ∧
    (∀ k, k < i → fd (slot w k) ≠ (-1)%Z) ∧
    fd (slot w' i) ≠ (-1)%Z ∧ dev (slot w' i) = st_rdev ∧
    least_unused w (player (slot w' i)) ∧
    key_state (slot w' i) = 0%Z ∧
    last_key_idx (slot w' i) = KEYPAD_NONE ∧ last_key_val (slot w' i) = false ∧
    key_history (slot w' i) = key_history (slot w i) ∧
    key_history (slot w' (num_joysticks w')) = zero_history ∧
    (∀ k, k ≠ i →
       slot w' k = if decide (k = num_joysticks w')
                   then set_key_history zero_history (slot w k)
                   else slot w k).
Proof.
  intros Hinv Hopen.
  apply open_joystick_true in Hopen
    as (fd_ & axes_ & buttons_ & name_ & w7 & i & w8 & Hfd & H7 & Hfree & Hlt & ->).
  assert (Hinv7 : invariant w7) by by eapply invariant_same_table.
  pose proof (inv_table w7 Hinv7) as [Hl7 Hn7].
  pose proof H7 as (Hj7 & Hnum7 & _).
  assert (Hs7 : ∀ k, slot w7 k = slot w k) by (intros k; unfold slot; by rewrite Hj7).
  set (j := {| fd := fd_; devnode := strncpy devnode_ DEVNODE_SIZE; dev := st_rdev;
               axes := axes_; buttons := buttons_; name := name_;
               player := get_available_player w8; key_state := 0;
               last_key_idx := KEYPAD_NONE; last_key_val := false;
               key_history := key_history (slot w8 i) |}).
  set (w9 := set_slot i j w8).
  assert (Halloc : i < num_joysticks w8 ∧ length (joysticks w8) = MAX_JOYSTICKS ∧
            ((i < num_joysticks w ∧ fd (slot w i) = (-1)%Z ∧
              num_joysticks w8 = num_joysticks w) ∨
             (i = num_joysticks w ∧ num_joysticks w8 = S (num_joysticks w))) ∧
            (∀ k, k < i → fd (slot w k) ≠ (-1)%Z) ∧
            least_unused w (get_available_player w8) ∧
            key_history (slot w8 i) = key_history (slot w i) ∧
            (∀ k, k ≠ i → slot w8 k = slot w k)).
  { destruct (get_free_joystick_cases w7) as
      [(i' & Hi & Hfr & Hlow & Heq)|[(Hall & Hlt7 & Heq)|(_ & _ & Heq)]]; [lia | | |];
      rewrite Heq in Hfree; [| |discriminate].
    - injection Hfree as <- <-. rewrite Hs7 in Hfr.
      split; [done|]. split; [done|]. split; [left; split_and!; [lia|done..]|].
      split; [intros k Hk; rewrite <- Hs7; by apply Hlow|].
      split; [|split; [by rewrite Hs7 | intros k _; by apply Hs7]].
      rewrite (get_available_player_same_table w w7) by done.
      apply get_available_player_least. intros H0. by apply (inv_first w Hinv).
    - injection Hfree as <- <-.
      set (w8 := set_num_joysticks _ _).
      assert (Hs8 : ∀ k, k ≠ num_joysticks w7 → slot w8 k = slot w k).
      { intros k Hk. rewrite <- Hs7. unfold w8, slot. simpl.
        by rewrite list_lookup_total_insert_ne. }
      assert (Hnew : slot w8 (num_joysticks w7) = set_fd (-1) (slot w (num_joysticks w7))).
      { rewrite <- Hs7. unfold w8, slot. simpl.
        rewrite list_lookup_total_insert_eq; [done | lia]. }
      split; [simpl; lia|]. split; [simpl; by rewrite length_insert|].
      split; [right; simpl; split; congruence|].
      split; [intros k Hk; rewrite <- Hs7; apply Hall; lia|].
      split; [|split; [by rewrite Hnew | intros k Hk; by apply Hs8]].
      assert (Hinv8 : invariant w8) by by apply invariant_grow.
      assert (Hheld : ∀ q, held w8 q ↔ held w q).
      { intros q. unfold held, active. split.
        - intros (k & [Hk Hfdk] & Hq).
          destruct (decide (k = num_joysticks w7)) as [->|Hne].
          { by rewrite Hnew in Hfdk. }
          rewrite Hs8 in Hfdk, Hq by done. simpl in Hk.
          exists k. split; [split; [lia | done] | done].
        - intros (k & [Hk Hfdk] & Hq). exists k.
          rewrite Hs8 by lia. split; [split; [simpl; lia | done] | done]. }
      pose proof (get_available_player_least w8) as (Hpos & Hnot & Hbelow).
      { intros H0. by apply (inv_first w8 Hinv8). }
      split; [done|]. split; [by rewrite <- Hheld|].
      intros q Hq. apply Hheld. by apply Hbelow. }
  destruct Halloc as (Hi8 & Hl8 & Hcase & Hlow & Hleast & Hhist & Hother).
  assert (Hneq : i ≠ num_joysticks w8) by lia.
  assert (Hnew9 : slot w9 i = j) by (apply slot_set_slot_eq; lia).
  assert (Hold9 : ∀ k, k ≠ i → slot w9 k = slot w k).
  { intros k Hk. unfold w9. rewrite slot_set_slot_ne by done. by apply Hother. }
  set (n := num_joysticks w8) in *.
  set (w' := set_slot n (set_key_history zero_history (slot w9 n)) w9).
  assert (Hl9 : length (joysticks w9) = MAX_JOYSTICKS).
  { unfold w9. simpl. by rewrite length_insert. }
  assert (Hi' : slot w' i = j).
  { unfold w'. rewrite slot_set_slot_ne by done. done. }
  assert (Hn' : slot w' n = set_key_history zero_history (slot w n)).
  { unfold w'. rewrite slot_set_slot_eq by lia. by rewrite Hold9. }
  exists i. change (num_joysticks w') with n. rewrite Hi'.
  split; [done|]. split; [done|]. split; [done|]. split; [done|].
  split; [done|]. split; [done|]. split; [done|]. split; [done|].
  split; [done|]. split; [done|]. split; [done|]. split; [by rewrite Hn'|].
  intros k Hk. destruct (decide (k = n)) as [->|Hkn]; [done|].
  unfold w'. rewrite slot_set_slot_ne by done. by apply Hold9.
Qed.

(** ** The counter never shrinks outside [input_reset] *)

Lemma get_free_joystick_num (w : world) :
  num_joysticks (get_free_joystick w).2 = num_joysticks w ∨
  (num_joysticks w < MAX_JOYSTICKS ∧
   num_joysticks (get_free_joystick w).2 = S (num_joysticks w)).
Proof.
  unfold get_free_joystick. destruct (list_find _ _) as [[i x]|]; [by left|].
  case_decide; [right | left]; done.
Qed.

Lemma get_free_joystick_none (w w' : world) :
  get_free_joystick w = (None, w') → w' = w.
Proof.
  unfold get_free_joystick. destruct (list_find _ _) as [[i x]|]; [done|].
  case_decide; [done|]. by intros [= <-].
Qed.

Lemma open_joystick_false (devnode_ : string) (st_rdev : Z) (check_joydev : bool)
    (r : device_reply) (w w' : world) :
  open_joystick devnode_ st_rdev check_joydev r w = Done false w' → same_table w w'.
Proof.
  intros Hopen.
  destruct (open_joystick_stages devnode_ st_rdev check_joydev r w)
    as (fd_ & w1 & Hsys & Hfail & Hrest).
  pose proof (same_table_sys_open _ _ _ _ Hsys) as H1.
  destruct (decide (fd_ = (-1)%Z)) as [Hfd|Hfd].
  { rewrite Hfail in Hopen by done. by injection Hopen as <-. }
  destruct (Hrest Hfd) as (w3 & rc & version & w4 & H3 & Hprobe & Hcont).
  assert (H4 : same_table w w4).
  { apply errno_only_sys_ioctl in Hprobe.
    eapply same_table_trans; [exact H1|].
    apply errno_only_same_table. eauto using errno_only_trans. }
  destruct (check_joydev && bool_decide (rc < 0)%Z).
  { rewrite Hcont in Hopen. injection Hopen as <-.
    eapply same_table_trans; [exact H4|].
    eapply same_table_trans; [apply (same_table_sys_close fd_)|].
    apply same_table_set_errno. }
  destruct (check_joydev && bool_decide (version = 0%Z)).
  { rewrite Hcont in Hopen. injection Hopen as <-.
    eapply same_table_trans; [exact H4 | apply same_table_set_errno]. }
  destruct Hcont as (axes_ & buttons_ & name_ & w7 & H7 & Heq).
  rewrite Heq in Hopen.
  destruct (get_free_joystick w7) as [[i|] w8] eqn:Hfree.
  { simpl in Hopen. case_decide; discriminate. }
  injection Hopen as <-. apply get_free_joystick_none in Hfree as ->.
  eapply same_table_trans; [exact H4|].
  eapply same_table_trans; [by apply errno_only_same_table|].
  eapply same_table_trans; [apply (same_table_sys_close fd_)|].
  apply same_table_set_errno.
Qed.

Lemma num_le_open_joystick (devnode_ : string) (st_rdev : Z) (check_joydev : bool)
    (r : device_reply) (w : world) (n : nat) :
  n ≤ num_joysticks w →
  on_return (λ w', n ≤ num_joysticks w')
    (open_joystick devnode_ st_rdev check_joydev r w).
Proof.
  intros Hn.
  destruct (open_joystick devnode_ st_rdev check_joydev r w) as [[|] w'|] eqn:Hopen;
    simpl; [| |done].
  - apply open_joystick_true in Hopen
      as (fd_ & axes_ & buttons_ & name_ & w7 & i & w8 & Hfd & H7 & Hfree & Hlt & ->).
    destruct H7 as (_ & H7 & _). simpl.
    pose proof (get_free_joystick_num w7) as Hnum. rewrite Hfree in Hnum.
    simpl in Hnum. lia.
  - apply open_joystick_false in Hopen as (_ & Hnum & _). lia.
Qed.

Lemma num_le_add_udev_device (dev_ : option udev_device) (w : world) (n : nat) :
  n ≤ num_joysticks w →
  on_return (λ w', n ≤ num_joysticks w') (add_udev_device dev_ w).
Proof.
  intros Hn. unfold add_udev_device.
  destruct dev_ as [d|]; [|done].
  destruct (ud_devnode d) as [[|c s]|]; [done| |done].
  destruct (sys_ioctl (ud_stat d) 0%Z w) as [[rc st_rdev] w1] eqn:Hstat.
  apply same_table_sys_ioctl in Hstat as (_ & Hnum & _).
  case_decide; [simpl; lia|].
  destruct (list_find _ _); [simpl; lia|].
  eapply (on_return_bind (λ w', n ≤ num_joysticks w'));
    [apply num_le_open_joystick; lia|].
  intros _ w2 Hn2. done.
Qed.

Lemma num_le_udev_dispatch (d : udev_device) (w : world) (n : nat) :
  n ≤ num_joysticks w →
  on_return (λ w', n ≤ num_joysticks w') (udev_dispatch d w).
Proof.
  intros Hn. unfold udev_dispatch.
  pose proof (released_remove_udev_device (Some d) w) as (Hnum & _).
  destruct (ud_joystick d) as [val|], (ud_action d) as [action|]; try done.
  case_decide; [|done].
  case_decide; [by apply num_le_add_udev_device|].
  case_decide; [unfold on_return; lia|].
  case_decide; [|done].
  apply num_le_add_udev_device. lia.
Qed.

Lemma num_le_udev_monitor_poll (pending : list (option udev_device)) (w : world)
    (n : nat) :
  n ≤ num_joysticks w →
  on_return (λ w', n ≤ num_joysticks w') (udev_monitor_poll pending w).
Proof.
  intros Hn. unfold udev_monitor_poll.
  destruct (udev_ctx w), (udev_monitor w); try done.
  revert w Hn. induction pending as [|[d|] rest IH]; intros w Hn; simpl; [done| |eauto].
  eapply on_return_bind; [by apply num_le_udev_dispatch|].
  intros _ w1 Hn1. by apply IH.
Qed.

Lemma num_le_run_call (c : call) (w w' : world) :
  run_call c w = Some w' →
  c = Call_input_reset ∨ num_joysticks w ≤ num_joysticks w'.
Proof.
  intros Hrun. destruct c; simpl in Hrun; [by left|right..].
  - injection Hrun as <-. destruct (get_free_joystick_num w) as [->|[_ ->]]; lia.
  - pose proof (num_le_open_joystick devnode_ st_rdev check_joydev r w _ (le_n _)) as Hr.
    destruct (open_joystick _ _ _ _ _); simpl in *; [by injection Hrun as <- | done].
  - revert Hrun. unfold init_joystick. destruct devnode_ as [d|]; [|by intros [= <-]].
    destruct (sys_ioctl st 0%Z w) as [[rc st_rdev] w1] eqn:Hstat.
    apply same_table_sys_ioctl in Hstat as (_ & Hnum & _).
    case_decide; [done|].
    pose proof (num_le_open_joystick d st_rdev false r w1 (num_joysticks w)) as Hr.
    destruct (open_joystick _ _ _ _ _) as [[|] w2|]; simpl in *; [|done..].
    intros [= <-]. apply Hr. lia.
  - revert Hrun. unfold init_udev_hotplug.
    set (w1 := match udev_ctx w with Some _ => _ | None => w end).
    assert (H1 : num_joysticks w1 = num_joysticks w).
    { unfold w1. destruct (udev_ctx w); [|done]. by destruct (udev_monitor w). }
    clearbody w1.
    destruct new_ctx as [ctx|]; [|done].
    destruct scan as [devices|]; [|done].
    set (w2 := match new_monitor with Some _ => _ | None => _ end).
    assert (H2 : num_joysticks w ≤ num_joysticks w2).
    { unfold w2. destruct new_monitor; simpl; lia. }
    clearbody w2.
    assert (Hfold : ∀ acc,
      on_return (λ w', num_joysticks w ≤ num_joysticks w') acc →
      on_return (λ w', num_joysticks w ≤ num_joysticks w')
        (foldl (λ acc item,
                  bind acc (λ _ w,
                    match item with
                    | Some d => add_udev_device (Some d) w
                    | None => Done tt w
                    end))
               acc devices)).
    { induction devices as [|item rest IH]; intros acc Hacc; [done|].
      cbn [foldl]. apply IH. eapply on_return_bind; [exact Hacc|].
      intros _ w3 Hn3. destruct item; [by apply num_le_add_udev_device | done]. }
    specialize (Hfold (Done tt w2) H2).
    destruct (foldl _ _ _); simpl in *; [by intros [= <-] | done].
  - revert Hrun. unfold read_joystick.
    pose proof (num_le_udev_monitor_poll pending w _ (le_n _)) as Hr.
    destruct (udev_monitor_poll pending w) as [[] w1|]; simpl in *; [|done].
    case_decide; [by intros [= <-]|].
    destruct (read_scan reads _ w1) as [[[i event]|] w2] eqn:Hscan;
      apply errno_only_read_scan, errno_only_same_table in Hscan as (_ & Hnum & _);
      simpl; intros [= <-]; simpl; lia.
Qed.

Lemma count_joysticks_filter (w : world) :
  count_joysticks w
  = Z.of_nat (length (filter (λ i, fd (slot w i) ≠ (-1)%Z) (seq 0 (num_joysticks w)))).
Proof.
  unfold count_joysticks.
  assert (Hgen : ∀ (l : list nat) (acc : Z),
    foldl (λ cnt i, if decide (fd (slot w i) ≠ (-1)%Z) then (cnt + 1)%Z else cnt) acc l
    = (acc + Z.of_nat (length (filter (λ i, fd (slot w i) ≠ (-1)%Z) l)))%Z).
  { induction l as [|i l IH]; intros acc; simpl; [lia|].
    rewrite IH, filter_cons. case_decide; simpl; lia. }
  rewrite Hgen. lia.
Qed.

(** ** Reachable states *)

(** C1. In every reachable state [get_available_player], called with
    the slot being populated still marked free, returns the smallest
    positive integer that no active slot holds, and
    active slots hold positive, pairwise distinct numbers; so the number
    [open_joystick] gives to the slot it populates is, at that moment,
    the smallest positive integer held by no other active slot, and the
    numbers of the other slots are not touched. *)

Theorem get_available_player_reachable (w : world) :
  reachable w →
  least_unused w (get_available_player w) ∧
  players_distinct w ∧ players_positive w ∧
  ∀ devnode_ st_rdev check_joydev r w',
    open_joystick devnode_ st_rdev check_joydev r w = Done true w' →
    ∃ i, active w' i ∧ ¬ active w i ∧
         least_unused w (player (slot w' i)) ∧
         least_unused_by_others w' i (player (slot w' i)) ∧
         ∀ k, k ≠ i → (active w' k ↔ active w k) ∧
                      player (slot w' k) = player (slot w k).
Proof.
  intros Hreach. pose proof (reachable_invariant w Hreach) as Hinv.
  split; [|split; [apply (inv_distinct w Hinv)|split; [apply (inv_positive w Hinv)|]]].
  { apply get_available_player_least. intros H0. by apply (inv_first w Hinv). }
  intros devnode_ st_rdev check_joydev r w' Hopen.
  destruct (open_joystick_populated _ _ _ _ _ _ Hinv Hopen)
    as (i & Hi & Hlt & Hcase & Hlow & Hfd & _ & Hleast & _ & _ & _ & _ & _ & Hother).
  assert (Hnot : ¬ active w i).
  { intros [Hiw Hfdw]. destruct Hcase as [(_ & Hfree & _)|[-> _]]; [done | lia]. }
  assert (Hkeep : ∀ k, k ≠ i → (active w' k ↔ active w k) ∧
                               player (slot w' k) = player (slot w k)).
  { intros k Hk. rewrite (Hother k Hk). unfold active. rewrite (Hother k Hk).
    assert (Hnum : k < num_joysticks w' ↔ k < num_joysticks w).
    { destruct Hcase as [(_ & _ & ->)|[-> ->]]; [done | lia]. }
    rewrite Hnum. by case_decide. }
  exists i. split; [by split|]. split; [done|]. split; [done|]. split; [|done].
  destruct Hleast as (Hpos & Hfree & Hbelow). split; [done|]. split.
  - intros k Hk Hact Heq. apply Hfree. exists k.
    destruct (Hkeep k Hk) as [Hiff Hpl]. split; [by apply Hiff | by rewrite <- Hpl].
  - intros q Hq. destruct (Hbelow q Hq) as (k & Hact & Hpl).
    assert (Hk : k ≠ i) by (intros ->; done).
    destruct (Hkeep k Hk) as [Hiff Hpl']. exists k.
    split; [done|]. split; [by apply Hiff | by rewrite Hpl'].
Qed.

(** C3. A successful [open_joystick] from a reachable state clears
    [key_state] and the last key of the slot it populates, but the
    history it zeroes is that of the slot at index [num_joysticks], which
    is never the populated one: the populated slot keeps the history it
    had, and that other slot loses its own. *)

Theorem open_joystick_history_not_zeroed (devnode_ : string) (st_rdev : Z)
    (check_joydev : bool) (r : device_reply) (w w' : world) :
  reachable w →
  open_joystick devnode_ st_rdev check_joydev r w = Done true w' →
  ∃ i, active w' i ∧ ¬ active w i ∧
       key_state (slot w' i) = 0%Z ∧
       last_key_idx (slot w' i) = KEYPAD_NONE ∧ last_key_val (slot w' i) = false ∧
       key_history (slot w' i) = key_history (slot w i) ∧
       i ≠ num_joysticks w' ∧
       key_history (slot w' (num_joysticks w')) = zero_history.
Proof.
  intros Hreach Hopen. pose proof (reachable_invariant w Hreach) as Hinv.
  destruct (open_joystick_populated _ _ _ _ _ _ Hinv Hopen)
    as (i & Hi & Hlt & Hcase & Hlow & Hfd & _ & _ & Hks & Hk & Hv & Hh & Hz & _).
  exists i. split; [by split|]. split.
  { intros [Hiw Hfdw]. destruct Hcase as [(_ & Hfree & _)|[-> _]]; [done | lia]. }
  split_and!; try done. lia.
Qed.

(** The loop of [input_reset]: after [n] rounds the first [n] slots are
    free and their descriptors closed, and the other slots are as they
    were. *)

Lemma for_loop_S (n : nat) (body : nat → world → world) (w : world) :
  for_loop (S n) body w = body n (for_loop n body w).
Proof. unfold for_loop. by rewrite seq_S, foldl_app. Qed.

Lemma input_reset_loop (w : world) (n : nat) :
  let wn := for_loop n (λ i w,
              if decide (fd (slot w i) ≠ (-1)%Z)
              then set_slot i (set_fd (-1) (slot w i)) (sys_close (fd (slot w i)) w)
              else w) w in
  length (joysticks wn) = length (joysticks w) ∧
  (∀ i, i < n → i < length (joysticks w) → fd (slot wn i) = (-1)%Z) ∧
  (∀ i, n ≤ i → slot wn i = slot w i) ∧
  (∀ i, i < n → fd (slot w i) ≠ (-1)%Z → fd (slot w i) ∉ open_fds wn) ∧
  (∀ x, x ∈ open_fds wn → x ∈ open_fds w) ∧
  udev_refs wn = udev_refs w.
Proof.
  induction n as [|n IH]; [simpl; by split_and!; try done; intros; lia|].
  rewrite for_loop_S. set (wn := for_loop n _ w) in *. simpl in IH.
  destruct IH as (Hlen & Hfree & Hrest & Hclosed & Hsub & Hrefs). simpl.
  assert (Hn : slot wn n = slot w n) by by apply Hrest.
  case_decide as Hfd.
  - set (w1 := sys_close (fd (slot wn n)) wn).
    pose proof (same_table_sys_close (fd (slot wn n)) wn) as (Hj1 & _).
    fold w1 in Hj1.
    assert (Hs1 : ∀ k, slot w1 k = slot wn k).
    { intros k. unfold slot. by rewrite Hj1. }
    assert (Hl1 : length (joysticks w1) = length (joysticks w)).
    { by rewrite Hj1. }
    assert (Hr1 : udev_refs w1 = udev_refs w).
    { unfold w1, sys_close. by case_decide. }
    split; [simpl; by rewrite length_insert|]. split; [|split; [|split; [|split]]].
    + intros i Hi Hil. destruct (decide (i = n)) as [->|Hne].
      * rewrite slot_set_slot_eq by lia. done.
      * rewrite slot_set_slot_ne, Hs1 by done. apply Hfree; [lia | done].
    + intros i Hi. rewrite slot_set_slot_ne, Hs1 by lia. apply Hrest. lia.
    + intros i Hi Hfdi Hin. simpl in Hin.
      destruct (decide (i = n)) as [->|Hne].
      * rewrite <- Hn in Hin. by apply sys_close_closed in Hin.
      * apply sys_close_subseteq in Hin. apply (Hclosed i); [lia | done..].
    + intros x Hx. simpl in Hx. apply Hsub. by eapply sys_close_subseteq.
    + done.
  - split; [done|]. split; [|split; [|split; [|split]]]; try done.
    + intros i Hi Hil. destruct (decide (i = n)) as [->|Hne].
      * exact Hfd.
      * apply Hfree; [lia | done].
    + intros i Hi. apply Hrest. lia.
    + intros i Hi Hfdi. destruct (decide (i = n)) as [->|Hne].
      * exfalso. apply Hfdi. by rewrite <- Hn.
      * apply Hclosed; [lia | done].
Qed.

Lemma input_reset_fixed (w : world) :
  num_joysticks w = 0 → udev_ctx w = None → input_reset w = w.
Proof.
  intros Hn Hc. unfold input_reset. rewrite Hn. unfold for_loop. simpl.
  rewrite Hc. destruct w. simpl in *. by subst.
Qed.

Lemma input_reset_udev_ctx (w : world) : udev_ctx (input_reset w) = None.
Proof.
  pose proof (input_reset_loop_released w) as (_ & _ & Hc & _).
  unfold input_reset. set (w1 := for_loop _ _ w) in *. simpl.
  destruct (udev_ctx w1) eqn:Hctx; [done|]. done.
Qed.

(** C9. [input_reset] from a reachable state: the counter is 0 and no
    device is counted; every slot that was counted is free and the
    descriptor it held is closed; the context and the monitor are null
    and their references dropped.  A second call changes nothing, and
    neither does a call before any initialisation. *)

Theorem input_reset_restores (w : world) :
  reachable w →
  num_joysticks (input_reset w) = 0 ∧
  count_joysticks (input_reset w) = 0%Z ∧
  (∀ i, i < num_joysticks w →
        fd (slot (input_reset w) i) = (-1)%Z ∧
        (fd (slot w i) ≠ (-1)%Z → fd (slot w i) ∉ open_fds (input_reset w))) ∧
  udev_ctx (input_reset w) = None ∧ udev_monitor (input_reset w) = None ∧
  (∀ p, udev_ctx w = Some p ∨ udev_monitor w = Some p →
        p ∉ udev_refs (input_reset w)) ∧
  input_reset (input_reset w) = input_reset w ∧
  input_reset initial_world = initial_world.
Proof.
  intros Hreach. pose proof (reachable_invariant w Hreach) as Hinv.
  pose proof (inv_table w Hinv) as [Hl Hn].
  pose proof (inv_udev w Hinv) as Hu.
  destruct (input_reset_udev w Hu) as [Hc Hm].
  split; [apply input_reset_num|].
  split; [unfold count_joysticks; by rewrite input_reset_num|].
  pose proof (input_reset_loop w (num_joysticks w))
    as (Hlen & Hfree & _ & Hclosed & _ & Hrefs).
  pose proof (input_reset_loop_released w) as (_ & _ & Hc1 & Hm1 & _).
  simpl in Hlen, Hfree, Hclosed, Hrefs.
  set (w1 := for_loop _ _ w) in *.
  assert (Hframe : joysticks (input_reset w) = joysticks w1 ∧
                   open_fds (input_reset w) = open_fds w1).
  { unfold input_reset. fold w1. simpl.
    destruct (udev_ctx w1), (udev_monitor w1); done. }
  destruct Hframe as [Hj Ho].
  split; [|split; [done|split; [done|split; [|split]]]].
  - intros i Hi. unfold slot at 1. rewrite Hj, Ho. split.
    + apply Hfree; [done | lia].
    + intros Hfd. by apply Hclosed.
  - intros p Hp. unfold input_reset. fold w1. simpl. rewrite Hc1, Hm1.
    unfold udev_ok in Hu.
    destruct (udev_ctx w) as [c|] eqn:Hctx.
    + destruct (udev_monitor w) as [m|] eqn:Hmon; simpl;
        rewrite ?list_elem_of_filter; intros Hin;
        destruct Hp as [Hp|Hp]; try discriminate; injection Hp as ->; intuition.
    + destruct Hp as [?|Hp]; [done|]. exfalso. apply Hu; congruence.
  - apply input_reset_fixed; [apply input_reset_num | apply input_reset_udev_ctx].
  - by apply input_reset_fixed.
Qed.

(** C10. In every reachable state [num_joysticks] is at most
    [MAX_JOYSTICKS]; [get_free_joystick] leaves it alone or, below
    [MAX_JOYSTICKS], adds one; no call other than [input_reset] lowers
    it, and [input_reset] sets it to 0; [count_joysticks] is the number
    of slots below [num_joysticks] whose descriptor is not -1, hence at
    most [num_joysticks]. *)

Theorem num_joysticks_bounded :
  (∀ w, reachable w → num_joysticks w ≤ MAX_JOYSTICKS) ∧
  (∀ w, num_joysticks (get_free_joystick w).2 = num_joysticks w ∨
        (num_joysticks w < MAX_JOYSTICKS ∧
         num_joysticks (get_free_joystick w).2 = S (num_joysticks w))) ∧
  (∀ c w w', run_call c w = Some w' →
             c = Call_input_reset ∨ num_joysticks w ≤ num_joysticks w') ∧
  (∀ w, num_joysticks (input_reset w) = 0) ∧
  (∀ w, count_joysticks w
        = Z.of_nat (length (filter (λ i, fd (slot w i) ≠ (-1)%Z)
                                   (seq 0 (num_joysticks w)))) ∧
        (0 ≤ count_joysticks w ≤ Z.of_nat (num_joysticks w))%Z).
Proof.
  split; [|split; [|split; [|split]]].
  - intros w Hreach. by destruct (inv_table w (reachable_invariant w Hreach)).
  - apply get_free_joystick_num.
  - apply num_le_run_call.
  - apply input_reset_num.
  - intros w. split; [apply count_joysticks_filter|].
    rewrite count_joysticks_filter.
    pose proof (length_filter (λ i, fd (slot w i) ≠ (-1)%Z) (seq 0 (num_joysticks w)))
      as Hle.
    rewrite length_seq in Hle. lia.
Qed.

End invariants.

(** * The statements on the concrete runs *)

Section example_checks.
#[local] Existing Instance example_h.

Lemma reachable_after_removal : reachable after_removal.
Proof. exists removal_calls. vm_compute. reflexivity. Qed.

(** C1 does not hold of every active slot at every time: after two pads
    are opened and the first one is unplugged, the remaining pad is still
    player 2 although no other active slot holds player 1. *)

Lemma player_kept_after_removal :
  reachable after_removal ∧ active after_removal 1 ∧
  player (slot after_removal 1) = 2%Z ∧
  ¬ least_unused_by_others after_removal 1 (player (slot after_removal 1)).
Proof.
  split; [apply reachable_after_removal|].
  split; [split; [vm_compute; lia | vm_compute; discriminate]|].
  split; [reflexivity|].
  intros (_ & _ & Hbelow).
  destruct (Hbelow 1%Z) as (k & Hk & [Hlt Hfd] & _); [vm_compute; done|].
  change (num_joysticks after_removal) with 2 in Hlt.
  assert (k = 0) as -> by lia.
  apply Hfd. reflexivity.
Qed.

(** The scan of [get_available_player] resumes at index 1 after a match:
    on a table whose slot 0 holds player 2 and slot 1 player 1 it returns
    2, which slot 0 holds.  No run produces such a table. *)

Example get_available_player_skips_slot_0 :
  get_available_player swapped_players = 2%Z ∧
  active swapped_players 0 ∧ player (slot swapped_players 0) = 2%Z ∧
  ¬ reachable swapped_players.
Proof.
  split; [vm_compute; reflexivity|].
  split; [split; [vm_compute; lia | vm_compute; discriminate]|].
  split; [reflexivity|].
  intros Hreach. apply reachable_invariant in Hreach.
  assert (Hact : active swapped_players 0).
  { split; [vm_compute; lia | vm_compute; discriminate]. }
  apply (inv_first _ Hreach) in Hact. destruct Hact as [_ Hone].
  specialize (Hone eq_refl). vm_compute in Hone. discriminate.
Qed.

Lemma get_available_player_reachable_witness :
  reachable after_removal ∧
  (least_unused after_removal (get_available_player after_removal) ∧
   players_distinct after_removal ∧ players_positive after_removal ∧
   ∀ devnode_ st_rdev check_joydev r w',
     open_joystick devnode_ st_rdev check_joydev r after_removal = Done true w' →
     ∃ i, active w' i ∧ ¬ active after_removal i ∧
          least_unused after_removal (player (slot w' i)) ∧
          least_unused_by_others w' i (player (slot w' i)) ∧
          ∀ k, k ≠ i → (active w' k ↔ active after_removal k) ∧
                       player (slot w' k) = player (slot after_removal k)).
Proof.
  split; [exists removal_calls; vm_compute; reflexivity|].
  apply (get_available_player_reachable after_removal).
  exists removal_calls. vm_compute. reflexivity.
Defined.

Lemma open_joystick_strict_version_zero_witness :
  r_open (pad_reply 3 0) = SysOk 3%Z ∧ 3%Z ≠ (-1)%Z ∧
  r_version (pad_reply 3 0) = SysOk 0%Z ∧
  ∃ w', open_joystick "/dev/input/event5" 7 true (pad_reply 3 0) initial_world
        = Done false w' ∧
        errno w' = EINVAL ∧
        joysticks w' = joysticks initial_world ∧
        num_joysticks w' = num_joysticks initial_world ∧
        3%Z ∈ open_fds w'.
Proof.
  split; [reflexivity|]. split; [lia|]. split; [reflexivity|].
  apply (open_joystick_strict_version_zero "/dev/input/event5" 7 (pad_reply 3 0)
           initial_world 3); [reflexivity | lia | reflexivity].
Defined.

Lemma open_joystick_history_not_zeroed_witness :
  reachable stale_slot ∧
  open_joystick "/dev/input/js0" 1 true (pad_reply 5 1) stale_slot
  = Done true replugged ∧
  ∃ i, active replugged i ∧ ¬ active stale_slot i ∧
       key_state (slot replugged i) = 0%Z ∧
       last_key_idx (slot replugged i) = KEYPAD_NONE ∧
       last_key_val (slot replugged i) = false ∧
       key_history (slot replugged i) = key_history (slot stale_slot i) ∧
       i ≠ num_joysticks replugged ∧
       key_history (slot replugged (num_joysticks replugged)) = zero_history.
Proof.
  split; [exists stale_calls; vm_compute; reflexivity|].
  split; [vm_compute; reflexivity|].
  apply (open_joystick_history_not_zeroed "/dev/input/js0" 1 true (pad_reply 5 1)
           stale_slot replugged).
  - exists stale_calls. vm_compute. reflexivity.
  - vm_compute. reflexivity.
Defined.

(** The pad plugged in again starts with the press of its predecessor in
    its history. *)

Example open_joystick_stale_history :
  open_joystick "/dev/input/js0" 1 true (pad_reply 5 1) stale_slot
  = Done true replugged ∧
  active replugged 0 ∧
  key_history (slot replugged 0) = [KEYPAD_A; 0; 0; 0]%Z ∧
  key_history (slot replugged 0) ≠ zero_history.
Proof.
  split; [vm_compute; reflexivity|].
  split; [split; [vm_compute; lia | vm_compute; discriminate]|].
  split; [reflexivity | vm_compute; discriminate].
Qed.

Lemma read_joystick_axis_dead_zone_witness :
  ((0%Z = 0%Z ∧ KEYPAD_LEFT = KEYPAD_LEFT ∧ KEYPAD_RIGHT = KEYPAD_RIGHT) ∨
   (0%Z = 1%Z ∧ KEYPAD_LEFT = KEYPAD_UP ∧ KEYPAD_RIGHT = KEYPAD_DOWN)) ∧
  Z.land KEYPAD_LEFT KEYPAD_RIGHT = 0%Z ∧ KEYPAD_LEFT ≠ 0%Z ∧
  ∀ e : js_event,
    Z.land (type e) (Z.lnot JS_EVENT_INIT) = JS_EVENT_AXIS → number e = 0%Z →
    let j := zero_joystick in
    let j' := on_event e j in
    ((value e ≤ -1024)%Z →
       last_key_idx j' = KEYPAD_LEFT ∧ last_key_val j' = true ∧
       Z.land (key_state j') KEYPAD_LEFT = KEYPAD_LEFT ∧
       Z.land (key_state j') KEYPAD_RIGHT = 0%Z) ∧
    ((1024 ≤ value e)%Z →
       last_key_idx j' = KEYPAD_RIGHT ∧ last_key_val j' = true ∧
       Z.land (key_state j') KEYPAD_RIGHT = KEYPAD_RIGHT ∧
       Z.land (key_state j') KEYPAD_LEFT = 0%Z) ∧
    ((-1024 < value e < 1024)%Z →
       last_key_idx j' = (if decide (Z.land (key_state j) KEYPAD_LEFT ≠ 0%Z)
                          then KEYPAD_LEFT
                          else if decide (Z.land (key_state j) KEYPAD_RIGHT ≠ 0%Z)
                               then KEYPAD_RIGHT
                               else KEYPAD_NONE) ∧
       last_key_val j' = false ∧
       Z.land (key_state j') KEYPAD_LEFT = 0%Z ∧
       Z.land (key_state j') KEYPAD_RIGHT = 0%Z) ∧
    ((value e ≤ -1024)%Z →
       ∀ e2 : js_event,
         Z.land (type e2) (Z.lnot JS_EVENT_INIT) = JS_EVENT_AXIS → number e2 = 0%Z →
         (-1024 < value e2 < 1024)%Z →
         let j'' := on_event e2 j' in
         last_key_idx j'' = KEYPAD_LEFT ∧ last_key_val j'' = false ∧
         Z.land (key_state j'') KEYPAD_LEFT = 0%Z ∧
         Z.land (key_state j'') KEYPAD_RIGHT = 0%Z).
Proof.
  split; [left; split_and!; reflexivity|].
  split; [reflexivity|]. split; [vm_compute; discriminate|].
  apply (read_joystick_axis_dead_zone 0 KEYPAD_LEFT KEYPAD_RIGHT zero_joystick).
  - left. split_and!; reflexivity.
  - reflexivity.
  - vm_compute. discriminate.
Defined.

Lemma joystick_is_key_seq_matches_witness :
  let j := set_key_history [4; 32; 16; 0]%Z zero_joystick in
  let seq_ := [16; 32; 4]%Z in
  length (key_history j) = KEY_HISTORY_SIZE ∧
  joystick_is_key_seq (Some j) seq_ 3 = true ∧
  ((length seq_ ≤ KEY_HISTORY_SIZE →
      joystick_is_key_seq (Some j) seq_ (length seq_) = true ↔
      ∀ k, k < length seq_ → key_history j !! (length seq_ - 1 - k) = seq_ !! k) ∧
   (KEY_HISTORY_SIZE < length seq_ →
      joystick_is_key_seq (Some j) seq_ (length seq_) = false) ∧
   (3 ≤ KEY_HISTORY_SIZE →
    KEYPAD_A ≠ KEYPAD_NONE → KEYPAD_B ≠ KEYPAD_NONE → KEYPAD_LEFT ≠ KEYPAD_NONE →
    KEYPAD_A ≠ KEYPAD_B →
    let press_A := {| value := 1; type := JS_EVENT_BUTTON; number := 1 |} in
    let press_B := {| value := 1; type := JS_EVENT_BUTTON; number := 0 |} in
    let push_LEFT := {| value := -1200; type := JS_EVENT_AXIS; number := 0 |} in
    let j3 := on_event push_LEFT (on_event press_B (on_event press_A j)) in
    joystick_is_key_seq (Some j3) [KEYPAD_A; KEYPAD_B; KEYPAD_LEFT] 3 = true ∧
    joystick_is_key_seq (Some j3) [KEYPAD_B; KEYPAD_A; KEYPAD_LEFT] 3 = false)).
Proof.
  intros j seq_. split; [reflexivity|]. split; [vm_compute; reflexivity|].
  apply (joystick_is_key_seq_matches j seq_). reflexivity.
Defined.

Lemma read_joystick_history_witness :
  udev_monitor_poll [] one_pad = Done tt one_pad ∧
  read_scan (input_on 3 press_A) (seq 0 (num_joysticks one_pad)) one_pad
  = (Some (0, press_A), one_pad) ∧
  0 < length (joysticks one_pad) ∧
  length (key_history (slot one_pad 0)) = KEY_HISTORY_SIZE ∧
  0 < KEY_HISTORY_SIZE ∧
  ∃ w', read_joystick [] (input_on 3 press_A) one_pad = Done (Some 0) w' ∧
    let old := key_history (slot one_pad 0) in
    let new := key_history (slot w' 0) in
    let pressed := last_key_val (slot w' 0) = true ∧
                   last_key_idx (slot w' 0) ≠ KEYPAD_NONE in
    (pressed →
       new !! 0 = Some (last_key_idx (slot w' 0)) ∧
       (∀ k, S k < KEY_HISTORY_SIZE → new !! S k = old !! k) ∧
       length new = KEY_HISTORY_SIZE) ∧
    (¬ pressed → new = old).
Proof.
  split; [reflexivity|]. split; [vm_compute; reflexivity|].
  split; [vm_compute; lia|]. split; [reflexivity|]. split; [vm_compute; lia|].
  apply (read_joystick_history [] (input_on 3 press_A) one_pad one_pad one_pad 0 press_A).
  - reflexivity.
  - vm_compute. reflexivity.
  - vm_compute. lia.
  - reflexivity.
  - vm_compute. lia.
Defined.

Lemma get_free_joystick_allocation_witness :
  num_joysticks one_pad ≤ length (joysticks one_pad) ∧
  get_free_joystick stale_slot = (Some 0, stale_slot) ∧
  ((∀ i, i < num_joysticks one_pad → fd (slot one_pad i) = (-1)%Z →
         (∀ k, k < i → fd (slot one_pad k) ≠ (-1)%Z) →
         get_free_joystick one_pad = (Some i, one_pad)) ∧
   ((∀ k, k < num_joysticks one_pad → fd (slot one_pad k) ≠ (-1)%Z) →
    num_joysticks one_pad < MAX_JOYSTICKS →
    ∃ w', get_free_joystick one_pad = (Some (num_joysticks one_pad), w') ∧
          num_joysticks w' = S (num_joysticks one_pad) ∧
          (num_joysticks one_pad < length (joysticks one_pad) →
           fd (slot w' (num_joysticks one_pad)) = (-1)%Z) ∧
          (∀ k, k ≠ num_joysticks one_pad → slot w' k = slot one_pad k)) ∧
   ((∀ k, k < num_joysticks one_pad → fd (slot one_pad k) ≠ (-1)%Z) →
    MAX_JOYSTICKS ≤ num_joysticks one_pad →
    get_free_joystick one_pad = (None, one_pad) ∧
    ∀ devnode_ st_rdev check_joydev r fd_,
      r_open r = SysOk fd_ → fd_ ≠ (-1)%Z →
      (check_joydev = true → ∃ v, r_version r = SysOk v ∧ v ≠ 0%Z) →
      ∃ w', open_joystick devnode_ st_rdev check_joydev r one_pad = Done false w' ∧
            errno w' = ENOMEM ∧ (fd_ ∉ open_fds w') ∧
            joysticks w' = joysticks one_pad ∧
            num_joysticks w' = num_joysticks one_pad)).
Proof.
  split; [vm_compute; lia|]. split; [vm_compute; reflexivity|].
  apply (get_free_joystick_allocation one_pad). vm_compute. lia.
Defined.

Lemma add_udev_device_duplicate_witness :
  let d := {| ud_devnode := Some "/dev/input/js7"; ud_joystick := Some "1";
              ud_action := Some "add"; ud_stat := SysOk 1%Z;
              ud_reply := pad_reply 6 1 |} in
  num_joysticks one_pad ≤ length (joysticks one_pad) ∧
  ud_devnode d = Some "/dev/input/js7" ∧ "/dev/input/js7" ≠ EmptyString ∧
  ud_stat d = SysOk 1%Z ∧ active one_pad 0 ∧ dev (slot one_pad 0) = 1%Z ∧
  add_udev_device (Some d) one_pad = Done tt one_pad.
Proof.
  intros d.
  assert (Hact : active one_pad 0).
  { split; [vm_compute; lia | vm_compute; discriminate]. }
  split; [vm_compute; lia|]. split; [reflexivity|]. split; [discriminate|].
  split; [reflexivity|]. split; [exact Hact|]. split; [reflexivity|].
  apply (add_udev_device_duplicate d "/dev/input/js7" 1 0 one_pad).
  - vm_compute. lia.
  - reflexivity.
  - discriminate.
  - reflexivity.
  - exact Hact.
  - reflexivity.
Defined.

Lemma input_reset_restores_witness :
  reachable one_pad ∧
  (num_joysticks (input_reset one_pad) = 0 ∧
   count_joysticks (input_reset one_pad) = 0%Z ∧
   (∀ i, i < num_joysticks one_pad →
         fd (slot (input_reset one_pad) i) = (-1)%Z ∧
         (fd (slot one_pad i) ≠ (-1)%Z →
          fd (slot one_pad i) ∉ open_fds (input_reset one_pad))) ∧
   udev_ctx (input_reset one_pad) = None ∧
   udev_monitor (input_reset one_pad) = None ∧
   (∀ p, udev_ctx one_pad = Some p ∨ udev_monitor one_pad = Some p →
         p ∉ udev_refs (input_reset one_pad)) ∧
   input_reset (input_reset one_pad) = input_reset one_pad ∧
   input_reset initial_world = initial_world).
Proof.
  split; [exists one_pad_calls; vm_compute; reflexivity|].
  apply (input_reset_restores one_pad).
  exists one_pad_calls. vm_compute. reflexivity.
Defined.

End example_checks.

(** * Further properties of the registry *)

Section removal.
Context `{matelight_h}.

(** The loop of [remove_udev_device] after [n] rounds: among the first
    [n] slots, the active ones stored under [path] are free and their
    descriptors closed; every other slot is as it was. *)

Lemma remove_udev_device_loop (path : string) (w : world) (n : nat) :
  let wn := for_loop n (λ i w,
              if decide (fd (slot w i) = (-1)%Z) then w
              else if decide (devnode (slot w i) = path)
              then set_slot i (set_fd (-1) (slot w i)) (sys_close (fd (slot w i)) w)
              else w) w in
  length (joysticks wn) = length (joysticks w) ∧
  num_joysticks wn = num_joysticks w ∧
  (∀ i, i < n → i < length (joysticks w) →
        fd (slot w i) ≠ (-1)%Z → devnode (slot w i) = path →
        slot wn i = set_fd (-1) (slot w i) ∧ fd (slot w i) ∉ open_fds wn) ∧
  (∀ i, n ≤ i ∨ fd (slot w i) = (-1)%Z ∨ devnode (slot w i) ≠ path →
        slot wn i = slot w i) ∧
  (∀ x, x ∈ open_fds wn → x ∈ open_fds w) ∧
  ((∀ i, i < n → fd (slot w i) = (-1)%Z ∨ devnode (slot w i) ≠ path) → wn = w).
Proof.
  induction n as [|n IH].
  { simpl. split_and!; try done. intros i Hi. lia. }
  rewrite for_loop_S. set (wn := for_loop n _ w) in *. simpl in IH.
  destruct IH as (Hlen & Hnum & Hfreed & Hkept & Hsub & Hid). simpl.
  assert (Hn : slot wn n = slot w n) by (apply Hkept; left; lia).
  rewrite Hn.
  destruct (decide (fd (slot w n) = (-1)%Z)) as [Hfd|Hfd];
    [|destruct (decide (devnode (slot w n) = path)) as [Hp|Hp]].
  - split_and!; try done.
    + intros i Hi Hil Hfdi Hpi. apply Hfreed; try done.
      destruct (decide (i = n)) as [->|]; [done | lia].
    + intros i [Hi|Hi]; apply Hkept; [left; lia | by right].
    + intros Hall. apply Hid. intros i Hi. apply Hall. lia.
  - set (w1 := sys_close (fd (slot w n)) wn).
    pose proof (same_table_sys_close (fd (slot w n)) wn) as (Hj1 & Hn1 & _).
    fold w1 in Hj1, Hn1.
    assert (Hs1 : ∀ k, slot w1 k = slot wn k) by (intros k; unfold slot; by rewrite Hj1).
    split_and!.
    + simpl. rewrite length_insert. by rewrite Hj1.
    + simpl. by rewrite Hn1.
    + intros i Hi Hil Hfdi Hpi. destruct (decide (i = n)) as [->|Hne].
      * rewrite slot_set_slot_eq by (rewrite Hj1; lia). split; [done|].
        simpl. apply sys_close_closed.
      * rewrite slot_set_slot_ne, Hs1 by done.
        destruct (Hfreed i) as [Hs Hc]; try done; [lia|].
        split; [done|]. simpl. intros Hin. apply Hc. by eapply sys_close_subseteq.
    + intros i Hi. assert (i ≠ n).
      { intros ->. destruct Hi as [Hi|[Hi|Hi]]; [lia | done | done]. }
      rewrite slot_set_slot_ne, Hs1 by done. apply Hkept.
      destruct Hi as [Hi|Hi]; [left; lia | by right].
    + intros x Hx. simpl in Hx. apply Hsub. by eapply sys_close_subseteq.
    + intros Hall. destruct (Hall n ltac:(lia)); done.
  - split_and!; try done.
    + intros i Hi Hil Hfdi Hpi. apply Hfreed; try done.
      destruct (decide (i = n)) as [->|]; [done | lia].
    + intros i [Hi|Hi]; apply Hkept; [left; lia | by right].
    + intros Hall. apply Hid. intros i Hi. apply Hall. lia.
Qed.

(** X1. [remove_udev_device] for a device node [path]: every active slot
    stored under [path] becomes free, keeps its other fields, and its
    descriptor is closed; every other slot, the counter and the table
    size are untouched; and when no active slot is stored under [path]
    the whole state is what it was. *)

Theorem remove_udev_device_frees (d : udev_device) (path : string) (w : world) :
  ud_devnode d = Some path → path ≠ EmptyString →
  num_joysticks w ≤ length (joysticks w) →
  let w' := remove_udev_device (Some d) w in
  num_joysticks w' = num_joysticks w ∧
  length (joysticks w') = length (joysticks w) ∧
  (∀ i, active w i → devnode (slot w i) = path →
        slot w' i = set_fd (-1) (slot w i) ∧ fd (slot w i) ∉ open_fds w') ∧
  (∀ i, ¬ (active w i ∧ devnode (slot w i) = path) → slot w' i = slot w i) ∧
  ((∀ i, active w i → devnode (slot w i) ≠ path) → w' = w).
Proof.
  intros Hnode Hne Hn. unfold remove_udev_device. rewrite Hnode.
  destruct path as [|c s]; [done|].
  pose proof (remove_udev_device_loop (String c s) w (num_joysticks w))
    as (Hlen & Hnum & Hfreed & Hkept & _ & Hid).
  simpl in Hlen, Hnum, Hfreed, Hkept, Hid. cbv zeta.
  split; [done|]. split; [done|]. split; [|split].
  - intros i [Hi Hfd] Hp. apply Hfreed; try done. lia.
  - intros i Hnot. apply Hkept.
    destruct (decide (num_joysticks w ≤ i)); [by left | right].
    destruct (decide (fd (slot w i) = (-1)%Z)); [by left | right].
    intros Hp. apply Hnot. split; [split; [lia | done] | done].
  - intros Hall. apply Hid. intros i Hi.
    destruct (decide (fd (slot w i) = (-1)%Z)); [by left | right].
    apply Hall. by split.
Qed.

(** Counting the slots of a range that satisfy a predicate. *)

Lemma filter_length_ext (P Q : nat → Prop) `{∀ x, Decision (P x)}
    `{∀ x, Decision (Q x)} (l : list nat) :
  (∀ x, x ∈ l → (P x ↔ Q x)) → length (filter P l) = length (filter Q l).
Proof.
  induction l as [|a l IH]; intros Hext; [done|].
  rewrite !filter_cons.
  assert (Ha : P a ↔ Q a) by (apply Hext; left).
  assert (IH' : length (filter P l) = length (filter Q l)).
  { apply IH. intros x Hx. apply Hext. by right. }
  destruct (decide (P a)), (decide (Q a)); simpl; try lia; tauto.
Qed.

Lemma filter_length_le (P Q : nat → Prop) `{∀ x, Decision (P x)}
    `{∀ x, Decision (Q x)} (l : list nat) :
  (∀ x, x ∈ l → P x → Q x) → length (filter P l) ≤ length (filter Q l).
Proof.
  induction l as [|a l IH]; intros Himp; [done|].
  rewrite !filter_cons.
  assert (Ha : P a → Q a) by (apply Himp; left).
  assert (IH' : length (filter P l) ≤ length (filter Q l)).
  { apply IH. intros x Hx. apply Himp. by right. }
  destruct (decide (P a)), (decide (Q a)); simpl; try lia; tauto.
Qed.

Lemma seq_split (n i : nat) :
  i < n → seq 0 n = seq 0 i ++ i :: seq (S i) (n - S i).
Proof.
  intros Hi. assert (Hn : n = i + S (n - S i)) by lia.
  rewrite Hn at 1. by rewrite seq_app.
Qed.

Lemma filter_seq_one_more (P Q : nat → Prop) `{∀ x, Decision (P x)}
    `{∀ x, Decision (Q x)} (n i : nat) :
  i < n → ¬ P i → Q i → (∀ k, k ≠ i → (P k ↔ Q k)) →
  length (filter Q (seq 0 n)) = S (length (filter P (seq 0 n))).
Proof.
  intros Hi HP HQ Hext. rewrite (seq_split n i Hi), !filter_app, !filter_cons.
  rewrite (decide_True (P := Q i)), (decide_False (P := P i)) by done.
  rewrite !length_app. simpl.
  rewrite (filter_length_ext P Q (seq 0 i)), (filter_length_ext P Q (seq (S i) _)).
  - lia.
  - intros x Hx%elem_of_seq. apply Hext. lia.
  - intros x Hx%elem_of_seq. apply Hext. lia.
Qed.

Lemma filter_seq_fewer (P Q : nat → Prop) `{∀ x, Decision (P x)}
    `{∀ x, Decision (Q x)} (n i : nat) :
  i < n → ¬ P i → Q i → (∀ k, P k → Q k) →
  length (filter P (seq 0 n)) < length (filter Q (seq 0 n)).
Proof.
  intros Hi HP HQ Himp. rewrite (seq_split n i Hi), !filter_app, !filter_cons.
  rewrite (decide_True (P := Q i)), (decide_False (P := P i)) by done.
  rewrite !length_app. simpl.
  pose proof (filter_length_le P Q (seq 0 i) (λ x _, Himp x)).
  pose proof (filter_length_le P Q (seq (S i) (n - S i)) (λ x _, Himp x)).
  lia.
Qed.

Lemma open_joystick_true_count (devnode_ : string) (st_rdev : Z)
    (check_joydev : bool) (r : device_reply) (w w' : world) :
  invariant w →
  open_joystick devnode_ st_rdev check_joydev r w = Done true w' →
  count_joysticks w' = (count_joysticks w + 1)%Z.
Proof.
  intros Hinv Hopen.
  destruct (open_joystick_populated _ _ _ _ _ _ Hinv Hopen)
    as (i & Hi & Hlt & Hcase & Hlow & Hfd & _ & _ & _ & _ & _ & _ & _ & Hother).
  assert (Hfdk : ∀ k, k ≠ i → fd (slot w' k) = fd (slot w k)).
  { intros k Hk. rewrite (Hother k Hk). by case_decide. }
  rewrite !count_joysticks_filter.
  destruct Hcase as [(Hiw & Hfree & Hnum)|[-> Hnum]]; rewrite Hnum.
  - rewrite (filter_seq_one_more (λ k, fd (slot w k) ≠ (-1)%Z)
               (λ k, fd (slot w' k) ≠ (-1)%Z) _ i); try done; [lia | |].
    + intros Hne. by apply Hne.
    + intros k Hk. by rewrite Hfdk.
  - rewrite seq_S, filter_app, length_app. simpl.
    rewrite filter_cons, decide_True by done. simpl.
    rewrite (filter_length_ext (λ k, fd (slot w' k) ≠ (-1)%Z)
               (λ k, fd (slot w k) ≠ (-1)%Z)); [lia|].
    intros k Hk%elem_of_seq. rewrite Hfdk by lia. done.
Qed.

Lemma count_joysticks_same_table (w w' : world) :
  same_table w w' → count_joysticks w' = count_joysticks w.
Proof. intros (Hj & Hn & _). unfold count_joysticks, slot. by rewrite Hj, Hn. Qed.

(** X2. From a reachable state, an [open_joystick] that returns [true]
    makes [count_joysticks] exactly one larger, and one that returns
    [false] leaves it as it was. *)

Theorem open_joystick_count (devnode_ : string) (st_rdev : Z) (check_joydev : bool)
    (r : device_reply) (w w' : world) (ok : bool) :
  reachable w →
  open_joystick devnode_ st_rdev check_joydev r w = Done ok w' →
  count_joysticks w' = (count_joysticks w + (if ok then 1 else 0))%Z.
Proof.
  intros Hreach Hopen. pose proof (reachable_invariant w Hreach) as Hinv.
  destruct ok.
  - by eapply open_joystick_true_count.
  - apply open_joystick_false in Hopen.
    rewrite (count_joysticks_same_table w w') by done. lia.
Qed.

End removal.

(** * Further properties of the event decoder *)

Section events.
Context `{matelight_h}.

Ltac testbits :=
  repeat first [ rewrite Z.land_spec | rewrite Z.lor_spec
               | rewrite Z.lnot_spec by lia | rewrite Z.bits_0 ].

Lemma joystick_is_key_seq_lookup (j : joystick) (s : list Z) :
  length (key_history j) = KEY_HISTORY_SIZE → length s ≤ KEY_HISTORY_SIZE →
  joystick_is_key_seq (Some j) s (length s) = true ↔
  ∀ k, k < length s → key_history j !! (length s - 1 - k) = s !! k.
Proof.
  intros Hl HL. unfold joystick_is_key_seq.
  rewrite decide_False by lia.
  rewrite key_seq_loop_spec by lia.
  split; intros Hall k Hk.
  - rewrite (list_lookup_lookup_total_lt (key_history j)) by lia.
    rewrite (list_lookup_lookup_total_lt s) by lia.
    f_equal. apply Hall. lia.
  - specialize (Hall k ltac:(lia)).
    rewrite (list_lookup_lookup_total_lt (key_history j)) in Hall by lia.
    rewrite (list_lookup_lookup_total_lt s) in Hall by lia.
    congruence.
Qed.

Lemma on_event_history (e : js_event) (j : joystick) :
  length (key_history j) = KEY_HISTORY_SIZE →
  key_history (on_event e j)
  = take KEY_HISTORY_SIZE
      ((if decide (last_key_idx (decode_event e j) ≠ KEYPAD_NONE ∧
                   last_key_val (decode_event e j) = true)
        then [last_key_idx (decode_event e j)] else []) ++ key_history j).
Proof.
  intros Hlen. case_decide as Hp.
  - destruct Hp as [Hk Hv].
    destruct (decide (KEY_HISTORY_SIZE = 0)) as [H0|H0].
    + rewrite H0, take_0. apply nil_length_inv.
      rewrite on_event_length by done. done.
    + rewrite on_event_pressed by (done || lia). simpl.
      destruct KEY_HISTORY_SIZE as [|n]; [done|]. simpl.
      by rewrite Nat.sub_0_r.
  - simpl. rewrite take_ge by lia. unfold on_event, push_history.
    destruct (bool_decide _ && _) eqn:Hb.
    + apply andb_true_iff in Hb as [Hk%bool_decide_eq_true Hv]. by destruct Hp.
    + apply decode_event_key_history.
Qed.

Lemma on_events_length (es : list js_event) (j : joystick) :
  length (key_history j) = KEY_HISTORY_SIZE →
  length (key_history (on_events es j)) = KEY_HISTORY_SIZE.
Proof.
  revert j. induction es as [|e es IH]; intros j Hlen; [done|].
  change (on_events (e :: es) j) with (on_events es (on_event e j)).
  by apply IH, on_event_length.
Qed.

Lemma on_events_history (es : list js_event) (j : joystick) :
  length (key_history j) = KEY_HISTORY_SIZE →
  key_history (on_events es j)
  = take KEY_HISTORY_SIZE (reverse (presses es j) ++ key_history j).
Proof.
  revert j. induction es as [|e es IH]; intros j Hlen.
  { simpl. by rewrite take_ge by lia. }
  assert (Hlen1 : length (key_history (on_event e j)) = KEY_HISTORY_SIZE)
    by by apply on_event_length.
  change (on_events (e :: es) j) with (on_events es (on_event e j)).
  rewrite (IH (on_event e j) Hlen1), (on_event_history e j Hlen). cbn [presses].
  set (new := if decide _ then _ else _).
  rewrite reverse_app, <- (assoc_L (++)).
  rewrite !(take_app (reverse (presses es (on_event e j)))).
  f_equal. rewrite take_take. f_equal. lia.
  assert (Hrev : reverse new = new) by (unfold new; by case_decide).
  by rewrite Hrev.
Qed.

(** X3. The history after any run of events read from a slot is the
    presses those events made, newest first, followed by the older
    history, cut at [KEY_HISTORY_SIZE]: releases, dead-zone samples and
    unmapped events leave no trace in it. *)

Theorem key_history_records_presses (es : list js_event) (j : joystick) :
  length (key_history j) = KEY_HISTORY_SIZE →
  key_history (on_events es j)
  = take KEY_HISTORY_SIZE (reverse (presses es j) ++ key_history j) ∧
  length (key_history (on_events es j)) = KEY_HISTORY_SIZE.
Proof.
  intros Hlen. split.
  - by apply on_events_history.
  - by apply on_events_length.
Qed.

(** X4. Once at least [L] presses have been read from a slot, with
    [L <= KEY_HISTORY_SIZE], [joystick_is_key_seq] accepts a sequence of
    length [L] exactly when it is the last [L] presses, oldest first. *)

Theorem joystick_is_key_seq_last_presses (es : list js_event) (j : joystick)
    (s : list Z) :
  length (key_history j) = KEY_HISTORY_SIZE →
  length s ≤ KEY_HISTORY_SIZE → length s ≤ length (presses es j) →
  joystick_is_key_seq (Some (on_events es j)) s (length s) = true ↔
  s = drop (length (presses es j) - length s) (presses es j).
Proof.
  intros Hlen HL Hps.
  pose proof (on_events_history es j Hlen) as Hh.
  pose proof (on_events_length es j Hlen) as Hl.
  rewrite joystick_is_key_seq_lookup by done.
  set (ps := presses es j) in *. set (L := length s) in *.
  assert (Hidx : ∀ k, k < L →
    key_history (on_events es j) !! (L - 1 - k) = drop (length ps - L) ps !! k).
  { intros k Hk. rewrite Hh, lookup_take_lt by lia.
    rewrite lookup_app_l by (rewrite length_reverse; lia).
    rewrite reverse_lookup by lia. rewrite lookup_drop. f_equal. lia. }
  split.
  - intros Hall. apply list_eq. intros k.
    destruct (decide (k < L)) as [Hk|Hk].
    + rewrite <- Hidx by done. symmetry. by apply Hall.
    + rewrite !lookup_ge_None_2; [done | rewrite length_drop; lia | unfold L in Hk; lia].
  - intros Heq k Hk. rewrite Hidx by done. by rewrite <- Heq.
Qed.

(** X5. A button event on one of the four mapped indices (8 SELECT,
    9 START, 0 B, 1 A): the last key is that key, pressed exactly when
    the value is non-zero; a press sets the bits of the key and pushes it
    on the history, a release clears them and leaves the history; no
    other bit of [key_state] changes. *)

Theorem read_joystick_button (button k : Z) (e : js_event) (j : joystick) :
  (button = 8%Z ∧ k = KEYPAD_SELECT) ∨ (button = 9%Z ∧ k = KEYPAD_START) ∨
  (button = 0%Z ∧ k = KEYPAD_B) ∨ (button = 1%Z ∧ k = KEYPAD_A) →
  k ≠ KEYPAD_NONE →
  length (key_history j) = KEY_HISTORY_SIZE → 0 < KEY_HISTORY_SIZE →
  Z.land (type e) (Z.lnot JS_EVENT_INIT) = JS_EVENT_BUTTON → number e = button →
  let j' := on_event e j in
  last_key_idx j' = k ∧
  last_key_val j' = bool_decide (value e ≠ 0%Z) ∧
  Z.land (key_state j') (Z.lnot k) = Z.land (key_state j) (Z.lnot k) ∧
  (value e ≠ 0%Z →
     Z.land (key_state j') k = k ∧
     key_history j' = k :: take (KEY_HISTORY_SIZE - 1) (key_history j)) ∧
  (value e = 0%Z →
     Z.land (key_state j') k = 0%Z ∧ key_history j' = key_history j).
Proof.
  intros Hmap Hk Hlen Hpos Ht Hn j'.
  assert (Hdec : decode_event e j
    = (let v := bool_decide (value e ≠ 0%Z) in
       let j0 := set_last_key k v j in
       if v then set_key_state (set_bits (key_state j0) k) j0
       else set_key_state (clear_bits (key_state j0) k) j0)).
  { unfold decode_event. rewrite Ht, decide_True by done. rewrite Hn.
    destruct Hmap as [[-> ->]|[[-> ->]|[[-> ->]|[-> ->]]]]; simpl;
      by rewrite decide_True by done. }
  assert (Hidx : last_key_idx (decode_event e j) = k
               ∧ last_key_val (decode_event e j) = bool_decide (value e ≠ 0%Z)).
  { rewrite Hdec. by destruct (bool_decide (value e ≠ 0%Z)). }
  destruct Hidx as [Hidx Hval].
  destruct (push_history_last_key (decode_event e j)) as (Hpi & Hpv & Hps).
  unfold j', on_event. rewrite Hpi, Hpv, Hps, Hidx, Hval.
  split; [done|]. split; [done|]. split; [|split].
  - rewrite Hdec. unfold set_bits, clear_bits.
    destruct (bool_decide (value e ≠ 0%Z)); simpl;
      apply Z.bits_inj'; intros n Hn0; testbits;
      destruct (Z.testbit (key_state j) n), (Z.testbit k n); done.
  - intros Hv. split.
    + rewrite Hdec, bool_decide_eq_true_2 by done. simpl. unfold set_bits.
      apply Z.bits_inj'; intros n Hn0; testbits.
      destruct (Z.testbit (key_state j) n), (Z.testbit k n); done.
    + fold (on_event e j). rewrite on_event_pressed; try done.
      * by rewrite Hidx.
      * by rewrite Hidx.
      * rewrite Hval. by apply bool_decide_eq_true_2.
  - intros Hv. split.
    + rewrite Hdec, bool_decide_eq_false_2 by (intros Hne; by apply Hne). simpl.
      unfold clear_bits. apply Z.bits_inj'; intros n Hn0; testbits.
      destruct (Z.testbit (key_state j) n), (Z.testbit k n); done.
    + unfold push_history. rewrite Hval.
      rewrite (bool_decide_eq_false_2 (value e ≠ 0%Z)) by (intros Hne; by apply Hne).
      rewrite andb_false_r. apply decode_event_key_history.
Qed.

(** X6. An event that is neither a button of index 0, 1, 8 or 9 nor an
    axis of index 0 or 1 reports the last key [KEYPAD_NONE], not pressed,
    and changes nothing else of the slot: key state, history, descriptor
    and player are what they were. *)

Theorem read_joystick_unmapped (e : js_event) (j : joystick) :
  let t := Z.land (type e) (Z.lnot JS_EVENT_INIT) in
  (t = JS_EVENT_BUTTON → number e ≠ 8%Z ∧ number e ≠ 9%Z ∧
                          number e ≠ 0%Z ∧ number e ≠ 1%Z) →
  (t = JS_EVENT_AXIS → number e ≠ 0%Z ∧ number e ≠ 1%Z) →
  on_event e j = set_last_key KEYPAD_NONE false j.
Proof.
  intros t Hb Ha. unfold on_event.
  assert (Hdec : decode_event e j = set_last_key KEYPAD_NONE false j).
  { unfold decode_event. fold t.
    destruct (decide (t = JS_EVENT_BUTTON)) as [Hbt|_].
    - destruct (Hb Hbt) as (? & ? & ? & ?).
      rewrite !(decide_False (P := number e = _)) by done.
      by rewrite decide_False by (intros Hne; by apply Hne).
    - destruct (decide (t = JS_EVENT_AXIS)) as [Hat|_]; [|done].
      destruct (Ha Hat) as (? & ?).
      by rewrite !(decide_False (P := number e = _)) by done. }
  rewrite Hdec. unfold push_history. simpl.
  by rewrite andb_false_r.
Qed.

(** X7. The [JS_EVENT_INIT] flag is ignored: an event and the same event
    with the flag set are decoded alike. *)

Theorem read_joystick_init_flag (e : js_event) (j : joystick) :
  on_event {| value := value e; type := Z.lor (type e) JS_EVENT_INIT;
              number := number e |} j
  = on_event e j.
Proof.
  assert (Hmask : Z.land (Z.lor (type e) JS_EVENT_INIT) (Z.lnot JS_EVENT_INIT)
                  = Z.land (type e) (Z.lnot JS_EVENT_INIT)).
  { apply Z.bits_inj'; intros n Hn. testbits.
    destruct (Z.testbit (type e) n), (Z.testbit JS_EVENT_INIT n); done. }
  unfold on_event. f_equal. unfold decode_event. simpl. rewrite Hmask.
  unfold decode_axis. simpl. reflexivity.
Qed.

End events.

(** * Further properties of [read_joystick] and of the hotplug path *)

Section polling.
Context `{matelight_h}.

(** A slot that the scan of [read_joystick] passes over: it is free, or
    its descriptor has no whole event. *)

Lemma read_scan_none reads (idx : list nat) (w : world) :
  (∀ k, k ∈ idx →
        fd (slot w k) = (-1)%Z ∨ ∀ e, reads (fd (slot w k)) ≠ SysOk (Some e)) →
  ∃ w', read_scan reads idx w = (None, w') ∧ errno_only w w'.
Proof.
  revert w. induction idx as [|i rest IH]; intros w Hnone; simpl.
  { eexists. split; [done | apply errno_only_refl]. }
  assert (Hrest : ∀ k, k ∈ rest →
    fd (slot w k) = (-1)%Z ∨ ∀ e, reads (fd (slot w k)) ≠ SysOk (Some e)).
  { intros k Hk. apply Hnone. by right. }
  case_decide as Hfd; [by apply IH|].
  destruct (Hnone i) as [?|Hno]; [by left | done |].
  destruct (reads (fd (slot w i))) as [e|[event|]] eqn:Hrd.
  - destruct (IH (set_errno e w) Hrest) as (w' & Hscan & Herr).
    exists w'. split; [done|].
    eapply errno_only_trans; [apply errno_only_set_errno | done].
  - by destruct (Hno event).
  - by apply IH.
Qed.

Lemma read_scan_first reads (before after : list nat) (i : nat) (e : js_event)
    (w : world) :
  (∀ k, k ∈ before →
        fd (slot w k) = (-1)%Z ∨ ∀ e, reads (fd (slot w k)) ≠ SysOk (Some e)) →
  fd (slot w i) ≠ (-1)%Z → reads (fd (slot w i)) = SysOk (Some e) →
  ∃ w', read_scan reads (before ++ i :: after) w = (Some (i, e), w') ∧
        errno_only w w'.
Proof.
  revert w. induction before as [|k rest IH]; intros w Hnone Hfd Hrd; simpl.
  { rewrite decide_False by done. rewrite Hrd.
    eexists. split; [done | apply errno_only_refl]. }
  assert (Hrest : ∀ x, x ∈ rest →
    fd (slot w x) = (-1)%Z ∨ ∀ e, reads (fd (slot w x)) ≠ SysOk (Some e)).
  { intros x Hx. apply Hnone. by right. }
  case_decide as Hfdk; [by apply IH|].
  destruct (Hnone k) as [?|Hno]; [by left | done |].
  destruct (reads (fd (slot w k))) as [err|[event|]] eqn:Hrdk.
  - destruct (IH (set_errno err w) Hrest Hfd Hrd) as (w' & Hscan & Herr).
    exists w'. split; [done|].
    eapply errno_only_trans; [apply errno_only_set_errno | done].
  - by destruct (Hno event).
  - by apply IH.
Qed.

(** X8. After the hotplug poll, [read_joystick] serves the active slot
    of lowest index whose descriptor delivers a whole event: it returns
    that slot, applies the event to it, and changes no other slot, nor
    the counter, nor the open descriptors.  When no active slot delivers
    one it returns [false] and changes nothing but [errno]. *)

Theorem read_joystick_first_ready pending reads (w w1 : world) :
  udev_monitor_poll pending w = Done tt w1 →
  num_joysticks w1 ≤ length (joysticks w1) →
  (∀ i e,
     i < num_joysticks w1 → fd (slot w1 i) ≠ (-1)%Z →
     reads (fd (slot w1 i)) = SysOk (Some e) →
     (∀ k, k < i → fd (slot w1 k) = (-1)%Z ∨
                   ∀ e', reads (fd (slot w1 k)) ≠ SysOk (Some e')) →
     ∃ w', read_joystick pending reads w = Done (Some i) w' ∧
           slot w' i = on_event e (slot w1 i) ∧
           (∀ k, k ≠ i → slot w' k = slot w1 k) ∧
           num_joysticks w' = num_joysticks w1 ∧
           open_fds w' = open_fds w1) ∧
  ((∀ k, k < num_joysticks w1 →
         fd (slot w1 k) = (-1)%Z ∨
         ∀ e', reads (fd (slot w1 k)) ≠ SysOk (Some e')) →
   ∃ w', read_joystick pending reads w = Done None w' ∧ errno_only w1 w').
Proof.
  intros Hpoll Hlen. split.
  - intros i e Hi Hfd Hrd Hbefore.
    destruct (read_scan_first reads (seq 0 i) (seq (S i) (num_joysticks w1 - S i))
                i e w1) as (w2 & Hscan & Herr); try done.
    { intros k Hk%elem_of_seq. apply Hbefore. lia. }
    rewrite <- seq_split in Hscan by done.
    pose proof (errno_only_same_table _ _ Herr) as (Hj & Hn & _).
    pose proof (errno_only_open_fds _ _ Herr) as Ho.
    destruct (read_joystick_slot pending reads w w1 w2 i e Hpoll Hscan)
      as (w' & Hread & Hslot & Hother).
    { rewrite Hj. lia. }
    assert (Hs : ∀ k, slot w2 k = slot w1 k) by (intros k; unfold slot; by rewrite Hj).
    exists w'. split; [done|]. rewrite Hslot, Hs. split; [done|].
    split; [intros k Hk; by rewrite Hother, Hs|].
    revert Hread. unfold read_joystick. rewrite Hpoll. simpl.
    case_decide; [lia|]. rewrite Hscan. intros [= <-]. simpl. done.
  - intros Hnone.
    destruct (read_scan_none reads (seq 0 (num_joysticks w1)) w1) as (w2 & Hscan & Herr).
    { intros k Hk%elem_of_seq. apply Hnone. lia. }
    unfold read_joystick. rewrite Hpoll. simpl.
    case_decide as Hz.
    + exists w1. split; [done | apply errno_only_refl].
    + rewrite Hscan. by exists w2.
Qed.

(** *** Process exit *)

Lemma open_joystick_no_exit (devnode_ : string) (st_rdev : Z) (check_joydev : bool)
    (r : device_reply) (w : world) :
  open_joystick devnode_ st_rdev check_joydev r w ≠ Abort ProcessExit.
Proof.
  destruct (open_joystick_stages devnode_ st_rdev check_joydev r w)
    as (fd_ & w1 & Hsys & Hfail & Hrest).
  destruct (decide (fd_ = (-1)%Z)) as [Hfd|Hfd]; [by rewrite Hfail|].
  destruct (Hrest Hfd) as (w3 & rc & version & w4 & H3 & Hprobe & Hcont).
  destruct (check_joydev && bool_decide (rc < 0)%Z); [by rewrite Hcont|].
  destruct (check_joydev && bool_decide (version = 0%Z)); [by rewrite Hcont|].
  destruct Hcont as (axes_ & buttons_ & name_ & w7 & H7 & ->).
  destruct (get_free_joystick w7) as [[i|] w8]; [|done].
  simpl. by case_decide.
Qed.

Lemma add_udev_device_no_exit (dev_ : option udev_device) (w : world) :
  add_udev_device dev_ w ≠ Abort ProcessExit.
Proof.
  unfold add_udev_device. destruct dev_ as [d|]; [|done].
  destruct (ud_devnode d) as [[|c s]|]; [done| |done].
  destruct (sys_ioctl (ud_stat d) 0%Z w) as [[rc st_rdev] w1].
  case_decide; [done|]. destruct (list_find _ _); [done|].
  pose proof (open_joystick_no_exit (String c s) st_rdev true (ud_reply d) w1) as Hne.
  destruct (open_joystick _ _ _ _ _) as [b w2|a]; [done|].
  simpl. by destruct a.
Qed.

Lemma udev_monitor_poll_no_exit (pending : list (option udev_device)) (w : world) :
  udev_monitor_poll pending w ≠ Abort ProcessExit.
Proof.
  unfold udev_monitor_poll. destruct (udev_ctx w), (udev_monitor w); try done.
  revert w. induction pending as [|[d|] rest IH]; intros w; simpl; [done| |done].
  assert (Hd : udev_dispatch d w ≠ Abort ProcessExit).
  { unfold udev_dispatch.
    destruct (ud_joystick d), (ud_action d); try done.
    repeat case_decide; try done; apply add_udev_device_no_exit. }
  destruct (udev_dispatch d w) as [[] w1|a]; simpl; [apply IH | by destruct a].
Qed.

(** X9. [read_joystick] never ends the process: whatever the hotplug
    notifications and the devices answer, a device that cannot be opened
    or is not a joystick is skipped.  (The only other way the call does
    not return is the write past the table in [open_joystick].) *)

Theorem read_joystick_never_exits (pending : list (option udev_device))
    (reads : Z → sys_reply (option js_event)) (w : world) :
  read_joystick pending reads w ≠ Abort ProcessExit.
Proof.
  unfold read_joystick.
  pose proof (udev_monitor_poll_no_exit pending w) as Hpoll.
  destruct (udev_monitor_poll pending w) as [[] w1|a]; simpl; [|by destruct a].
  case_decide; [done|].
  by destruct (read_scan reads _ w1) as [[[i event]|] w2].
Qed.

End polling.

(** * Further properties of [open_joystick] and its callers *)

Section opening.
Context `{matelight_h}.

Lemma sys_ioctl_default {A : Type} (r : sys_reply A) (out d : A) (w : world)
    rc v w' :
  sys_ioctl r out w = (rc, v, w') →
  (if decide (rc < 0)%Z then d else v) = reply_or r d.
Proof. destruct r; intros [= <- <- _]; done. Qed.

Lemma sys_ioctl_probe (r : sys_reply Z) (w : world) rc v w' :
  sys_ioctl r 0%Z w = (rc, v, w') →
  (bool_decide (rc < 0)%Z = true ↔ ∃ e, r = SysErr e) ∧
  (bool_decide (rc < 0)%Z = false → r = SysOk v).
Proof.
  destruct r as [e|x]; intros [= <- <- _]; split; try done.
  - split; [eauto | done].
  - split; [done | by intros [e ?]].
Qed.

(** A successful [open_joystick], with what it stores in the slot. *)

Lemma open_joystick_true_fields (devnode_ : string) (st_rdev : Z)
    (check_joydev : bool) (r : device_reply) (w w' : world) :
  open_joystick devnode_ st_rdev check_joydev r w = Done true w' →
  ∃ fd_ w7 i w8,
    r_open r = SysOk fd_ ∧ fd_ ≠ (-1)%Z ∧
    (check_joydev = true → ∃ v, r_version r = SysOk v ∧ v ≠ 0%Z) ∧
    same_table w w7 ∧ udev_refs w7 = udev_refs w ∧
    open_fds w7 = fd_ :: open_fds w ∧
    get_free_joystick w7 = (Some i, w8) ∧
    num_joysticks w8 < MAX_JOYSTICKS ∧
    let j := {| fd := fd_;
                devnode := strncpy devnode_ DEVNODE_SIZE;
                dev := st_rdev;
                axes := reply_or (r_axes r) 0%Z;
                buttons := reply_or (r_buttons r) 0%Z;
                name := reply_or (r_name r) EmptyString;
                player := get_available_player w8;
                key_state := 0;
                last_key_idx := KEYPAD_NONE;
                last_key_val := false;
                key_history := key_history (slot w8 i) |} in
    let w9 := set_slot i j w8 in
    w' = set_slot (num_joysticks w8)
           (set_key_history zero_history (slot w9 (num_joysticks w8))) w9.
Proof.
  unfold open_joystick.
  destruct (r_open r) as [e|fd_] eqn:Hopen; simpl; [done|].
  case_decide as Hfd; [done|].
  set (w1 := set_open_fds (fd_ :: open_fds w) w).
  destruct (sys_call (r_getfl r) w1) as [opt w2] eqn:Hgetfl.
  apply errno_only_sys_call in Hgetfl.
  set (w3 := if decide (0 ≤ opt)%Z then _ else w2).
  assert (H3 : errno_only w1 w3).
  { unfold w3. case_decide; [|done].
    destruct (sys_ioctl (r_setfl r) () w2) as [[rc0 u] w2'] eqn:Hsetfl.
    apply errno_only_sys_ioctl in Hsetfl. simpl.
    by eapply errno_only_trans. }
  clearbody w3.
  destruct (sys_ioctl (r_version r) 0%Z w3) as [[rc version] w4] eqn:Hver.
  pose proof (sys_ioctl_probe _ _ _ _ _ Hver) as [Hneg Hpos].
  pose proof (errno_only_sys_ioctl _ _ _ _ _ _ Hver) as H4.
  destruct (check_joydev && bool_decide (rc < 0)%Z) eqn:Hc1; [done|].
  destruct (check_joydev && bool_decide (version = 0%Z)) eqn:Hc2; [done|].
  destruct (sys_ioctl (r_axes r) 0%Z w4) as [[rc1 axes_] w5] eqn:Haxes.
  destruct (sys_ioctl (r_buttons r) 0%Z w5) as [[rc2 buttons_] w6] eqn:Hbuttons.
  destruct (sys_ioctl (r_name r) EmptyString w6) as [[rc3 name_] w7] eqn:Hname.
  rewrite (sys_ioctl_default _ _ 0%Z _ _ _ _ Haxes).
  rewrite (sys_ioctl_default _ _ 0%Z _ _ _ _ Hbuttons).
  rewrite (sys_ioctl_default _ _ EmptyString _ _ _ _ Hname).
  apply errno_only_sys_ioctl in Haxes, Hbuttons, Hname.
  assert (H7 : errno_only w1 w7) by eauto using errno_only_trans.
  destruct (get_free_joystick w7) as [[i|] w8] eqn:Hfree; [|intros ?; discriminate].
  simpl. destruct (decide (num_joysticks w8 < MAX_JOYSTICKS)) as [Hlt|]; [|done].
  intros [= <-].
  exists fd_, w7, i, w8. split; [done|]. split; [done|]. split.
  { intros ->. simpl in Hc1, Hc2.
    apply Hpos in Hc1. apply bool_decide_eq_false in Hc2. eauto. }
  rewrite H7. simpl. split; [done|]. split; [done|]. split; [done|].
  split; [by rewrite <- H7|]. split; [done|]. done.
Qed.

Lemma get_free_joystick_same_udev (w : world) :
  same_udev w (get_free_joystick w).2 ∧
  open_fds (get_free_joystick w).2 = open_fds w.
Proof.
  unfold get_free_joystick, same_udev.
  destruct (list_find _ _) as [[i x]|]; [done|]. by case_decide.
Qed.

Lemma get_free_joystick_same_table (w v : world) :
  joysticks v = joysticks w → num_joysticks v = num_joysticks w →
  (get_free_joystick v).1 = (get_free_joystick w).1 ∧
  num_joysticks (get_free_joystick v).2 = num_joysticks (get_free_joystick w).2 ∧
  joysticks (get_free_joystick v).2 = joysticks (get_free_joystick w).2.
Proof.
  intros Hj Hn. unfold get_free_joystick, slot. rewrite Hj, Hn.
  destruct (list_find _ _) as [[i x]|]; [done|].
  case_decide; simpl; by rewrite ?Hj.
Qed.

Lemma slot_set_slot_twice (w : world) (i n : nat) (j x : joystick) :
  i ≠ n → i < length (joysticks w) →
  slot (set_slot n x (set_slot i j w)) i = j.
Proof.
  intros Hne Hi. rewrite slot_set_slot_ne by done. by apply slot_set_slot_eq.
Qed.

Lemma filter_fresh (d : Z) (l : list Z) : d ∉ l → filter (λ x, x ≠ d) (d :: l) = l.
Proof.
  intros Hd. rewrite filter_cons, decide_False by (intros Hne; by apply Hne).
  induction l as [|a l IH]; [done|].
  rewrite filter_cons. apply not_elem_of_cons in Hd as [Hne Hd].
  rewrite decide_True by done. f_equal. by apply IH.
Qed.

(** X10. An [open_joystick] that returns [false] has released what it
    took, except in one case: when [open] itself failed the state is
    untouched but for [errno]; otherwise, unless the call was strict and
    the probe answered version 0, the descriptor it opened is closed
    again and the set of open descriptors is what it was. *)

Theorem open_joystick_false_releases (devnode_ : string) (st_rdev : Z)
    (check_joydev : bool) (r : device_reply) (w w' : world) :
  open_joystick devnode_ st_rdev check_joydev r w = Done false w' →
  same_table w w' ∧
  (∀ e, r_open r = SysErr e → w' = set_errno e w) ∧
  (∀ fd_, r_open r = SysOk fd_ → fd_ ≠ (-1)%Z → fd_ ∉ open_fds w →
          ¬ (check_joydev = true ∧ r_version r = SysOk 0%Z) →
          open_fds w' = open_fds w).
Proof.
  intros Hopen. split; [by eapply open_joystick_false|]. split.
  - intros e He. revert Hopen. unfold open_joystick. rewrite He. simpl.
    by intros [= <-].
  - intros fd_ Hr Hfd Hfresh Hnot.
    destruct (open_joystick_stages devnode_ st_rdev check_joydev r w)
      as (fd' & w1 & Hsys & _ & Hrest).
    rewrite Hr in Hsys. injection Hsys as <- <-.
    destruct (Hrest Hfd) as (w3 & rc & version & w4 & H3 & Hprobe & Hcont).
    pose proof (sys_ioctl_probe _ _ _ _ _ Hprobe) as [Hneg Hpos].
    assert (H4 : open_fds w4 = fd_ :: open_fds w).
    { apply errno_only_sys_ioctl in Hprobe.
      rewrite (errno_only_open_fds _ _ Hprobe), (errno_only_open_fds _ _ H3). done. }
    assert (Hclose : ∀ v, open_fds v = fd_ :: open_fds w →
                          open_fds (sys_close fd_ v) = open_fds w).
    { intros v Hv. unfold sys_close. rewrite decide_True by (rewrite Hv; left).
      simpl. rewrite Hv. by apply filter_fresh. }
    destruct (check_joydev && bool_decide (rc < 0)%Z) eqn:Hc1.
    { rewrite Hcont in Hopen. injection Hopen as <-. simpl. by apply Hclose. }
    destruct (check_joydev && bool_decide (version = 0%Z)) eqn:Hc2.
    { exfalso. apply Hnot. apply andb_true_iff in Hc2 as [-> Hv0].
      simpl in Hc1. apply Hpos in Hc1. apply bool_decide_eq_true in Hv0.
      by subst. }
    destruct Hcont as (axes_ & buttons_ & name_ & w7 & H7 & Heq).
    rewrite Heq in Hopen.
    destruct (get_free_joystick w7) as [[i|] w8] eqn:Hfree.
    { simpl in Hopen. case_decide; discriminate. }
    injection Hopen as <-. apply get_free_joystick_none in Hfree as ->.
    simpl. apply Hclose. by rewrite (errno_only_open_fds _ _ H7).
Qed.

(** X11. [open_joystick] returns [true] whenever [open] succeeds, the
    strict probe (if asked for) answers a non-zero version and the table
    has room; a failed [fcntl], a failed lax probe and failed queries for
    axes, buttons or name do not stop it.  The slot it populates holds
    the descriptor, the device number, the path cut at [DEVNODE_SIZE],
    and each queried value or its default. *)


End opening.

(** * Devices coming and going *)

Section lifecycle.
Context `{matelight_h}.

(** The slot a successful [open_joystick] has populated, in a state that
    satisfies the invariant. *)

Lemma open_joystick_slot (devnode_ : string) (st_rdev : Z) (check_joydev : bool)
    (r : device_reply) (w w' : world) :
  invariant w →
  open_joystick devnode_ st_rdev check_joydev r w = Done true w' →
  ∃ i fd_, r_open r = SysOk fd_ ∧ fd_ ≠ (-1)%Z ∧
    active w' i ∧ i < length (joysticks w') ∧
    num_joysticks w' ≤ length (joysticks w') ∧
    fd (slot w' i) = fd_ ∧ dev (slot w' i) = st_rdev ∧
    devnode (slot w' i) = strncpy devnode_ DEVNODE_SIZE.
Proof.
  intros Hinv Hopen.
  apply open_joystick_true_fields in Hopen
    as (fd_ & w7 & i & w8 & Hr & Hfd & _ & H7 & _ & _ & Hfree & Hlt & ->).
  assert (Hinv7 : invariant w7) by by eapply invariant_same_table.
  pose proof (inv_table w7 Hinv7) as [Hl7 Hn7].
  assert (Hi : i < num_joysticks w8 ∧ length (joysticks w8) = MAX_JOYSTICKS).
  { destruct (get_free_joystick_cases w7) as
      [(i' & Hi & _ & _ & Heq)|[(_ & _ & Heq)|(_ & _ & Heq)]]; [lia | | |];
      rewrite Heq in Hfree; [| |discriminate]; injection Hfree as <- <-.
    - done.
    - simpl. rewrite length_insert. split; [lia | done]. }
  destruct Hi as [Hi Hl8].
  exists i, fd_. split; [done|]. split; [done|].
  unfold active. rewrite slot_set_slot_twice by lia. simpl.
  rewrite !length_insert. split_and!; try done; lia.
Qed.

(** X12. The first device opened after [input_reset] takes slot 0 and
    player 1, and is the only one counted, whatever the table held
    before the reset. *)

Theorem open_joystick_after_reset (devnode_ : string) (st_rdev : Z)
    (check_joydev : bool) (r : device_reply) (w w' : world) :
  reachable w →
  open_joystick devnode_ st_rdev check_joydev r (input_reset w) = Done true w' →
  num_joysticks w' = 1 ∧ active w' 0 ∧
  player (slot w' 0) = 1%Z ∧ dev (slot w' 0) = st_rdev ∧
  count_joysticks w' = 1%Z.
Proof.
  intros Hreach Hopen.
  assert (Hinv : invariant (input_reset w))
    by by apply invariant_input_reset, reachable_invariant.
  pose proof (open_joystick_true_count _ _ _ _ _ _ Hinv Hopen) as Hcount.
  destruct (open_joystick_populated _ _ _ _ _ _ Hinv Hopen)
    as (i & Hi & _ & Hcase & _ & Hfd & Hdev & Hleast & _).
  rewrite input_reset_num in Hcase.
  destruct Hcase as [(Hlt & _)|[-> Hnum]]; [lia|].
  split; [done|]. split; [by split|]. split; [|split; [done|]].
  - destruct Hleast as (Hpos & _ & Hbelow).
    destruct (decide (player (slot w' 0) = 1%Z)) as [|Hne]; [done|].
    destruct (Hbelow 1%Z ltac:(lia)) as (k & [Hk _] & _).
    rewrite input_reset_num in Hk. lia.
  - rewrite Hcount. unfold count_joysticks. by rewrite input_reset_num.
Qed.

Lemma remove_udev_device_unfold (d : udev_device) (path : string) (w : world) :
  ud_devnode d = Some path → path ≠ EmptyString →
  remove_udev_device (Some d) w
  = for_loop (num_joysticks w) (λ i w,
      if decide (fd (slot w i) = (-1)%Z) then w
      else if decide (devnode (slot w i) = path)
      then set_slot i (set_fd (-1) (slot w i)) (sys_close (fd (slot w i)) w)
      else w) w.
Proof.
  intros Hnode Hne. unfold remove_udev_device. rewrite Hnode.
  by destruct path.
Qed.

(** X13. Unplugging an active device frees its player number for the
    next open: after [remove_udev_device] on its path the slot is free,
    no active slot holds its number, and [get_available_player] returns
    a number no larger than it. *)

Theorem remove_udev_device_frees_player (d : udev_device) (w : world) (i : nat) :
  reachable w → active w i →
  devnode (slot w i) ≠ EmptyString → ud_devnode d = Some (devnode (slot w i)) →
  let w' := remove_udev_device (Some d) w in
  ¬ active w' i ∧ ¬ held w' (player (slot w i)) ∧
  least_unused w' (get_available_player w') ∧
  (get_available_player w' ≤ player (slot w i))%Z.
Proof.
  intros Hreach [Hi Hfd] Hne Hnode w'.
  pose proof (reachable_invariant w Hreach) as Hinv.
  pose proof (inv_table w Hinv) as [Hl Hn].
  pose proof (released_remove_udev_device (Some d) w) as Hrel. fold w' in Hrel.
  assert (Hinv' : invariant w') by by eapply invariant_released.
  assert (Hfree : fd (slot w' i) = (-1)%Z).
  { unfold w'. rewrite (remove_udev_device_unfold d _ w Hnode Hne).
    destruct (remove_udev_device_loop (devnode (slot w i)) w (num_joysticks w))
      as (_ & _ & Hfreed & _).
    destruct (Hfreed i) as [-> _]; try done. lia. }
  assert (Hnot : ¬ held w' (player (slot w i))).
  { intros (k & Hk & Hpl).
    pose proof (released_active _ _ _ Hrel Hk) as Hkw.
    rewrite (released_player _ _ _ Hrel Hk) in Hpl.
    assert (k = i) as ->.
    { apply (inv_distinct w Hinv); [done | by split | done]. }
    by destruct Hk. }
  assert (Hleast : least_unused w' (get_available_player w')).
  { apply get_available_player_least. intros H0. by apply (inv_first w' Hinv'). }
  split; [by intros [_ ?]|]. split; [done|]. split; [done|].
  destruct Hleast as (_ & _ & Hbelow).
  destruct (decide (get_available_player w' ≤ player (slot w i))%Z); [done|].
  exfalso. apply Hnot, Hbelow.
  pose proof (inv_positive w Hinv i (conj Hi Hfd)). lia.
Qed.

Lemma substring_whole (s : string) (n : nat) :
  String.length s ≤ n → String.substring 0 n s = s.
Proof.
  revert n. induction s as [|c s IH]; intros n Hn.
  - by destruct n.
  - destruct n as [|n]; simpl in *; [lia|]. f_equal. apply IH. lia.
Qed.

(** X14. Round trip: a device opened under a path shorter than
    [DEVNODE_SIZE] and then unplugged under that path is gone again: its
    descriptor is closed and no more devices are counted than before the
    open. *)

Theorem open_then_remove (devnode_ : string) (st_rdev : Z) (check_joydev : bool)
    (r : device_reply) (d : udev_device) (w w' : world) :
  reachable w →
  open_joystick devnode_ st_rdev check_joydev r w = Done true w' →
  devnode_ ≠ EmptyString → String.length devnode_ < DEVNODE_SIZE →
  ud_devnode d = Some devnode_ →
  let w'' := remove_udev_device (Some d) w' in
  (count_joysticks w'' ≤ count_joysticks w)%Z ∧
  ∀ fd_, r_open r = SysOk fd_ → fd_ ∉ open_fds w''.
Proof.
  intros Hreach Hopen Hne Hshort Hnode w''.
  pose proof (reachable_invariant w Hreach) as Hinv.
  pose proof (open_joystick_true_count _ _ _ _ _ _ Hinv Hopen) as Hcount.
  destruct (open_joystick_slot _ _ _ _ _ _ Hinv Hopen)
    as (i & fd_ & Hr & Hfd & [Hi Hact] & Hil & Hnl & Hfdi & _ & Hpath).
  unfold strncpy in Hpath. rewrite (substring_whole devnode_) in Hpath by lia.
  unfold w''. rewrite (remove_udev_device_unfold d devnode_ w' Hnode Hne).
  destruct (remove_udev_device_loop devnode_ w' (num_joysticks w'))
    as (_ & Hnum & Hfreed & Hkept & _). simpl in Hnum, Hfreed, Hkept.
  set (v := for_loop _ _ w') in *.
  destruct (Hfreed i) as [Hsi Hclosed]; try done.
  split.
  - assert (Hlt : length (filter (λ k, fd (slot v k) ≠ (-1)%Z) (seq 0 (num_joysticks w')))
                  < length (filter (λ k, fd (slot w' k) ≠ (-1)%Z)
                              (seq 0 (num_joysticks w')))).
    { apply (filter_seq_fewer _ _ _ i); try done.
      - rewrite Hsi. simpl. intros Hx. by apply Hx.
      - intros k Hk.
        destruct (decide (k < num_joysticks w' ∧ fd (slot w' k) ≠ (-1)%Z
                          ∧ devnode (slot w' k) = devnode_)) as [(Hkn & Hkf & Hkp)|Hno].
        + done.
        + rewrite Hkept in Hk; [done|].
          destruct (decide (num_joysticks w' ≤ k)); [by left | right].
          destruct (decide (fd (slot w' k) = (-1)%Z)); [by left | right].
          intros Hp. apply Hno. split_and!; [lia | done..]. }
    rewrite (count_joysticks_filter v), Hnum.
    rewrite (count_joysticks_filter w') in Hcount. lia.
  - intros fd' Hr'. rewrite Hr in Hr'. injection Hr' as <-. by rewrite <- Hfdi.
Qed.

(** X15. The write past the table: when [open_joystick] has a descriptor
    and a slot, and the counter after the allocation is
    [MAX_JOYSTICKS] (the table was fully counted and had a free slot, or
    the allocation counted its last slot), the [memset] of
    [joysticks[num_joysticks].key_history] lies outside [joysticks]. *)

Theorem open_joystick_out_of_bounds (devnode_ : string) (st_rdev : Z)
    (check_joydev : bool) (r : device_reply) (w : world) (fd_ : Z) :
  r_open r = SysOk fd_ → fd_ ≠ (-1)%Z →
  (check_joydev = true → ∃ v, r_version r = SysOk v ∧ v ≠ 0%Z) →
  num_joysticks w ≤ length (joysticks w) →
  (num_joysticks w = MAX_JOYSTICKS ∧
   ∃ i, i < num_joysticks w ∧ fd (slot w i) = (-1)%Z) ∨
  (S (num_joysticks w) = MAX_JOYSTICKS ∧
   ∀ k, k < num_joysticks w → fd (slot w k) ≠ (-1)%Z) →
  open_joystick devnode_ st_rdev check_joydev r w = Abort OutOfBoundsWrite.
Proof.
  intros Hopen Hfd Hver Hlen Hfull.
  destruct (open_joystick_stages devnode_ st_rdev check_joydev r w)
    as (fd' & w1 & Hsys & _ & Hrest).
  rewrite Hopen in Hsys. injection Hsys as <- <-.
  destruct (Hrest Hfd) as (w3 & rc & version & w4 & H3 & Hprobe & Hcont).
  assert (Hchk : (check_joydev && bool_decide (rc < 0)%Z) = false
                 ∧ (check_joydev && bool_decide (version = 0%Z)) = false).
  { destruct check_joydev; [|done].
    destruct (Hver eq_refl) as (v & Hv & Hv0). rewrite Hv in Hprobe.
    injection Hprobe as <- <- _. simpl.
    rewrite bool_decide_eq_false_2 by done. done. }
  destruct Hchk as [Hc1 Hc2]. rewrite Hc1, Hc2 in Hcont.
  destruct Hcont as (axes_ & buttons_ & name_ & w7 & H7 & ->).
  assert (Hw7 : errno_only (set_open_fds (fd_ :: open_fds w) w) w7).
  { apply errno_only_sys_ioctl in Hprobe. eauto using errno_only_trans. }
  pose proof (errno_only_same_table _ _ Hw7) as (Hj7 & Hn7 & _).
  simpl in Hj7, Hn7.
  assert (Hs7 : ∀ k, slot w7 k = slot w k) by (intros k; unfold slot; by rewrite Hj7).
  destruct (get_free_joystick_cases w7) as
    [(i & Hi & Hfr & _ & Heq)|[(Hall & Hlt & Heq)|(Hall & Hge & Heq)]];
    [rewrite Hj7, Hn7; lia | | |]; rewrite Heq.
  - destruct Hfull as [[Hmax _]|[_ Hnone]].
    + simpl. rewrite decide_False by lia. done.
    + exfalso. apply (Hnone i); [lia | by rewrite <- Hs7].
  - destruct Hfull as [[Hmax _]|[Hmax _]]; [lia|].
    simpl. rewrite decide_False by lia. done.
  - exfalso. destruct Hfull as [[_ (i & Hi & Hfr)]|[Hmax _]]; [|lia].
    apply (Hall i); [lia | by rewrite Hs7].
Qed.

(** *** The udev handles *)

Lemma same_udev_refl w : same_udev w w.
Proof. by unfold same_udev. Qed.

Lemma same_udev_trans w1 w2 w3 : same_udev w1 w2 → same_udev w2 w3 → same_udev w1 w3.
Proof. unfold same_udev. intros (? & ? & ?) (? & ? & ?). split_and!; congruence. Qed.

Lemma errno_only_same_udev w w' : errno_only w w' → same_udev w w'.
Proof. intros ->. done. Qed.

Lemma same_udev_sys_close d w : same_udev w (sys_close d w).
Proof. unfold same_udev, sys_close. by case_decide. Qed.

Lemma open_joystick_same_udev (devnode_ : string) (st_rdev : Z)
    (check_joydev : bool) (r : device_reply) (w : world) :
  on_return (same_udev w) (open_joystick devnode_ st_rdev check_joydev r w).
Proof.
  destruct (open_joystick devnode_ st_rdev check_joydev r w) as [[|] w'|a] eqn:Hres;
    simpl; [| |done].
  - apply open_joystick_true_fields in Hres
      as (fd' & w7 & i & w8 & _ & _ & _ & (_ & _ & Hc & Hm) & Hrefs & _ & Hfree & _ & ->).
    pose proof (get_free_joystick_same_udev w7) as [(Hc8 & Hm8 & Hr8) _].
    rewrite Hfree in Hc8, Hm8, Hr8. simpl in Hc8, Hm8, Hr8.
    unfold same_udev. simpl. split_and!; congruence.
  - destruct (open_joystick_stages devnode_ st_rdev check_joydev r w)
      as (fd_ & w1 & Hsys & Hfail & Hrest).
    assert (H1 : same_udev w w1).
    { revert Hsys. unfold sys_open. destruct (r_open r); by intros [= _ <-]. }
    destruct (decide (fd_ = (-1)%Z)) as [Hfd|Hfd].
    { rewrite Hfail in Hres by done. by injection Hres as <-. }
    destruct (Hrest Hfd) as (w3 & rc & version & w4 & H3 & Hprobe & Hcont).
    assert (H4 : same_udev w w4).
    { apply errno_only_sys_ioctl in Hprobe.
      eapply same_udev_trans; [exact H1|].
      apply errno_only_same_udev. eauto using errno_only_trans. }
    assert (Hclose : ∀ v e, same_udev w v → same_udev w (set_errno e (sys_close fd_ v))).
    { intros v e Hv. eapply same_udev_trans; [exact Hv|].
      eapply same_udev_trans; [apply (same_udev_sys_close fd_)|]. done. }
    destruct (check_joydev && bool_decide (rc < 0)%Z).
    { rewrite Hcont in Hres. injection Hres as <-. by apply Hclose. }
    destruct (check_joydev && bool_decide (version = 0%Z)).
    { rewrite Hcont in Hres. injection Hres as <-.
      eapply same_udev_trans; [exact H4 | done]. }
    destruct Hcont as (axes_ & buttons_ & name_ & w7 & H7 & Heq).
    rewrite Heq in Hres.
    destruct (get_free_joystick w7) as [[i|] w8] eqn:Hfree.
    { simpl in Hres. case_decide; discriminate. }
    injection Hres as <-. apply get_free_joystick_none in Hfree as ->.
    apply Hclose. eapply same_udev_trans; [exact H4 | by apply errno_only_same_udev].
Qed.

Lemma add_udev_device_same_udev (dev_ : option udev_device) (w : world) :
  on_return (same_udev w) (add_udev_device dev_ w).
Proof.
  unfold add_udev_device. destruct dev_ as [d|]; [|apply same_udev_refl].
  destruct (ud_devnode d) as [[|c s]|]; try apply same_udev_refl.
  destruct (sys_ioctl (ud_stat d) 0%Z w) as [[rc st_rdev] w1] eqn:Hstat.
  apply errno_only_sys_ioctl, errno_only_same_udev in Hstat.
  case_decide; [done|]. destruct (list_find _ _); [done|].
  pose proof (open_joystick_same_udev (String c s) st_rdev true (ud_reply d) w1) as Ho.
  destruct (open_joystick _ _ _ _ _) as [b w2|a]; simpl in *; [|done].
  by eapply same_udev_trans.
Qed.

(** X16. [init_udev_hotplug] ends the process exactly when no udev
    context or no enumeration can be had (leaving aside the write past
    the table while opening a scanned device).  When it returns, the
    context is the new one and referenced, the monitor is the new one or
    null, and a context and monitor held before are no longer referenced.
    Without a monitor it still returns, and every later poll does
    nothing. *)

Theorem init_udev_hotplug_handles (new_ctx new_monitor : option Z)
    (scan : option (list (option udev_device))) (w : world) :
  (new_ctx = None ∨ scan = None →
   init_udev_hotplug new_ctx new_monitor scan w = Abort ProcessExit) ∧
  (new_ctx ≠ None → scan ≠ None →
   init_udev_hotplug new_ctx new_monitor scan w ≠ Abort ProcessExit) ∧
  ∀ w', init_udev_hotplug new_ctx new_monitor scan w = Done tt w' →
    udev_ctx w' = new_ctx ∧ new_ctx ≠ None ∧ udev_monitor w' = new_monitor ∧
    (∀ p, new_ctx = Some p ∨ new_monitor = Some p → p ∈ udev_refs w') ∧
    (∀ p, udev_ctx w ≠ None → udev_ctx w = Some p ∨ udev_monitor w = Some p →
          new_ctx ≠ Some p → new_monitor ≠ Some p → p ∉ udev_refs w') ∧
    (new_monitor = None → ∀ pending, udev_monitor_poll pending w' = Done tt w').
Proof.
  unfold init_udev_hotplug.
  set (w1 := match udev_ctx w with Some _ => _ | None => w end).
  assert (Hdrop : ∀ p, udev_ctx w ≠ None →
            udev_ctx w = Some p ∨ udev_monitor w = Some p → p ∉ udev_refs w1).
  { intros p Hctx Hp. unfold w1.
    destruct (udev_ctx w) as [c|] eqn:Hc; [|done].
    destruct (udev_monitor w) as [m|] eqn:Hm; simpl;
      rewrite ?list_elem_of_filter; intros Hin;
      destruct Hp as [Hp|Hp]; try discriminate; injection Hp as ->; intuition. }
  clearbody w1.
  assert (Hfold : ∀ devices w2,
    on_return (same_udev w2)
      (foldl (λ acc item,
                bind acc (λ _ w,
                  match item with
                  | Some d => add_udev_device (Some d) w
                  | None => Done tt w
                  end))
             (Done tt w2) devices) ∧
    foldl (λ acc item,
             bind acc (λ _ w,
               match item with
               | Some d => add_udev_device (Some d) w
               | None => Done tt w
               end))
          (Done tt w2) devices ≠ Abort ProcessExit).
  { assert (Hgen : ∀ devices acc w2,
      on_return (same_udev w2) acc → acc ≠ Abort ProcessExit →
      on_return (same_udev w2)
        (foldl (λ acc item,
                  bind acc (λ _ w,
                    match item with
                    | Some d => add_udev_device (Some d) w
                    | None => Done tt w
                    end))
               acc devices) ∧
      foldl (λ acc item,
               bind acc (λ _ w,
                 match item with
                 | Some d => add_udev_device (Some d) w
                 | None => Done tt w
                 end))
            acc devices ≠ Abort ProcessExit).
    { induction devices as [|item rest IH]; intros acc w2 Hacc Hne; [done|].
      cbn [foldl]. apply IH.
      - destruct acc as [[] w3|a]; [|done]. cbn [bind on_return] in *.
        destruct item as [d|]; [|done].
        pose proof (add_udev_device_same_udev (Some d) w3) as Hadd.
        destruct (add_udev_device (Some d) w3); [|done]. cbn [on_return] in *.
        by eapply same_udev_trans.
      - destruct acc as [[] w3|a]; [|done]. cbn [bind].
        destruct item as [d|]; [|done]. apply add_udev_device_no_exit. }
    intros devices w2. apply Hgen; [apply same_udev_refl | done]. }
  split; [|split].
  - intros [->| ->]; [done|]. by destruct new_ctx.
  - intros Hc Hs. destruct new_ctx as [ctx|]; [|done].
    destruct scan as [devices|]; [|done]. apply Hfold.
  - intros w' Hres. destruct new_ctx as [ctx|]; [|done].
    destruct scan as [devices|]; [|done].
    set (w2 := match new_monitor with Some _ => _ | None => _ end) in Hres.
    destruct (Hfold devices w2) as [Hsame _]. rewrite Hres in Hsame.
    destruct Hsame as (Hc & Hm & Hr). rewrite Hc, Hm, Hr.
    assert (H2 : udev_ctx w2 = Some ctx ∧ udev_monitor w2 = new_monitor ∧
                 udev_refs w2 = match new_monitor with
                                | Some m => m :: ctx :: udev_refs w1
                                | None => ctx :: udev_refs w1
                                end).
    { unfold w2. by destruct new_monitor. }
    destruct H2 as (Hc2 & Hm2 & Hr2). rewrite Hc2, Hm2, Hr2.
    split; [done|]. split; [done|]. split; [done|]. split; [|split].
    + intros p [[= ->]|Hp].
      * destruct new_monitor; [right; left | left].
      * rewrite Hp. left.
    + intros p Hctx Hp Hnc Hnm Hin. apply (Hdrop p Hctx Hp).
      destruct new_monitor as [m|].
      * apply elem_of_cons in Hin as [->|Hin]; [done|].
        apply elem_of_cons in Hin as [->|Hin]; done.
      * apply elem_of_cons in Hin as [->|Hin]; done.
    + intros -> pending. unfold udev_monitor_poll. by rewrite Hc, Hm, Hc2, Hm2.
Qed.

(** X17. A hotplug add for a node that cannot be opened, or whose
    strict probe fails or answers version 0, is skipped: the call
    returns, the table, the counter and the handles are as before and
    no more devices are counted. *)

Theorem add_udev_device_rejected (d : udev_device) (w : world) :
  (∃ e, r_open (ud_reply d) = SysErr e) ∨
  (∃ e, r_version (ud_reply d) = SysErr e) ∨
  r_version (ud_reply d) = SysOk 0%Z →
  ∃ w', add_udev_device (Some d) w = Done tt w' ∧
        same_table w w' ∧ count_joysticks w' = count_joysticks w.
Proof.
  intros Hbad.
  assert (Hgoal : ∃ w', add_udev_device (Some d) w = Done tt w' ∧ same_table w w').
  { unfold add_udev_device.
    destruct (ud_devnode d) as [[|c s]|];
      try (eexists; split; [done | apply same_table_refl]).
    destruct (sys_ioctl (ud_stat d) 0%Z w) as [[rc st_rdev] w1] eqn:Hstat.
    apply same_table_sys_ioctl in Hstat.
    case_decide; [by eexists|]. destruct (list_find _ _); [by eexists|].
    assert (Hrej : ∃ w2, open_joystick (String c s) st_rdev true (ud_reply d) w1
                         = Done false w2).
    { destruct (open_joystick_stages (String c s) st_rdev true (ud_reply d) w1)
        as (fd_ & w2 & Hsys & Hfail & Hrest).
      destruct (decide (fd_ = (-1)%Z)) as [Hfd|Hfd]; [by eexists; apply Hfail|].
      destruct (Hrest Hfd) as (w3 & rc' & version & w4 & H3 & Hprobe & Hcont).
      destruct Hbad as [[e He]|Hbad].
      { rewrite He in Hsys. simpl in Hsys. injection Hsys as <- _. done. }
      simpl in Hcont.
      destruct Hbad as [[e He]| He]; rewrite He in Hprobe;
        injection Hprobe as <- <- _; simpl in Hcont; by eexists. }
    destruct Hrej as [w2 Hrej]. rewrite Hrej. simpl.
    exists w2. split; [done|].
    eapply same_table_trans; [exact Hstat | by eapply open_joystick_false]. }
  destruct Hgoal as (w' & Hadd & Hsame). exists w'.
  split; [done|]. split; [done|]. by apply count_joysticks_same_table.
Qed.

(** X18. [init_joystick] on a path returns only with the device opened
    and registered: one more device is counted and an active slot holds
    its descriptor and device number, whatever the version probe said.
    If [stat] or [open] fails it ends the process. *)

Theorem init_joystick_registers (devnode_ : string) (st : sys_reply Z)
    (r : device_reply) (w : world) :
  reachable w →
  (∀ e, st = SysErr e →
        init_joystick (Some devnode_) st r w = Abort ProcessExit) ∧
  (∀ e, r_open r = SysErr e →
        init_joystick (Some devnode_) st r w = Abort ProcessExit) ∧
  ∀ w', init_joystick (Some devnode_) st r w = Done tt w' →
    count_joysticks w' = (count_joysticks w + 1)%Z ∧
    ∃ rdev fd_ i, st = SysOk rdev ∧ r_open r = SysOk fd_ ∧
      active w' i ∧ fd (slot w' i) = fd_ ∧ dev (slot w' i) = rdev.
Proof.
  intros Hreach. pose proof (reachable_invariant w Hreach) as Hinv.
  unfold init_joystick. split; [|split].
  - intros e ->. done.
  - intros e He. destruct st as [e'|rdev]; [done|]. simpl.
    unfold open_joystick. rewrite He. done.
  - intros w'. destruct st as [e'|rdev]; [done|]. simpl.
    destruct (open_joystick devnode_ rdev false r w) as [[|] w2|a] eqn:Hopen;
      simpl; [|done..].
    intros [= <-]. split; [by eapply open_joystick_true_count|].
    destruct (open_joystick_slot _ _ _ _ _ _ Hinv Hopen)
      as (i & fd_ & Hr & _ & Hact & _ & _ & Hfd & Hdev & _).
    exists rdev, fd_, i. done.
Qed.

End lifecycle.

Section notifications.
Context `{matelight_h}.

(** X19. [udev_monitor_poll] does nothing when there is no context or no
    monitor, and nothing when every pending notification is one it
    drops: the state, table and descriptors included, is unchanged. *)

Theorem udev_monitor_poll_ignores (pending : list (option udev_device)) (w : world) :
  udev_ctx w = None ∨ udev_monitor w = None ∨
  Forall ignored_notification pending →
  udev_monitor_poll pending w = Done tt w.
Proof.
  intros Hcase. unfold udev_monitor_poll.
  destruct (udev_ctx w) as [c|]; [|done].
  destruct (udev_monitor w) as [m|]; [|done].
  destruct Hcase as [?|[?|Hall]]; [done..|].
  induction Hall as [|n rest Hn _ IH]; [done|].
  destruct n as [d|]; simpl; [|done].
  assert (Hd : udev_dispatch d w = Done tt w).
  { unfold udev_dispatch. simpl in Hn.
    destruct (ud_joystick d) as [val|]; [|done].
    destruct (ud_action d) as [action|]; [|done].
    destruct Hn as [Hj|[?|(Ha & Hr & Hc)]]; [|done|].
    - rewrite decide_False; [done|]. intros ->. done.
    - case_decide; [|done].
      rewrite !(decide_False (P := action = _)); [done|..]; intros ->; done. }
  rewrite Hd. simpl. done.
Qed.

End notifications.

(** * An induction principle for reachable states, and the capacity *)

Section reachable_induction.
Context `{matelight_h}.

Variable I : world → Prop.
Hypothesis I_initial : I initial_world.
Hypothesis I_released : ∀ w w', I w → released w w' → I w'.
Hypothesis I_reset : ∀ w, I w → I (input_reset w).
Hypothesis I_alloc : ∀ w, I w → I (get_free_joystick w).2.
Hypothesis I_open : ∀ devnode_ st_rdev check_joydev r w w',
  I w → open_joystick devnode_ st_rdev check_joydev r w = Done true w' → I w'.
Hypothesis I_handles : ∀ w w',
  I w → joysticks w' = joysticks w → num_joysticks w' = num_joysticks w →
  udev_ctx w' ≠ None → I w'.












End reachable_induction.

Section capacity.
Context `{matelight_h}.

(** The least unused number is at most one more than the number of
    active slots: the numbers below it are held by different slots. *)

Lemma least_unused_count (w : world) (p : Z) :
  least_unused w p → (p ≤ count_joysticks w + 1)%Z.
Proof.
  intros (Hpos & _ & Hbelow). rewrite count_joysticks_filter.
  set (L := filter (λ i, fd (slot w i) ≠ (-1)%Z) (seq 0 (num_joysticks w))).
  set (Q := (λ q : nat, Z.of_nat (S q)) <$> seq 0 (Z.to_nat (p - 1))).
  assert (Hsub : Q ⊆+ (λ i, player (slot w i)) <$> L).
  { apply NoDup_submseteq.
    - apply NoDup_fmap_2; [|apply NoDup_seq].
      intros a b Hab. lia.
    - intros x (q & -> & Hq%elem_of_seq)%list_elem_of_fmap.
      destruct (Hbelow (Z.of_nat (S q))) as (i & [Hi Hfd] & Hpl); [lia|].
      apply list_elem_of_fmap. exists i. split; [done|].
      apply list_elem_of_filter. split; [done|]. apply elem_of_seq. lia. }
  apply submseteq_length in Hsub. unfold Q in Hsub.
  rewrite !length_fmap, length_seq in Hsub. lia.
Qed.





(** X20. The table never holds [MAX_JOYSTICKS] open devices: in every
    state reached by calls that all return, [count_joysticks] is below
    [MAX_JOYSTICKS].  The open that would fill the last slot is the one
    that writes past the table. *)


(** X21. In every reachable state the player number of an active slot
    lies between 1 and [MAX_JOYSTICKS - 1]. *)


(** X22. In every reachable state the number [get_available_player]
    returns is at least 1 and at most one more than the number of open
    devices. *)

Theorem get_available_player_bound (w : world) :
  reachable w →
  (1 ≤ get_available_player w ≤ count_joysticks w + 1)%Z.
Proof.
  intros Hreach. pose proof (reachable_invariant w Hreach) as Hinv.
  assert (Hleast : least_unused w (get_available_player w)).
  { apply get_available_player_least. intros H0. by apply (inv_first w Hinv). }
  pose proof (least_unused_count w _ Hleast).
  destruct Hleast as [Hpos _]. lia.
Qed.

End capacity.

(** * The further properties on the concrete runs *)

Section further_checks.
#[local] Existing Instance example_h.

Lemma reachable_one_pad : reachable one_pad.
Proof. exists one_pad_calls. vm_compute. reflexivity. Qed.

Lemma reachable_two_pads : reachable two_pads.
Proof. exists two_pads_calls. vm_compute. reflexivity. Qed.

Lemma reachable_stale_slot : reachable stale_slot.
Proof. exists stale_calls. vm_compute. reflexivity. Qed.

Lemma remove_udev_device_frees_witness :
  let d := unplug "/dev/input/js0" in
  let w' := remove_udev_device (Some d) two_pads in
  ud_devnode d = Some "/dev/input/js0" ∧ "/dev/input/js0" ≠ EmptyString ∧
  num_joysticks two_pads ≤ length (joysticks two_pads) ∧
  num_joysticks w' = num_joysticks two_pads ∧
  length (joysticks w') = length (joysticks two_pads) ∧
  (∀ i, active two_pads i → devnode (slot two_pads i) = "/dev/input/js0" →
        slot w' i = set_fd (-1) (slot two_pads i) ∧
        fd (slot two_pads i) ∉ open_fds w') ∧
  (∀ i, ¬ (active two_pads i ∧ devnode (slot two_pads i) = "/dev/input/js0") →
        slot w' i = slot two_pads i) ∧
  ((∀ i, active two_pads i → devnode (slot two_pads i) ≠ "/dev/input/js0") →
   w' = two_pads).
Proof.
  intros d w'.
  split; [reflexivity|]. split; [discriminate|]. split; [vm_compute; lia|].
  apply (remove_udev_device_frees d "/dev/input/js0" two_pads).
  - reflexivity.
  - discriminate.
  - vm_compute. lia.
Defined.

Lemma open_joystick_count_witness :
  reachable stale_slot ∧
  open_joystick "/dev/input/js0" 1 true (pad_reply 5 1) stale_slot
  = Done true replugged ∧
  count_joysticks stale_slot = 0%Z ∧
  count_joysticks replugged = (count_joysticks stale_slot + 1)%Z.
Proof.
  split; [apply reachable_stale_slot|]. split; [vm_compute; reflexivity|].
  split; [vm_compute; reflexivity|].
  apply (open_joystick_count "/dev/input/js0" 1 true (pad_reply 5 1)
           stale_slot replugged true).
  - apply reachable_stale_slot.
  - vm_compute. reflexivity.
Defined.

Lemma key_history_records_presses_witness :
  let es := [press_A; release_A; press_B; button_5; push_LEFT] in
  length (key_history zero_joystick) = KEY_HISTORY_SIZE ∧
  presses es zero_joystick = [KEYPAD_A; KEYPAD_B; KEYPAD_LEFT] ∧
  key_history (on_events es zero_joystick)
  = take KEY_HISTORY_SIZE (reverse (presses es zero_joystick)
                           ++ key_history zero_joystick) ∧
  length (key_history (on_events es zero_joystick)) = KEY_HISTORY_SIZE.
Proof.
  intros es. split; [reflexivity|]. split; [vm_compute; reflexivity|].
  apply (key_history_records_presses es zero_joystick). reflexivity.
Defined.

Lemma joystick_is_key_seq_last_presses_witness :
  let es := [press_A; release_A; press_B; button_5; push_LEFT] in
  let s := [KEYPAD_B; KEYPAD_LEFT] in
  length (key_history zero_joystick) = KEY_HISTORY_SIZE ∧
  length s ≤ KEY_HISTORY_SIZE ∧ length s ≤ length (presses es zero_joystick) ∧
  joystick_is_key_seq (Some (on_events es zero_joystick)) s (length s) = true ∧
  (joystick_is_key_seq (Some (on_events es zero_joystick)) s (length s) = true ↔
   s = drop (length (presses es zero_joystick) - length s)
            (presses es zero_joystick)).
Proof.
  intros es s. split; [reflexivity|]. split; [vm_compute; lia|].
  split; [vm_compute; lia|]. split; [vm_compute; reflexivity|].
  apply (joystick_is_key_seq_last_presses es zero_joystick s).
  - reflexivity.
  - vm_compute. lia.
  - vm_compute. lia.
Defined.

Lemma read_joystick_button_witness :
  let j := zero_joystick in
  let j' := on_event press_A j in
  ((1%Z = 8%Z ∧ KEYPAD_A = KEYPAD_SELECT) ∨ (1%Z = 9%Z ∧ KEYPAD_A = KEYPAD_START) ∨
   (1%Z = 0%Z ∧ KEYPAD_A = KEYPAD_B) ∨ (1%Z = 1%Z ∧ KEYPAD_A = KEYPAD_A)) ∧
  KEYPAD_A ≠ KEYPAD_NONE ∧
  length (key_history j) = KEY_HISTORY_SIZE ∧ 0 < KEY_HISTORY_SIZE ∧
  Z.land (type press_A) (Z.lnot JS_EVENT_INIT) = JS_EVENT_BUTTON ∧
  number press_A = 1%Z ∧
  last_key_idx j' = KEYPAD_A ∧
  last_key_val j' = bool_decide (value press_A ≠ 0%Z) ∧
  Z.land (key_state j') (Z.lnot KEYPAD_A) = Z.land (key_state j) (Z.lnot KEYPAD_A) ∧
  (value press_A ≠ 0%Z →
     Z.land (key_state j') KEYPAD_A = KEYPAD_A ∧
     key_history j' = KEYPAD_A :: take (KEY_HISTORY_SIZE - 1) (key_history j)) ∧
  (value press_A = 0%Z →
     Z.land (key_state j') KEYPAD_A = 0%Z ∧ key_history j' = key_history j).
Proof.
  intros j j'.
  split; [right; right; right; split; reflexivity|].
  split; [vm_compute; discriminate|]. split; [reflexivity|].
  split; [vm_compute; lia|]. split; [reflexivity|]. split; [reflexivity|].
  apply (read_joystick_button 1 KEYPAD_A press_A j).
  - right. right. right. split; reflexivity.
  - vm_compute. discriminate.
  - reflexivity.
  - vm_compute. lia.
  - reflexivity.
  - reflexivity.
Defined.

Lemma read_joystick_unmapped_witness :
  let j := on_event press_A zero_joystick in
  Z.land (type button_5) (Z.lnot JS_EVENT_INIT) = JS_EVENT_BUTTON ∧
  number button_5 = 5%Z ∧
  key_state j = KEYPAD_A ∧
  on_event button_5 j = set_last_key KEYPAD_NONE false j.
Proof.
  intros j. split; [reflexivity|]. split; [reflexivity|].
  split; [vm_compute; reflexivity|].
  apply (read_joystick_unmapped button_5 j).
  - intros _. vm_compute. split_and!; discriminate.
  - vm_compute. discriminate.
Defined.

Lemma read_joystick_first_ready_witness :
  udev_monitor_poll [] two_pads = Done tt two_pads ∧
  num_joysticks two_pads ≤ length (joysticks two_pads) ∧
  (∃ w', read_joystick [] (input_on 4 press_A) two_pads = Done (Some 1) w' ∧
         slot w' 1 = on_event press_A (slot two_pads 1)) ∧
  (∀ i e,
     i < num_joysticks two_pads → fd (slot two_pads i) ≠ (-1)%Z →
     input_on 4 press_A (fd (slot two_pads i)) = SysOk (Some e) →
     (∀ k, k < i → fd (slot two_pads k) = (-1)%Z ∨
                   ∀ e', input_on 4 press_A (fd (slot two_pads k)) ≠ SysOk (Some e')) →
     ∃ w', read_joystick [] (input_on 4 press_A) two_pads = Done (Some i) w' ∧
           slot w' i = on_event e (slot two_pads i) ∧
           (∀ k, k ≠ i → slot w' k = slot two_pads k) ∧
           num_joysticks w' = num_joysticks two_pads ∧
           open_fds w' = open_fds two_pads) ∧
  ((∀ k, k < num_joysticks two_pads →
         fd (slot two_pads k) = (-1)%Z ∨
         ∀ e', input_on 4 press_A (fd (slot two_pads k)) ≠ SysOk (Some e')) →
   ∃ w', read_joystick [] (input_on 4 press_A) two_pads = Done None w' ∧
         errno_only two_pads w').
Proof.
  split; [reflexivity|]. split; [vm_compute; lia|].
  split; [eexists; split; vm_compute; reflexivity|].
  apply (read_joystick_first_ready [] (input_on 4 press_A) two_pads two_pads).
  - reflexivity.
  - vm_compute. lia.
Defined.

Lemma open_joystick_false_releases_witness :
  let w' := set_errno 2 one_pad in
  open_joystick "/dev/input/js9" 9 true missing_reply one_pad = Done false w' ∧
  same_table one_pad w' ∧
  (∀ e, r_open missing_reply = SysErr e → w' = set_errno e one_pad) ∧
  (∀ fd_, r_open missing_reply = SysOk fd_ → fd_ ≠ (-1)%Z →
          fd_ ∉ open_fds one_pad →
          ¬ (true = true ∧ r_version missing_reply = SysOk 0%Z) →
          open_fds w' = open_fds one_pad).
Proof.
  intros w'. split; [vm_compute; reflexivity|].
  apply (open_joystick_false_releases "/dev/input/js9" 9 true missing_reply
           one_pad w').
  vm_compute. reflexivity.
Defined.


Lemma open_joystick_after_reset_witness :
  reachable one_pad ∧
  open_joystick "/dev/input/js4" 4 true (pad_reply 8 1) (input_reset one_pad)
  = Done true reopened ∧
  num_joysticks reopened = 1 ∧ active reopened 0 ∧
  player (slot reopened 0) = 1%Z ∧ dev (slot reopened 0) = 4%Z ∧
  count_joysticks reopened = 1%Z.
Proof.
  split; [apply reachable_one_pad|]. split; [vm_compute; reflexivity|].
  apply (open_joystick_after_reset "/dev/input/js4" 4 true (pad_reply 8 1)
           one_pad reopened).
  - apply reachable_one_pad.
  - vm_compute. reflexivity.
Defined.

Lemma remove_udev_device_frees_player_witness :
  let d := unplug "/dev/input/js0" in
  let w' := remove_udev_device (Some d) two_pads in
  reachable two_pads ∧ active two_pads 0 ∧
  devnode (slot two_pads 0) ≠ EmptyString ∧
  ud_devnode d = Some (devnode (slot two_pads 0)) ∧
  player (slot two_pads 0) = 1%Z ∧
  ¬ active w' 0 ∧ ¬ held w' (player (slot two_pads 0)) ∧
  least_unused w' (get_available_player w') ∧
  (get_available_player w' ≤ player (slot two_pads 0))%Z.
Proof.
  intros d w'.
  assert (Hact : active two_pads 0).
  { split; [vm_compute; lia | vm_compute; discriminate]. }
  split; [apply reachable_two_pads|]. split; [exact Hact|].
  split; [vm_compute; discriminate|]. split; [reflexivity|].
  split; [reflexivity|].
  apply (remove_udev_device_frees_player d two_pads 0).
  - apply reachable_two_pads.
  - exact Hact.
  - vm_compute. discriminate.
  - reflexivity.
Defined.

Lemma open_then_remove_witness :
  let d := unplug "/dev/input/js1" in
  let w'' := remove_udev_device (Some d) two_pads in
  reachable one_pad ∧
  open_joystick "/dev/input/js1" 2 true (pad_reply 4 1) one_pad = Done true two_pads ∧
  "/dev/input/js1" ≠ EmptyString ∧ String.length "/dev/input/js1" < DEVNODE_SIZE ∧
  ud_devnode d = Some "/dev/input/js1" ∧
  (count_joysticks w'' ≤ count_joysticks one_pad)%Z ∧
  ∀ fd_, r_open (pad_reply 4 1) = SysOk fd_ → fd_ ∉ open_fds w''.
Proof.
  intros d w''.
  split; [apply reachable_one_pad|]. split; [vm_compute; reflexivity|].
  split; [discriminate|]. split; [vm_compute; lia|]. split; [reflexivity|].
  apply (open_then_remove "/dev/input/js1" 2 true (pad_reply 4 1) d one_pad two_pads).
  - apply reachable_one_pad.
  - vm_compute. reflexivity.
  - discriminate.
  - vm_compute. lia.
  - reflexivity.
Defined.

Lemma open_joystick_out_of_bounds_witness :
  r_open (pad_reply 6 1) = SysOk 6%Z ∧ 6%Z ≠ (-1)%Z ∧
  num_joysticks three_pads ≤ length (joysticks three_pads) ∧
  S (num_joysticks three_pads) = MAX_JOYSTICKS ∧
  (∀ k, k < num_joysticks three_pads → fd (slot three_pads k) ≠ (-1)%Z) ∧
  open_joystick "/dev/input/js3" 4 true (pad_reply 6 1) three_pads
  = Abort OutOfBoundsWrite.
Proof.
  assert (Hfull : ∀ k, k < num_joysticks three_pads → fd (slot three_pads k) ≠ (-1)%Z).
  { intros k Hk. change (num_joysticks three_pads) with 3 in Hk.
    destruct k as [|[|[|k]]]; [vm_compute; discriminate..|lia]. }
  split; [reflexivity|]. split; [discriminate|]. split; [vm_compute; lia|].
  split; [reflexivity|]. split; [exact Hfull|].
  apply (open_joystick_out_of_bounds "/dev/input/js3" 4 true (pad_reply 6 1)
           three_pads 6).
  - reflexivity.
  - discriminate.
  - intros _. exists 1%Z. split; [reflexivity | discriminate].
  - vm_compute. lia.
  - right. split; [reflexivity | exact Hfull].
Defined.

Lemma add_udev_device_rejected_witness :
  r_version (ud_reply not_a_joystick) = SysOk 0%Z ∧
  ∃ w', add_udev_device (Some not_a_joystick) one_pad = Done tt w' ∧
        same_table one_pad w' ∧ count_joysticks w' = count_joysticks one_pad.
Proof.
  split; [reflexivity|].
  apply (add_udev_device_rejected not_a_joystick one_pad).
  right. right. reflexivity.
Defined.

Lemma init_joystick_registers_witness :
  reachable one_pad ∧
  (∃ w', init_joystick (Some "/dev/input/js1") (SysOk 2%Z) (pad_reply 4 1) one_pad
         = Done tt w') ∧
  (∀ e, SysOk 2%Z = SysErr e →
        init_joystick (Some "/dev/input/js1") (SysOk 2%Z) (pad_reply 4 1) one_pad
        = Abort ProcessExit) ∧
  (∀ e, r_open (pad_reply 4 1) = SysErr e →
        init_joystick (Some "/dev/input/js1") (SysOk 2%Z) (pad_reply 4 1) one_pad
        = Abort ProcessExit) ∧
  ∀ w', init_joystick (Some "/dev/input/js1") (SysOk 2%Z) (pad_reply 4 1) one_pad
        = Done tt w' →
    count_joysticks w' = (count_joysticks one_pad + 1)%Z ∧
    ∃ rdev fd_ i, SysOk 2%Z = SysOk rdev ∧ r_open (pad_reply 4 1) = SysOk fd_ ∧
      active w' i ∧ fd (slot w' i) = fd_ ∧ dev (slot w' i) = rdev.
Proof.
  split; [apply reachable_one_pad|].
  split; [eexists; vm_compute; reflexivity|].
  apply (init_joystick_registers "/dev/input/js1" (SysOk 2%Z) (pad_reply 4 1) one_pad).
  apply reachable_one_pad.
Defined.

Lemma udev_monitor_poll_ignores_witness :
  let pending := [None; Some keyboard_added] in
  udev_ctx one_pad ≠ None ∧ udev_monitor one_pad ≠ None ∧
  Forall ignored_notification pending ∧
  udev_monitor_poll pending one_pad = Done tt one_pad.
Proof.
  intros pending.
  assert (Hall : Forall ignored_notification pending).
  { apply Forall_cons; split; [exact I|].
    apply Forall_cons; split; [left; discriminate | apply Forall_nil_2]. }
  split; [vm_compute; discriminate|]. split; [vm_compute; discriminate|].
  split; [exact Hall|].
  apply (udev_monitor_poll_ignores pending one_pad).
  right. right. exact Hall.
Defined.



Lemma get_available_player_bound_witness :
  reachable after_removal ∧ get_available_player after_removal = 1%Z ∧
  (1 ≤ get_available_player after_removal ≤ count_joysticks after_removal + 1)%Z.
Proof.
  split; [apply reachable_after_removal|]. split; [vm_compute; reflexivity|].
  apply (get_available_player_bound after_removal).
  apply reachable_after_removal.
Defined.

End further_checks.
